(** * feddit_analyzer: the comment aggregation and polarity pipeline

    A shallow embedding of the core of the [feddit_analyzer] package:

    - [sentiment_analysis/sentiment.py], [sentiment_analysis/schemas.py] and
      [sentiment_analysis/_analyzer.py]: the polarity engine;
    - [api/_core.py]: the bounded merge of comment batches
      ([_get_all_comments]), the orchestrator ([analyze_comments_sentiment])
      and the title cache ([get_subfeddit_id]);
    - [api/_schemas.py] and [api/_app.py]: the requests, the responses and
      the two endpoints that classify comments.

    Python [int] is [Z].  Python [float] is an instance of the class
    [Scalar]: the instance the program runs on is IEEE binary64
    ([PrimFloat.float], whose operations are those of [SpecFloat]); a
    second instance, [Q], evaluates the same expressions in exact
    arithmetic.  Exceptions are values of [exn];
    a computation that may raise returns a [result].  The three network
    collaborators (Feddit client, sentiment model) are parameters; every
    call to one of them is recorded in the trace of the [World]. *)

From Stdlib Require Import List ZArith QArith Qpower Bool String Ascii DecimalString.
From Stdlib Require Import Lia Lqa Permutation Floats Sorted.
Import ListNotations.

Set Implicit Arguments.
Local Open Scope Z_scope.

(** ** Python floats *)

(** The operations the program applies to floats: the literals [0] and
    [1], unary minus, [+], [-], [/] (without its zero check, see
    [py_truediv]), [==], [<] and [<=]. *)
Class Scalar (F : Type) : Type := {
  fzero : F;
  fone : F;
  fopp : F -> F;
  fadd : F -> F -> F;
  fsub : F -> F -> F;
  fdiv : F -> F -> F;
  feqb : F -> F -> bool;
  fltb : F -> F -> bool;
  fleb : F -> F -> bool
}.

(** CPython's [float]: IEEE 754 binary64, round to nearest even. *)
#[export] Instance Scalar_float : Scalar float := {
  fzero := 0%float;
  fone := 1%float;
  fopp := PrimFloat.opp;
  fadd := PrimFloat.add;
  fsub := PrimFloat.sub;
  fdiv := PrimFloat.div;
  feqb := PrimFloat.eqb;
  fltb := PrimFloat.ltb;
  fleb := PrimFloat.leb
}.

(** Exact rational arithmetic: what the expressions denote without
    rounding. *)
#[export] Instance Scalar_Q : Scalar Q := {
  fzero := 0%Q;
  fone := 1%Q;
  fopp := Qopp;
  fadd := Qplus;
  fsub := Qminus;
  fdiv := Qdiv;
  feqb := Qeq_bool;
  fltb := fun x y => negb (Qle_bool y x);
  fleb := Qle_bool
}.

(** ** Exceptions and results *)

(** The classes of [sentiment_analysis/errors.py] below [ModelAPIError]
    and of [feddit_client/errors.py] below [APIClientError]. *)
Variant api_error : Set :=
| BadRequestError
| NotFoundError
| InternalServerError
| UnexpectedError
| ResponseValidationError.

(** The exceptions the modelled code raises or lets through.
    [ValidationError] is pydantic's; [HTTPException] is FastAPI's;
    [JSONDecodeError] is what [response.json()] raises for a body that
    is not JSON; [TypeError] is Python's own. *)
Inductive exn (F : Type) : Type :=
| ZeroDivisionError
| KeyError (key : string)
| ValueError (msg : string)
| ValidationError (msg : string)
| InvalidPolarityError (polarity : F)
| ModelAPIError (kind : api_error)
| APIClientError (kind : api_error)
| HTTPException (status_code : Z) (detail : string)
| TypeError
| JSONDecodeError.

Arguments ZeroDivisionError {F}.
Arguments KeyError {F} key.
Arguments ValueError {F} msg.
Arguments ValidationError {F} msg.
Arguments InvalidPolarityError {F} polarity.
Arguments ModelAPIError {F} kind.
Arguments APIClientError {F} kind.
Arguments HTTPException {F} status_code detail.
Arguments TypeError {F}.
Arguments JSONDecodeError {F}.

Definition api_error_name (k : api_error) : string :=
  match k with
  | BadRequestError => "BadRequestError"
  | NotFoundError => "NotFoundError"
  | InternalServerError => "InternalServerError"
  | UnexpectedError => "UnexpectedError"
  | ResponseValidationError => "ResponseValidationError"
  end.

(** [type(e).__name__] *)
Definition exn_name {F} (e : exn F) : string :=
  match e with
  | ZeroDivisionError => "ZeroDivisionError"
  | KeyError _ => "KeyError"
  | ValueError _ => "ValueError"
  | ValidationError _ => "ValidationError"
  | InvalidPolarityError _ => "InvalidPolarityError"
  | ModelAPIError k => api_error_name k
  | APIClientError k => api_error_name k
  | HTTPException _ _ => "HTTPException"
  | TypeError => "TypeError"
  | JSONDecodeError => "JSONDecodeError"
  end.

(** The outcome of a call: it returned [a], or it raised [e]. *)
Inductive result (F A : Type) : Type :=
| Ok (a : A)
| Err (e : exn F).

Arguments Ok {F A} a.
Arguments Err {F A} e.

Definition rbind {F A B} (r : result F A) (k : A -> result F B) : result F B :=
  match r with
  | Ok a => k a
  | Err e => Err e
  end.

Notation "'let?' x ':=' r 'in' k" := (rbind r (fun x => k))
  (at level 10, x name, r at level 100, k at level 200).

(** A list comprehension whose element expression may raise: elements
    are evaluated left to right and the first exception escapes. *)
Fixpoint rmap {F A B} (f : A -> result F B) (l : list A) : result F (list B) :=
  match l with
  | [] => Ok []
  | a :: l' =>
      let? b := f a in
      let? bs := rmap f l' in
      Ok (b :: bs)
  end.

(** ** sentiment_analysis/sentiment.py *)

(** [class Sentiment(StrEnum)] *)
Variant Sentiment : Set :=
| POSITIVE
| NEGATIVE.

(** [Sentiment.value] *)
Definition Sentiment_value (s : Sentiment) : string :=
  match s with
  | POSITIVE => "positive"
  | NEGATIVE => "negative"
  end.

Section PolarityEngine.

Context {F : Type} {SF : Scalar F}.

(** Python's chained comparison [lo <= x <= hi]. *)
Definition between (lo x hi : F) : bool := fleb lo x && fleb x hi.

(** [_POL_TH = 0] *)
Definition _POL_TH : F := fzero.

(** [Sentiment.from_polarity]:
<<
    if not -1 <= polarity <= 1:
        raise InvalidPolarityError(polarity)
    return cls.POSITIVE if polarity >= _POL_TH else cls.NEGATIVE
>> *)
Definition from_polarity (polarity : F) : result F Sentiment :=
  if negb (between (fopp fone) polarity fone) then
    Err (InvalidPolarityError polarity)
  else
    Ok (if fleb _POL_TH polarity then POSITIVE else NEGATIVE).

(** ** sentiment_analysis/schemas.py *)

(** [_NLABELS = 3] *)
Definition _NLABELS : Z := 3.

(** [class SentimentScore(BaseModel)]: a label and its score. *)
Record SentimentScore : Type := mkSentimentScore {
  label : string;
  score : F
}.

(** [SentimentScore._score_must_be_between_0_and_1] *)
Definition _score_must_be_between_0_and_1 (value : F) : result F F :=
  if negb (between fzero value fone) then
    Err (ValueError "Score must be between 0 and 1")
  else Ok value.

(** [class SentimentAnalysis(BaseModel)] *)
Record SentimentAnalysis : Type := mkSentimentAnalysis {
  statement : string;
  polarity : F;
  sentiment : Sentiment
}.

(** [SentimentAnalysis._polarity_must_be_between_minus_1_and_1] *)
Definition _polarity_must_be_between_minus_1_and_1 (value : F) : result F F :=
  if negb (between (fopp fone) value fone) then
    Err (ValueError "Polarity must be between -1 and 1")
  else Ok value.

(** Calling [SentimentAnalysis(statement=..., polarity=..., sentiment=...)]:
    pydantic runs the field validator and reports its [ValueError] as a
    [ValidationError]. *)
Definition new_SentimentAnalysis (statement : string) (polarity : F)
    (sentiment : Sentiment) : result F SentimentAnalysis :=
  match _polarity_must_be_between_minus_1_and_1 polarity with
  | Ok v => Ok (mkSentimentAnalysis statement v sentiment)
  | Err _ => Err (ValidationError "SentimentAnalysis")
  end.

(** ** sentiment_analysis/_analyzer.py: the polarity transform *)

(** Python's [a / b] on floats: [ZeroDivisionError] when [b == 0]. *)
Definition py_truediv (a b : F) : result F F :=
  if feqb b fzero then Err ZeroDivisionError else Ok (fdiv a b).

(** [_compute_polarity]:
<<
    return (positive - negative) / (positive + neutral + negative)
>> *)
Definition _compute_polarity (positive neutral negative : F) : result F F :=
  py_truediv (fsub positive negative) (fadd (fadd positive neutral) negative).

(** *** Python dicts keyed by strings

    Insertion-ordered; storing under a key that is present replaces its
    value.  Only what [_analyze_output] needs. *)
Fixpoint dict_set (d : list (string * F)) (k : string) (v : F) : list (string * F) :=
  match d with
  | [] => [(k, v)]
  | (k', v') :: d' =>
      if String.eqb k' k then (k', v) :: d' else (k', v') :: dict_set d' k v
  end.

Fixpoint dict_get (d : list (string * F)) (k : string) : option F :=
  match d with
  | [] => None
  | (k', v') :: d' => if String.eqb k' k then Some v' else dict_get d' k
  end.

(** [d[k]] *)
Definition dict_getitem (d : list (string * F)) (k : string) : result F F :=
  match dict_get d k with
  | Some v => Ok v
  | None => Err (KeyError k)
  end.

(** [{score.label: score.score for score in output}] *)
Definition scores_dict (output : list SentimentScore) : list (string * F) :=
  fold_left (fun d s => dict_set d (label s) (score s)) output [].

(** [_analyze_output]:
<<
    scores = {score.label: score.score for score in output}
    polarity = _compute_polarity(scores["positive"], scores["neutral"], scores["negative"])
    return SentimentAnalysis(
        statement=statement, polarity=polarity, sentiment=Sentiment.from_polarity(polarity)
    )
>> *)
Definition _analyze_output (statement : string) (output : list SentimentScore)
    : result F SentimentAnalysis :=
  let scores := scores_dict output in
  let? positive := dict_getitem scores "positive" in
  let? neutral := dict_getitem scores "neutral" in
  let? negative := dict_getitem scores "negative" in
  let? polarity := _compute_polarity positive neutral negative in
  let? sentiment := from_polarity polarity in
  new_SentimentAnalysis statement polarity sentiment.

(** The argument [statements: str | list[str]]. *)
Variant statements_arg : Type :=
| Str (s : string)
| StrList (l : list string).

(** [_process_outputs]:
<<
    if isinstance(statements, str):
        statements = [statements]
    return [
        _analyze_output(statement, output)
        for statement, output in zip(statements, outputs, strict=False)
    ]
>>
    [zip(..., strict=False)] is [combine]: it stops at the shorter
    argument. *)
Definition _process_outputs (statements : statements_arg)
    (outputs : list (list SentimentScore)) : result F (list SentimentAnalysis) :=
  let statements :=
    match statements with
    | Str s => [s]
    | StrList l => l
    end in
  rmap (fun so => _analyze_output (fst so) (snd so)) (combine statements outputs).

(** *** [ModelResponse] and the HTTP response *)

(** [{score.label for score in scores} != {"positive", "negative", "neutral"}]:
    the two sets differ. *)
Definition required_labels : list string := ["positive"; "negative"; "neutral"]%string.

Definition mem_string (s : string) (l : list string) : bool :=
  existsb (String.eqb s) l.

Definition label_set_differs (scores : list SentimentScore) : bool :=
  let labels := map label scores in
  negb (forallb (fun l => mem_string l required_labels) labels
        && forallb (fun r => mem_string r labels) required_labels).

(** [ModelResponse._validate_required_labels]:
<<
    for scores in value:
        if len(scores) != _NLABELS or {score.label for score in scores} != {
            "positive", "negative", "neutral",
        }:
            raise ValidationError(
                "Outputs must contain the three labels: positive, negative, and neutral"
            )
    return value
>>
    [ValidationError] is the class imported from [pydantic].  It has no
    constructor that Python code can call with a message: evaluating
    [ValidationError("...")] raises [TypeError], so the [raise]
    statement never gets an instance to raise and [TypeError] is what
    leaves the validator. *)
Fixpoint _validate_required_labels (value : list (list SentimentScore))
    : result F (list (list SentimentScore)) :=
  match value with
  | [] => Ok []
  | scores :: rest =>
      if negb (Z.of_nat (List.length scores) =? _NLABELS) || label_set_differs scores then
        Err TypeError
      else
        let? rest' := _validate_required_labels rest in
        Ok (scores :: rest')
  end.

(** The body of the model's reply: a JSON value of the shape
    [list[list[{label: str, score: number}]]], any other JSON value, or
    a body that is not JSON. *)
Variant json_body : Type :=
| Outputs (outputs : list (list SentimentScore))
| OtherJSON
| NotJSON.

(** [httpx.Response], as far as [_handle_response] reads it. *)
Record Response : Type := mkResponse {
  status_code : Z;
  json : json_body
}.

(** [response.json()]: the JSON value of the body, or
    [JSONDecodeError]. *)
Definition response_json (response : Response) : result F json_body :=
  match json response with
  | NotJSON => Err JSONDecodeError
  | content => Ok content
  end.

(** [ModelResponse.model_validate({"outputs": content})]: pydantic
    first builds every [SentimentScore] (running its field validator,
    whose [ValueError] it reports as a [ValidationError]), then runs the
    validator of the field [outputs]; what that validator raises other
    than [ValueError] comes out as it is.  ([content] is a JSON value:
    for a body that is not JSON, [response.json()] has raised before.) *)
Definition model_validate (content : json_body) : result F (list (list SentimentScore)) :=
  match content with
  | OtherJSON | NotJSON => Err (ValidationError "outputs")
  | Outputs outputs =>
      match rmap (rmap (fun s => _score_must_be_between_0_and_1 (score s))) outputs with
      | Err _ => Err (ValidationError "outputs.score")
      | Ok _ => _validate_required_labels outputs
      end
  end.

(** [_handle_response]:
<<
    match response.status_code:
        case 200:
            content = response.json()
            try:
                return ModelResponse.model_validate({"outputs": content})
            except (ValidationError, ValueError) as exc:
                raise ResponseValidationError(...) from exc
        case 400: raise BadRequestError(...)
        case 404: raise NotFoundError(...)
        case 500: raise InternalServerError(...)
        case _:   raise UnexpectedError(...)
>>
    [response.json()] stands before the [try]: its [JSONDecodeError]
    is not caught.  Inside the [try] only [ValidationError] and
    [ValueError] are caught; any other exception of the validation
    passes through. *)
Definition _handle_response (response : Response)
    : result F (list (list SentimentScore)) :=
  if status_code response =? 200 then
    let? content := response_json response in
    match model_validate content with
    | Ok outputs => Ok outputs
    | Err (ValidationError _) | Err (ValueError _) =>
        Err (ModelAPIError ResponseValidationError)
    | Err e => Err e
    end
  else if status_code response =? 400 then Err (ModelAPIError BadRequestError)
  else if status_code response =? 404 then Err (ModelAPIError NotFoundError)
  else if status_code response =? 500 then Err (ModelAPIError InternalServerError)
  else Err (ModelAPIError UnexpectedError).

End PolarityEngine.

Arguments SentimentScore F : clear implicits.
Arguments SentimentAnalysis F : clear implicits.
Arguments Response F : clear implicits.
Arguments json_body F : clear implicits.

(** ** feddit_client/schemas.py *)

Module CommentInfo.
(** [class CommentInfo(BaseModel)] *)
Record t : Set := mk {
  id : Z;
  username : string;
  text : string;
  created_at : Z
}.
End CommentInfo.

Module SubfedditInfo.
(** [class SubfedditInfo(BaseModel)] *)
Record t : Set := mk {
  id : Z;
  username : string;
  title : string;
  description : string
}.
End SubfedditInfo.

(** ** [list.sort(key=..., reverse=True)]

    Python's sort is stable, also with [reverse=True], and compares keys
    with [<] only.  The sorted list is therefore determined by the input:
    it is the arrangement in descending key order in which elements with
    equal keys keep their input order.  Insertion from the right computes
    it: an element moves to the right only past elements with a strictly
    greater key. *)
Section StableSort.

Variables (A K : Type) (key : A -> K) (lt : K -> K -> bool).

Fixpoint insert_reverse (x : A) (l : list A) : list A :=
  match l with
  | [] => [x]
  | y :: l' => if lt (key x) (key y) then y :: insert_reverse x l' else x :: l
  end.

Definition sort_reverse (l : list A) : list A :=
  fold_right insert_reverse [] l.

End StableSort.

(** ** cachetools.TTLCache

    The cache of [api/_core.py] is a [cachetools.TTLCache]: a mapping
    with at most [maxsize] items, each of which expires [ttl] seconds
    after it was stored.  [links] lists the items from the least to the
    most recently used.  Every operation reads the cache's timer once;
    the reading is the argument [time].  The timer is monotonic, so the
    items that [expire] drops are exactly those with [expires <= time]. *)
Module TTLCache.

Record link : Set := mkLink {
  key : string;
  value : Z;
  expires : Q
}.

Record t : Set := mk {
  maxsize : Z;
  ttl : Q;
  links : list link
}.

(** [TTLCache(maxsize, ttl)] *)
Definition new (maxsize : Z) (ttl : Q) : t := mk maxsize ttl [].

Definition with_links (c : t) (ls : list link) : t := mk (maxsize c) (ttl c) ls.

(** [time < link.expires] *)
Definition alive (time : Q) (l : link) : bool := negb (Qle_bool (expires l) time).

Definition find (k : string) (ls : list link) : option link :=
  List.find (fun l => String.eqb (key l) k) ls.

Definition remove (k : string) (ls : list link) : list link :=
  filter (fun l => negb (String.eqb (key l) k)) ls.

(** [expire(time)]: drop the items that have expired. *)
Definition expire (time : Q) (ls : list link) : list link :=
  filter (alive time) ls.

(** [key in cache] *)
Definition contains (time : Q) (k : string) (c : t) : bool :=
  match find k (links c) with
  | None => false
  | Some l => alive time l
  end.

(** [cache[key]]: [None] stands for [KeyError].  A lookup marks the
    item as the most recently used one. *)
Definition getitem (time : Q) (k : string) (c : t) : option Z * t :=
  match find k (links c) with
  | None => (None, c)
  | Some l =>
      (if alive time l then Some (value l) else None,
       with_links c (remove k (links c) ++ [l]))
  end.

(** [del cache[key]]: [false] stands for [KeyError], raised when the
    key is absent, and also, after the item is removed, when it had
    expired. *)
Definition delitem (time : Q) (k : string) (c : t) : bool * t :=
  match find k (links c) with
  | None => (false, c)
  | Some l => (alive time l, with_links c (remove k (links c)))
  end.

(** [while self.currsize + size > maxsize: self.popitem()], every item
    of size 1: the least recently used items go first. *)
Fixpoint evict (maxsize : Z) (ls : list link) : list link :=
  match ls with
  | [] => []
  | _ :: ls' =>
      if Z.of_nat (List.length ls) + 1 >? maxsize then evict maxsize ls' else ls
  end.

(** [cache[key] = value]: [None] stands for [ValueError("value too
    large")].  Expired items are dropped first; room is made only for a
    key that is not present; the item becomes the most recently used
    one and expires at [time + ttl]. *)
Definition setitem (time : Q) (k : string) (v : Z) (c : t) : option t :=
  if 1 >? maxsize c then None
  else
    let ls := expire time (links c) in
    let ls :=
      match find k ls with
      | Some _ => ls
      | None => evict (maxsize c) ls
      end in
    Some (with_links c (remove k ls ++ [mkLink k v (time + ttl c)%Q])).

(** What a reader of the cache sees at [time]: [cache.get(key)]. *)
Definition lookup (time : Q) (k : string) (c : t) : option Z :=
  match find k (links c) with
  | None => None
  | Some l => if alive time l then Some (value l) else None
  end.

End TTLCache.

(** ** api/_schemas.py and api/_core.py *)

Definition _MAX_COMMENTS : Z := 25.

Definition _QUERY_LIMIT : Z := 25.
Definition _QUERY_BATCH_SIZE : Z := 5000.

Definition _CACHE_MAX_SIZE : Z := 1000.
Definition _CACHE_TTL : Q := 600%Q.

(** [len(l)] *)
Definition len {A} (l : list A) : Z := Z.of_nat (List.length l).

(** [l[:n]] for [n >= 0] *)
Definition slice_to {A} (n : Z) (l : list A) : list A := firstn (Z.to_nat n) l.

(** The filter of [_get_all_comments]:
<<
    (min_datetime is None or comment.created_at >= min_datetime)
    and (max_datetime is None or comment.created_at <= max_datetime)
>> *)
Definition in_time_range (min_datetime max_datetime : option Z) (comment : CommentInfo.t) : bool :=
  match min_datetime with
  | None => true
  | Some m => m <=? CommentInfo.created_at comment
  end
  &&
  match max_datetime with
  | None => true
  | Some m => CommentInfo.created_at comment <=? m
  end.

(** The body of the loop of [_get_all_comments] after the fetch:
<<
    comment_batch = [comment for comment in comment_batch if ...]
    comments.extend(comment_batch)
    comments.sort(key=lambda comment: comment.created_at, reverse=True)
    comments = comments[:_QUERY_LIMIT]
>> *)
Definition merge_batch (min_datetime max_datetime : option Z)
    (comments comment_batch : list CommentInfo.t) : list CommentInfo.t :=
  let comment_batch := filter (in_time_range min_datetime max_datetime) comment_batch in
  let comments := comments ++ comment_batch in
  let comments := sort_reverse CommentInfo.created_at Z.ltb comments in
  slice_to _QUERY_LIMIT comments.

Section Core.

Context {F : Type} {SF : Scalar F}.

(** [class CommentSentiment(BaseModel)] *)
Record CommentSentiment : Type := mkCommentSentiment {
  comment_id : Z;
  comment : string;
  cs_polarity : F;
  classification : string
}.

(** *** The collaborators and the world *)

(** What a collaborator answers to one awaited call: how long the call
    took (seconds on the cache's timer) and what it returned or raised. *)
Record Reply (A : Type) : Type := mkReply {
  elapsed : Q;
  outcome : result F A
}.

(** [FedditAPIClient], as far as [api/_core.py] calls it.  The content
    of the reply of [get_subfeddit_info] is not read there. *)
Record FedditAPIClient : Type := mkFedditAPIClient {
  get_subfeddits : Z -> Z -> Reply (list SubfedditInfo.t);
  get_subfeddit_info : Z -> Reply unit;
  get_subfeddit_comments : Z -> Z -> Z -> Reply (list CommentInfo.t)
}.

(** [SentimentAnalyzer.analyze_sentiment(statements, timeout)] *)
Record SentimentAnalyzer : Type := mkSentimentAnalyzer {
  analyze_sentiment : list string -> Z -> Reply (list (SentimentAnalysis F))
}.

(** One awaited call, with its arguments and its outcome. *)
Inductive Event : Type :=
| GetSubfeddits (skip limit : Z) (r : result F (list SubfedditInfo.t))
| GetSubfedditInfo (subfeddit_id : Z) (r : result F unit)
| GetSubfedditComments (subfeddit_id skip limit : Z) (r : result F (list CommentInfo.t))
| AnalyzeSentiment (statements : list string) (timeout : Z)
    (r : result F (list (SentimentAnalysis F))).

(** The state a request runs in: the reading of the timer, the
    process-wide [subfeddit_cache], and the calls awaited so far. *)
Record World : Type := mkWorld {
  clock : Q;
  subfeddit_cache : TTLCache.t;
  trace : list Event
}.

(** [subfeddit_cache = TTLCache(_CACHE_MAX_SIZE, _CACHE_TTL)] *)
Definition initial_world : World :=
  mkWorld 0 (TTLCache.new _CACHE_MAX_SIZE _CACHE_TTL) [].

(** A coroutine of [api/_core.py]: from a world to its outcome and the
    world it leaves, or [None] when a [while True] loop has not ended
    within the given number of rounds. *)
Definition M (A : Type) : Type := World -> option (result F A * World).

Definition ret {A} (a : A) : M A := fun w => Some (Ok a, w).

Definition raise {A} (e : exn F) : M A := fun w => Some (Err e, w).

Definition out_of_fuel {A} : M A := fun _ => None.

Definition bind {A B} (m : M A) (k : A -> M B) : M B :=
  fun w =>
    match m w with
    | None => None
    | Some (Ok a, w') => k a w'
    | Some (Err e, w') => Some (Err e, w')
    end.

(** [try: m  except NotFoundError: handler], with the [NotFoundError] of
    [feddit_client.errors]. *)
Definition except_NotFoundError {A} (m : M A) (handler : M A) : M A :=
  fun w =>
    match m w with
    | Some (Err (APIClientError NotFoundError), w') => handler w'
    | r => r
    end.

(** [await] of a collaborator's call: the timer advances, the call is
    recorded, its outcome is returned or raised. *)
Definition await {A} (event : result F A -> Event) (reply : Reply A) : M A :=
  fun w =>
    Some (outcome reply,
          mkWorld (clock w + elapsed reply)%Q (subfeddit_cache w)
                  (trace w ++ [event (outcome reply)])).

(** The operations of [subfeddit_cache], at the current reading of the
    timer. *)
Definition cache_contains (k : string) : M bool :=
  fun w => Some (Ok (TTLCache.contains (clock w) k (subfeddit_cache w)), w).

Definition cache_getitem (k : string) : M Z :=
  fun w =>
    let (v, c) := TTLCache.getitem (clock w) k (subfeddit_cache w) in
    Some (match v with Some z => Ok z | None => Err (KeyError k) end,
          mkWorld (clock w) c (trace w)).

Definition cache_delitem (k : string) : M unit :=
  fun w =>
    let (ok, c) := TTLCache.delitem (clock w) k (subfeddit_cache w) in
    Some (if ok then Ok tt else Err (KeyError k), mkWorld (clock w) c (trace w)).

Definition cache_setitem (k : string) (v : Z) : M unit :=
  fun w =>
    match TTLCache.setitem (clock w) k v (subfeddit_cache w) with
    | Some c => Some (Ok tt, mkWorld (clock w) c (trace w))
    | None => Some (Err (ValueError "value too large"), w)
    end.

Notation "x <- m ;; k" := (bind m (fun x => k))
  (at level 61, m at next level, right associativity).
Notation "m ;;; k" := (bind m (fun _ => k))
  (at level 61, right associativity).

(** *** [get_subfeddit_id] *)

(** The [for] loop over a batch:
<<
    for subfeddit in subfeddit_batch:
        subfeddit_cache[subfeddit.title] = subfeddit.id
        if subfeddit.title == subfeddit_title:
            return subfeddit.id
>>
    [Some id] is the early [return]. *)
Fixpoint scan_batch (subfeddit_title : string) (subfeddit_batch : list SubfedditInfo.t)
    : M (option Z) :=
  match subfeddit_batch with
  | [] => ret None
  | subfeddit :: rest =>
      cache_setitem (SubfedditInfo.title subfeddit) (SubfedditInfo.id subfeddit) ;;;
      if String.eqb (SubfedditInfo.title subfeddit) subfeddit_title then
        ret (Some (SubfedditInfo.id subfeddit))
      else scan_batch subfeddit_title rest
  end.

(** The full search, lines 52 to 73:
<<
    skip = 0
    while True:
        subfeddit_batch = await feddit_client.get_subfeddits(skip=skip, limit=_QUERY_BATCH_SIZE)
        for subfeddit in subfeddit_batch: ...
        if len(subfeddit_batch) < _QUERY_BATCH_SIZE:
            break
        skip += _QUERY_BATCH_SIZE
    raise HTTPException(
        status_code=404, detail=f"Subfeddit with title '{subfeddit_title}' not found"
    )
>> *)
Fixpoint search_subfeddits (fuel : nat) (subfeddit_title : string)
    (feddit_client : FedditAPIClient) (skip : Z) : M Z :=
  match fuel with
  | O => out_of_fuel
  | S fuel' =>
      subfeddit_batch <-
        await (GetSubfeddits skip _QUERY_BATCH_SIZE)
              (get_subfeddits feddit_client skip _QUERY_BATCH_SIZE) ;;
      found <- scan_batch subfeddit_title subfeddit_batch ;;
      match found with
      | Some id => ret id
      | None =>
          if len subfeddit_batch <? _QUERY_BATCH_SIZE then
            raise (HTTPException 404
                     ("Subfeddit with title '" ++ subfeddit_title ++ "' not found"))
          else
            search_subfeddits fuel' subfeddit_title feddit_client
                              (skip + _QUERY_BATCH_SIZE)
      end
  end.

(** The body of [if subfeddit_title in subfeddit_cache:], lines 37 to
    50; [Some cached_id] is its [return cached_id]:
<<
    cached_id = subfeddit_cache[subfeddit_title]
    try:
        await feddit_client.get_subfeddit_info(cached_id)
        return cached_id
    except NotFoundError:
        del subfeddit_cache[subfeddit_title]
>> *)
Definition revalidate_cached (subfeddit_title : string) (feddit_client : FedditAPIClient)
    : M (option Z) :=
  cached_id <- cache_getitem subfeddit_title ;;
  except_NotFoundError
    (await (GetSubfedditInfo cached_id) (get_subfeddit_info feddit_client cached_id) ;;;
     ret (Some cached_id))
    (cache_delitem subfeddit_title ;;; ret None).

(** [get_subfeddit_id]: a cached id is checked against the source
    first; the full search follows when there is none or it is stale. *)
Definition get_subfeddit_id (fuel : nat) (subfeddit_title : string)
    (feddit_client : FedditAPIClient) : M Z :=
  hit <- cache_contains subfeddit_title ;;
  cached <-
    (if hit : bool then revalidate_cached subfeddit_title feddit_client
     else ret None) ;;
  match cached with
  | Some cached_id => ret cached_id
  | None => search_subfeddits fuel subfeddit_title feddit_client 0
  end.

(** *** [_get_all_comments] *)

(** The [while True] loop of [_get_all_comments], from the state
    [(skip, comments)]:
<<
    comment_batch = await feddit_client.get_subfeddit_comments(
        subfeddit_id, skip=skip, limit=_QUERY_BATCH_SIZE)
    stop = len(comment_batch) < _QUERY_BATCH_SIZE
    ...                                  (merge_batch)
    if stop:
        break
    skip += _QUERY_BATCH_SIZE
>> *)
Fixpoint get_all_comments_from (fuel : nat) (subfeddit_id : Z)
    (min_datetime max_datetime : option Z) (feddit_client : FedditAPIClient)
    (skip : Z) (comments : list CommentInfo.t) : M (list CommentInfo.t) :=
  match fuel with
  | O => out_of_fuel
  | S fuel' =>
      comment_batch <-
        await (GetSubfedditComments subfeddit_id skip _QUERY_BATCH_SIZE)
              (get_subfeddit_comments feddit_client subfeddit_id skip _QUERY_BATCH_SIZE) ;;
      let stop := len comment_batch <? _QUERY_BATCH_SIZE in
      let comments := merge_batch min_datetime max_datetime comments comment_batch in
      if stop then ret comments
      else
        get_all_comments_from fuel' subfeddit_id min_datetime max_datetime feddit_client
                              (skip + _QUERY_BATCH_SIZE) comments
  end.

(** [_get_all_comments]: [skip = 0], [comments = []], then the loop. *)
Definition _get_all_comments (fuel : nat) (subfeddit_id : Z)
    (min_datetime max_datetime : option Z) (feddit_client : FedditAPIClient)
    : M (list CommentInfo.t) :=
  get_all_comments_from fuel subfeddit_id min_datetime max_datetime feddit_client 0 [].

(** *** [analyze_comments_sentiment] *)

(** The element of the list comprehension of [responses]. *)
Definition make_response (cs : CommentInfo.t * SentimentAnalysis F) : CommentSentiment :=
  mkCommentSentiment (CommentInfo.id (fst cs)) (CommentInfo.text (fst cs))
                     (polarity (snd cs)) (Sentiment_value (sentiment (snd cs))).

(** [analyze_comments_sentiment]:
<<
    comments = await _get_all_comments(subfeddit_id, min_datetime, max_datetime, feddit_client)
    if not comments:
        return []
    comments_sentiment = await sentiment_analyzer.analyze_sentiment(
        [comment.text for comment in comments], 60)
    responses = [
        CommentSentiment(...)
        for comment, sentiment in zip(comments, comments_sentiment, strict=False)
    ]
    if sort_by_polarity:
        responses.sort(key=lambda comment: comment.polarity, reverse=True)
    return responses
>> *)
Definition analyze_comments_sentiment (fuel : nat) (subfeddit_id : Z)
    (min_datetime max_datetime : option Z) (sort_by_polarity : bool)
    (feddit_client : FedditAPIClient) (sentiment_analyzer : SentimentAnalyzer)
    : M (list CommentSentiment) :=
  comments <- _get_all_comments fuel subfeddit_id min_datetime max_datetime feddit_client ;;
  match comments with
  | [] => ret []
  | _ :: _ =>
      let statements := map CommentInfo.text comments in
      comments_sentiment <-
        await (AnalyzeSentiment statements 60)
              (analyze_sentiment sentiment_analyzer statements 60) ;;
      let responses := map make_response (combine comments comments_sentiment) in
      let responses :=
        if sort_by_polarity then sort_reverse cs_polarity fltb responses else responses in
      ret responses
  end.

(** [CommentSentimentIDResponse.no_more_than_25_comments] (the
    validator of [CommentSentimentResponse] is the same):
<<
    if len(value) > _MAX_COMMENTS:
        raise ValueError("Number of comments cannot be more than 25.")
    return value
>> *)
Definition no_more_than_25_comments (value : list CommentSentiment)
    : result F (list CommentSentiment) :=
  if len value >? _MAX_COMMENTS then
    Err (ValueError "Number of comments cannot be more than 25.")
  else Ok value.

(** *** Reading a trace *)

(** The batches of comments the source returned, in order. *)
Definition comment_batches (events : list Event) : list (list CommentInfo.t) :=
  flat_map (fun e =>
              match e with
              | GetSubfedditComments _ _ _ (Ok batch) => [batch]
              | _ => []
              end) events.

(** The batches of subfeddits the source returned, in order. *)
Definition subfeddit_batches (events : list Event) : list (list SubfedditInfo.t) :=
  flat_map (fun e =>
              match e with
              | GetSubfeddits _ _ (Ok batch) => [batch]
              | _ => []
              end) events.

(** The calls to the sentiment scorer. *)
Definition scorer_calls (events : list Event) : list (list string) :=
  flat_map (fun e =>
              match e with
              | AnalyzeSentiment statements _ _ => [statements]
              | _ => []
              end) events.

End Core.

Arguments CommentSentiment F : clear implicits.
Arguments World F : clear implicits.
Arguments Event F : clear implicits.
Arguments FedditAPIClient F : clear implicits.
Arguments SentimentAnalyzer F : clear implicits.
Arguments Reply F A : clear implicits.
Arguments M F A : clear implicits.

(** [SentimentAnalyzer.analyze_sentiment] behind its HTTP endpoint:
    [_request_sentiment] posts the statements, [_handle_response] reads
    the reply, [_process_outputs] pairs statements and outputs. *)
Definition http_sentiment_analyzer {F} {SF : Scalar F}
    (post : list string -> Reply F (Response F)) : SentimentAnalyzer F :=
  mkSentimentAnalyzer
    (fun statements _ =>
       mkReply (elapsed (post statements))
               (let? response := outcome (post statements) in
                let? outputs := _handle_response response in
                _process_outputs (StrList statements) outputs)).

(** ** api/_schemas.py: requests and responses *)

(** [class CommentSentimentIDRequest(BaseModel)] and its model
    validator:
<<
    if (
        self.min_datetime is not None
        and self.max_datetime is not None
        and self.min_datetime > self.max_datetime
    ):
        raise ValueError("min_datetime cannot be greater than max_datetime.")
    return self
>> *)
Module CommentSentimentIDRequest.

Record t : Set := mk {
  subfeddit_id : Z;
  min_datetime : option Z;
  max_datetime : option Z;
  sort_by_polarity : bool
}.

Definition validate_min_max_datetime {F} (self : t) : result F t :=
  match min_datetime self, max_datetime self with
  | Some lo, Some hi =>
      if lo >? hi then Err (ValueError "min_datetime cannot be greater than max_datetime.")
      else Ok self
  | _, _ => Ok self
  end.

End CommentSentimentIDRequest.

(** [class CommentSentimentRequest(BaseModel)], with the same model
    validator. *)
Module CommentSentimentRequest.

Record t : Set := mk {
  subfeddit_title : string;
  min_datetime : option Z;
  max_datetime : option Z;
  sort_by_polarity : bool
}.

Definition validate_min_max_datetime {F} (self : t) : result F t :=
  match min_datetime self, max_datetime self with
  | Some lo, Some hi =>
      if lo >? hi then Err (ValueError "min_datetime cannot be greater than max_datetime.")
      else Ok self
  | _, _ => Ok self
  end.

End CommentSentimentRequest.

(** [class CommentSentimentIDResponse(BaseModel)].  [new] is the call
    [CommentSentimentIDResponse(subfeddit_id=..., comments=...)]:
    pydantic runs the field validator [no_more_than_25_comments] and
    reports its [ValueError] as a [ValidationError]. *)
Module CommentSentimentIDResponse.

Record t (F : Type) : Type := mk {
  subfeddit_id : Z;
  comments : list (CommentSentiment F)
}.

Definition new {F} {SF : Scalar F} (subfeddit_id : Z) (comments : list (CommentSentiment F))
    : result F (t F) :=
  match no_more_than_25_comments comments with
  | Ok value => Ok (mk subfeddit_id value)
  | Err _ => Err (ValidationError "CommentSentimentIDResponse")
  end.

End CommentSentimentIDResponse.

(** [class CommentSentimentResponse(BaseModel)]: the title and the
    comments.  The model has no field [subfeddit_id]; the keyword
    argument of that name which the endpoint passes is ignored. *)
Module CommentSentimentResponse.

Record t (F : Type) : Type := mk {
  subfeddit_title : string;
  comments : list (CommentSentiment F)
}.

Definition new {F} {SF : Scalar F} (subfeddit_id : Z) (subfeddit_title : string)
    (comments : list (CommentSentiment F)) : result F (t F) :=
  match no_more_than_25_comments comments with
  | Ok value => Ok (mk subfeddit_title value)
  | Err _ => Err (ValidationError "CommentSentimentResponse")
  end.

End CommentSentimentResponse.

(** ** api/_app.py: the two endpoints *)

(** A constructor call inside a coroutine. *)
Definition lift {F A} (r : result F A) : M F A := fun w => Some (r, w).

(** [get_classified_comments_from_id]:
<<
    sentiments = await core.analyze_comments_sentiment(
        request.subfeddit_id, request.min_datetime, request.max_datetime,
        request.sort_by_polarity, feddit_client, sentiment_analyzer)
    return CommentSentimentIDResponse(subfeddit_id=request.subfeddit_id, comments=sentiments)
>> *)
Definition get_classified_comments_from_id {F} {SF : Scalar F} (fuel : nat)
    (request : CommentSentimentIDRequest.t)
    (feddit_client : FedditAPIClient F) (sentiment_analyzer : SentimentAnalyzer F)
    : M F (CommentSentimentIDResponse.t F) :=
  bind (analyze_comments_sentiment fuel
          (CommentSentimentIDRequest.subfeddit_id request)
          (CommentSentimentIDRequest.min_datetime request)
          (CommentSentimentIDRequest.max_datetime request)
          (CommentSentimentIDRequest.sort_by_polarity request)
          feddit_client sentiment_analyzer)
       (fun sentiments =>
          lift (CommentSentimentIDResponse.new
                  (CommentSentimentIDRequest.subfeddit_id request) sentiments)).

(** [get_classified_comment_from_title]:
<<
    subfeddit_id = await core.get_subfeddit_id(request.subfeddit_title, feddit_client)
    sentiments = await core.analyze_comments_sentiment(
        subfeddit_id, request.min_datetime, request.max_datetime,
        request.sort_by_polarity, feddit_client, sentiment_analyzer)
    return CommentSentimentResponse(
        subfeddit_id=subfeddit_id, subfeddit_title=request.subfeddit_title,
        comments=sentiments)
>> *)
Definition get_classified_comment_from_title {F} {SF : Scalar F} (fuel : nat)
    (request : CommentSentimentRequest.t)
    (feddit_client : FedditAPIClient F) (sentiment_analyzer : SentimentAnalyzer F)
    : M F (CommentSentimentResponse.t F) :=
  bind (get_subfeddit_id fuel (CommentSentimentRequest.subfeddit_title request) feddit_client)
       (fun subfeddit_id =>
          bind (analyze_comments_sentiment fuel subfeddit_id
                  (CommentSentimentRequest.min_datetime request)
                  (CommentSentimentRequest.max_datetime request)
                  (CommentSentimentRequest.sort_by_polarity request)
                  feddit_client sentiment_analyzer)
               (fun sentiments =>
                  lift (CommentSentimentResponse.new subfeddit_id
                          (CommentSentimentRequest.subfeddit_title request) sentiments))).

(** ** Specification-level notions *)

(** The left-biased merge of two lists in descending key order: what
    sorting a concatenation amounts to. *)
Fixpoint merge_reverse {A} (key : A -> Z) (s : list A) : list A -> list A :=
  fix inner (t : list A) : list A :=
    match s, t with
    | [], _ => t
    | _, [] => s
    | x :: s', y :: t' =>
        if key x <? key y then y :: inner t' else x :: merge_reverse key s' t
    end.

(** Descending key order. *)
Inductive descending {A} (key : A -> Z) : list A -> Prop :=
| desc_nil : descending key []
| desc_cons x l :
    Forall (fun y => key y <= key x) l -> descending key l -> descending key (x :: l).

(** The [_QUERY_LIMIT] most recent comments of [all] within the time
    range, newest first, comments of one timestamp in their order in
    [all]. *)
Definition window (min_datetime max_datetime : option Z) (all : list CommentInfo.t)
    : list CommentInfo.t :=
  slice_to _QUERY_LIMIT
    (sort_reverse CommentInfo.created_at Z.ltb
       (filter (in_time_range min_datetime max_datetime) all)).

(** The comments within the time range among all the source returned
    during a run that left the events [events]. *)
Definition qualifying {F} (min_datetime max_datetime : option Z) (events : list (Event F))
    : list CommentInfo.t :=
  filter (in_time_range min_datetime max_datetime) (List.concat (comment_batches events)).

(** A source that holds the comments [all] and pages through them:
    [skip] comments are passed over and at most [limit] returned. *)
Definition paging_client {F} (all : list CommentInfo.t) (subfeddits : list SubfedditInfo.t)
    : FedditAPIClient F :=
  mkFedditAPIClient
    (fun skip limit => mkReply 0 (Ok (slice_to limit (skipn (Z.to_nat skip) subfeddits))))
    (fun _ => mkReply 0 (Ok tt))
    (fun _ skip limit => mkReply 0 (Ok (slice_to limit (skipn (Z.to_nat skip) all)))).

(** The ids of a list of comments. *)
Definition ids (l : list CommentInfo.t) : list Z := map CommentInfo.id l.

(** What a run returned, if it returned. *)
Definition returned {F A} (r : option (result F A * World F)) : option A :=
  match r with
  | Some (Ok a, _) => Some a
  | _ => None
  end.

(** ** Sources and scorers for concrete runs *)

(** A source that answers its successive calls (at [skip = 0],
    [_QUERY_BATCH_SIZE], ...) with the given batches, and with the empty
    batch after them. *)
Definition scripted_client {F} (comment_script : list (list CommentInfo.t))
    (subfeddit_script : list (list SubfedditInfo.t)) : FedditAPIClient F :=
  mkFedditAPIClient
    (fun skip _ => mkReply 0 (Ok (nth (Z.to_nat (skip / _QUERY_BATCH_SIZE)) subfeddit_script [])))
    (fun _ => mkReply 0 (Ok tt))
    (fun _ skip _ =>
       mkReply 0 (Ok (nth (Z.to_nat (skip / _QUERY_BATCH_SIZE)) comment_script []))).

(** A scorer that always answers with the given analyses. *)
Definition fixed_analyzer {F} (answer : list (SentimentAnalysis F)) : SentimentAnalyzer F :=
  mkSentimentAnalyzer (fun _ _ => mkReply 0 (Ok answer)).

Definition sample_comment (id created_at : Z) : CommentInfo.t :=
  CommentInfo.mk id "user" "text" created_at.

(** A full page: 5000 comments with ids 1 to 5000; comment 1 is the
    newest. *)
Definition full_page : list CommentInfo.t :=
  map (fun i => sample_comment (Z.of_nat i) (if Nat.eqb i 1 then 100 else 0)) (seq 1 5000).

(** Comment 1 comes back on the second page. *)
Definition repeating_source : FedditAPIClient float :=
  scripted_client [full_page; [sample_comment 1 100]] [].

(** The same 5001 comments, paged in two ways. *)
Definition paged_5000_1 : FedditAPIClient float :=
  scripted_client [full_page; [sample_comment 5001 50]] [].


(** Three comments on one short page. *)
Definition three_comments : FedditAPIClient float :=
  scripted_client [[sample_comment 1 100; sample_comment 2 300; sample_comment 3 200]] [].

(** A source with no comments. *)
Definition no_comments : FedditAPIClient float := scripted_client [] [].

(** A scorer that returns one analysis, whatever it is asked. *)
Definition one_analysis : SentimentAnalyzer float :=
  fixed_analyzer [mkSentimentAnalysis "text" 0.5%float POSITIVE].

Definition subfeddit_title_of (i : nat) : string :=
  NilEmpty.string_of_uint (Nat.to_uint i) ++ "th subfeddit".

Definition sample_subfeddit (i : nat) : SubfedditInfo.t :=
  SubfedditInfo.mk (Z.of_nat i) "user" (subfeddit_title_of i) "description".

(** A source with the 1001 subfeddits 1 to 1001, all on its first
    page. *)
Definition many_subfeddits : FedditAPIClient float :=
  scripted_client [] [map sample_subfeddit (seq 1 1001)].

(** A source with two subfeddits. *)
Definition two_subfeddits : FedditAPIClient float :=
  scripted_client [] [[sample_subfeddit 1; sample_subfeddit 2]].

(** The three comments of [three_comments], as returned and as sorted. *)
Definition three_page : list CommentInfo.t :=
  [sample_comment 1 100; sample_comment 2 300; sample_comment 3 200].

Definition three_sorted : list CommentInfo.t :=
  [sample_comment 2 300; sample_comment 3 200; sample_comment 1 100].

(** The 25 newest of the 5001 comments of [paged_5000_1]. *)
Definition newest_25 : list CommentInfo.t :=
  sample_comment 1 100 :: sample_comment 5001 50
  :: map (fun i => sample_comment (Z.of_nat i) 0) (seq 2 23).

(** What [repeating_source] leads to: comment 1 twice. *)
Definition newest_25_repeated : list CommentInfo.t :=
  sample_comment 1 100 :: sample_comment 1 100
  :: map (fun i => sample_comment (Z.of_nat i) 0) (seq 2 23).

(** The events of fetching the given batches of comments, one call
    after the other. *)
Fixpoint fetch_events (subfeddit_id skip : Z) (batches : list (list CommentInfo.t))
    : list (Event float) :=
  match batches with
  | [] => []
  | batch :: rest =>
      GetSubfedditComments subfeddit_id skip _QUERY_BATCH_SIZE (Ok batch)
      :: fetch_events subfeddit_id (skip + _QUERY_BATCH_SIZE) rest
  end.

(** The initial world after these fetches. *)
Definition world_after_fetching (subfeddit_id : Z) (batches : list (list CommentInfo.t))
    : World float :=
  mkWorld 0 (TTLCache.new _CACHE_MAX_SIZE _CACHE_TTL) (fetch_events subfeddit_id 0 batches).

(** The world after the scorer answered at once. *)
Definition world_after_scoring (w : World float) (statements : list string)
    (answer : list (SentimentAnalysis float)) : World float :=
  mkWorld (clock w) (subfeddit_cache w)
          (trace w ++ [AnalyzeSentiment statements 60 (Ok answer)]).

(** The response for comment 2 with the analysis of [one_analysis]. *)
Definition one_response : list (CommentSentiment float) :=
  [mkCommentSentiment 2 "text" 0.5%float "positive"].

(** An output of the scorer with polarity 0.25. *)
Definition mild_scores : list (SentimentScore float) :=
  [mkSentimentScore "positive" 0.5%float; mkSentimentScore "neutral" 0.25%float;
   mkSentimentScore "negative" 0.25%float].

(** The cache entry that storing [sample_subfeddit i] at time 0 makes. *)
Definition sample_link (i : nat) : TTLCache.link :=
  TTLCache.mkLink (subfeddit_title_of i) (Z.of_nat i) 600.

(** The initial world after one page of subfeddits was fetched and the
    search failed: the cache holds the entries of the subfeddits [first]
    to [first + count - 1]. *)
Definition world_after_search (first count : nat) (page : list SubfedditInfo.t)
    : World float :=
  mkWorld 0
          (TTLCache.mk _CACHE_MAX_SIZE _CACHE_TTL (map sample_link (seq first count)))
          [GetSubfeddits 0 _QUERY_BATCH_SIZE (Ok page)].

(** A scorer whose endpoint is down. *)
Definition failing_analyzer : SentimentAnalyzer float :=
  mkSentimentAnalyzer (fun _ _ => mkReply 0 (Err (ModelAPIError InternalServerError))).

(** A source that lists two subfeddits and knows none by id. *)
Definition forgetful_source : FedditAPIClient float :=
  mkFedditAPIClient
    (fun _ _ => mkReply 0 (Ok [sample_subfeddit 1; sample_subfeddit 2]))
    (fun _ => mkReply 0 (Err (APIClientError NotFoundError)))
    (fun _ _ _ => mkReply 0 (Ok [])).

(** A source with two subfeddits and three comments. *)
Definition small_source : FedditAPIClient float :=
  scripted_client [three_page] [[sample_subfeddit 1; sample_subfeddit 2]].

(** Outputs of the scorer with the polarities -0.5, 0.25 and 1. *)
Definition sour_scores : list (SentimentScore float) :=
  [mkSentimentScore "negative" 0.75%float; mkSentimentScore "neutral" 0%float;
   mkSentimentScore "positive" 0.25%float].

Definition sweet_scores : list (SentimentScore float) :=
  [mkSentimentScore "neutral" 0%float; mkSentimentScore "positive" 1%float;
   mkSentimentScore "negative" 0%float].

(** The endpoint of the scorer, answering every request with these three
    outputs. *)
Definition three_outputs (statements : list string) : Reply float (Response float) :=
  mkReply 0 (Ok (mkResponse 200 (Outputs [sour_scores; mild_scores; sweet_scores]))).

(** The responses for the three comments, in the order of the comments
    and sorted by polarity. *)
Definition three_responses : list (CommentSentiment float) :=
  [mkCommentSentiment 2 "text" (-0.5)%float "negative";
   mkCommentSentiment 3 "text" 0.25%float "positive";
   mkCommentSentiment 1 "text" 1%float "positive"].

Definition three_responses_sorted : list (CommentSentiment float) :=
  [mkCommentSentiment 1 "text" 1%float "positive";
   mkCommentSentiment 3 "text" 0.25%float "positive";
   mkCommentSentiment 2 "text" (-0.5)%float "negative"].

(** ** Notions the properties are stated with *)

(** The call raised an exception of the class [name]. *)
Definition fails_with {F A} (r : result F A) (name : string) : Prop :=
  exists e, r = Err e /\ exn_name e = name.

(** The three labels of the model. *)
Definition three_labels : list string := ["positive"; "neutral"; "negative"]%string.

(** The scorer's output for one statement with all three scores zero. *)
Definition zero_scores : list (SentimentScore float) :=
  [mkSentimentScore "positive" 0%float; mkSentimentScore "neutral" 0%float;
   mkSentimentScore "negative" 0%float].

(** The labels of the specification's scenario: neutral twice, negative
    missing. *)
Definition neutral_twice : list (SentimentScore float) :=
  [mkSentimentScore "positive" 0.5%float; mkSentimentScore "neutral" 0.5%float;
   mkSentimentScore "neutral" 0.5%float].

(** A positive score out of range, the three labels present. *)
Definition score_too_large : list (SentimentScore float) :=
  [mkSentimentScore "positive" 1.5%float; mkSentimentScore "neutral" 0.5%float;
   mkSentimentScore "negative" 0.5%float].

(** The world after an awaited call. *)
Definition after_await {F A} (event : result F A -> Event F) (reply : Reply F A)
    (w : World F) : World F :=
  mkWorld (clock w + elapsed reply)%Q (subfeddit_cache w)
          (trace w ++ [event (outcome reply)]).

(** The list [responses] of [analyze_comments_sentiment], from the
    comments and the scorer's answer. *)
Definition responses_of {F} {SF : Scalar F} (sort_by_polarity : bool)
    (comments : list CommentInfo.t) (comments_sentiment : list (SentimentAnalysis F))
    : list (CommentSentiment F) :=
  let responses := map make_response (combine comments comments_sentiment) in
  if sort_by_polarity then sort_reverse (@cs_polarity F) fltb responses else responses.

(** The subfeddits the source returned during a run that left the
    events [events]. *)
Definition fetched_subfeddits {F} (events : list (Event F)) : list SubfedditInfo.t :=
  List.concat (subfeddit_batches events).

(** The links of a cache after the subfeddits [done] were stored, no
    title twice, all before [deadline]: they are the last links, in the
    order stored, and none of them expires before [deadline]. *)
Definition stored (deadline : Q) (done : list SubfedditInfo.t) (ls : list TTLCache.link)
    : Prop :=
  exists older newer,
    ls = older ++ newer /\
    Forall (fun l => ~ In (TTLCache.key l) (map SubfedditInfo.title done)) older /\
    Forall2 (fun s l => TTLCache.key l = SubfedditInfo.title s /\
                        TTLCache.value l = SubfedditInfo.id s /\
                        (deadline <= TTLCache.expires l)%Q) done newer.

(** *** Reading the requests of a run *)

(** The requests for comments a run made: subfeddit id, [skip] and
    [limit] of each, in order. *)
Definition comment_requests {F} (events : list (Event F)) : list (Z * Z * Z) :=
  flat_map (fun e =>
              match e with
              | GetSubfedditComments subfeddit_id skip limit _ => [(subfeddit_id, skip, limit)]
              | _ => []
              end) events.

(** The pages a loop of [api/_core.py] asks for in [n] rounds: [skip] is
    0, [_QUERY_BATCH_SIZE], twice that, and so on. *)
Definition page_skips (n : nat) : list Z :=
  map (fun i => _QUERY_BATCH_SIZE * Z.of_nat i) (seq 0 n).

(** The requests for subfeddits a run made: [skip] and [limit] of each,
    in order. *)
Definition subfeddit_requests {F} (events : list (Event F)) : list (Z * Z) :=
  flat_map (fun e =>
              match e with
              | GetSubfeddits skip limit _ => [(skip, limit)]
              | _ => []
              end) events.

(** No item of the cache under the key [k] is alive at [time]. *)
Definition dead (time : Q) (k : string) (c : TTLCache.t) : Prop :=
  Forall (fun l => TTLCache.key l = k -> TTLCache.alive time l = false) (TTLCache.links c).

(** A [FedditAPIClient] raises the errors of its own module and
    [ValueError], never FastAPI's [HTTPException]. *)
Definition raises_no_HTTPException {F} (feddit_client : FedditAPIClient F) : Prop :=
  (forall skip limit code detail,
     outcome (get_subfeddits feddit_client skip limit) <> Err (HTTPException code detail)) /\
  (forall id code detail,
     outcome (get_subfeddit_info feddit_client id) <> Err (HTTPException code detail)).

(** The world after [get_subfeddit_id] has read the cached id of the
    title and awaited the source's answer to [get_subfeddit_info]. *)
Definition after_info_check {F} (subfeddit_title : string)
    (feddit_client : FedditAPIClient F) (id : Z) (w : World F) : World F :=
  after_await (GetSubfedditInfo id) (get_subfeddit_info feddit_client id)
    (mkWorld (clock w)
             (snd (TTLCache.getitem (clock w) subfeddit_title (subfeddit_cache w)))
             (trace w)).

(** The world after [del subfeddit_cache[subfeddit_title]]. *)
Definition after_delete {F} (subfeddit_title : string) (w1 : World F) : World F :=
  mkWorld (clock w1)
          (snd (TTLCache.delitem (clock w1) subfeddit_title (subfeddit_cache w1)))
          (trace w1).

(** ** Binary64 values as rationals

    The arithmetic of [PrimFloat] is specified by the functions of
    [SpecFloat] on [spec_float], at precision 53 and maximal exponent
    1024.  The notions below give a finite [spec_float] its rational
    value and describe what the rounding of [SpecFloat] works with. *)

Local Abbreviation fexp := (SpecFloat.fexp prec emax).
Local Abbreviation shr_fexp := (SpecFloat.shr_fexp prec emax).
Local Abbreviation binary_round_aux := (SpecFloat.binary_round_aux prec emax).
Local Abbreviation binary_round := (SpecFloat.binary_round prec emax).
Local Abbreviation binary_normalize := (SpecFloat.binary_normalize prec emax).
Local Abbreviation bounded := (SpecFloat.bounded prec emax).
Local Abbreviation valid_binary := (SpecFloat.valid_binary prec emax).
Local Abbreviation SFadd := (SpecFloat.SFadd prec emax).
Local Abbreviation SFsub := (SpecFloat.SFsub prec emax).
Local Abbreviation SFdiv := (SpecFloat.SFdiv prec emax).
Local Abbreviation SFdiv_core_binary := (SpecFloat.SFdiv_core_binary prec emax).

(** [2^e], for any integer [e]. *)
Definition pow2 (e : Z) : Q := Qpower 2 e.

(** The rational [m * 2^e]. *)
Definition val (m e : Z) : Q := (inject_Z m * pow2 e)%Q.

(** The magnitude, the sign bit and the value of a [spec_float]
    (0 for what is not finite). *)
Definition mag (x : spec_float) : Q :=
  match x with S754_finite _ m e => val (Z.pos m) e | _ => 0%Q end.

Definition sign_of (x : spec_float) : bool :=
  match x with
  | S754_zero s | S754_infinity s | S754_finite s _ _ => s
  | S754_nan => false
  end.

Definition sval (s : bool) (q : Q) : Q := if s then (- q)%Q else q.

Definition SFval (x : spec_float) : Q := sval (sign_of x) (mag x).

Definition is_finite (x : spec_float) : bool :=
  match x with S754_zero _ | S754_finite _ _ _ => true | _ => false end.

(** A valid finite value that is not negative: a zero of either sign or
    a positive number. *)
Definition nonneg (x : spec_float) : Prop :=
  valid_binary x = true /\ is_finite x = true /\ (0 <= SFval x)%Q.

(** A mantissa and exponent in the binary64 format: at most 53 bits,
    exponent at least -1074, and 53 bits exactly above the least
    exponent.  [canon] excludes the mantissa 0. *)
Definition semi_canon (m e : Z) : Prop :=
  0 <= m < 2 ^ 53 /\ -1074 <= e /\ (-1074 < e -> 2 ^ 52 <= m).

Definition canon (m e : Z) : Prop := 0 < m /\ semi_canon m e.

(** The last step of [binary_round_aux]: zero, a finite number, or an
    infinity when the exponent is beyond the format. *)
Definition finish (sx : bool) (m e : Z) : spec_float :=
  if m =? 0 then S754_zero sx
  else if e <=? 971 then S754_finite sx (Z.to_pos m) e else S754_infinity sx.

(** A shift record or a location carries discarded bits. *)
Definition inexact (x : shr_record) : bool := shr_r x || shr_s x.

Definition loc_inexact (l : location) : bool :=
  match l with loc_Exact => false | loc_Inexact _ => true end.

(** [y] is [x] shifted right by [k] bits: the mantissa is divided by
    [2^k], and [y] is inexact when [x] was or a bit 1 was shifted out. *)
Definition shifted (k : Z) (x y : shr_record) : Prop :=
  0 <= shr_m x ->
  shr_m y = shr_m x / 2 ^ k /\
  inexact y = inexact x || negb (shr_m x mod 2 ^ k =? 0).

(** [2^53] and [2^52] for [lia]. *)
Ltac zpow :=
  assert (2 ^ 53 = 2 * 2 ^ 52 /\ 0 < 2 ^ 52) as [? ?] by (split; reflexivity).

(** * Properties *)

(** ** The stable sort *)

Section SortTheory.

Variables (A : Type) (key : A -> Z).

Local Abbreviation ins := (insert_reverse key Z.ltb).
Local Abbreviation srt := (sort_reverse key Z.ltb).
Local Abbreviation mrg := (merge_reverse key).

Lemma merge_nil_l t : mrg [] t = t.
Proof. destruct t; reflexivity. Qed.

Lemma merge_nil_r s : mrg s [] = s.
Proof. destruct s; reflexivity. Qed.

Lemma merge_cons x s y t :
  mrg (x :: s) (y :: t) =
  if key x <? key y then y :: mrg (x :: s) t else x :: mrg s (y :: t).
Proof. reflexivity. Qed.

Lemma insert_cons x y l :
  ins x (y :: l) = if key x <? key y then y :: ins x l else x :: y :: l.
Proof. reflexivity. Qed.

(** Inserting into a merge is inserting into its left argument: the
    new element goes before every element whose key is not greater. *)
Lemma insert_merge x s t : ins x (mrg s t) = mrg (ins x s) t.
Proof.
  revert t. induction s as [|a s IHs]; intros t.
  - rewrite merge_nil_l. induction t as [|b t IHt]; [reflexivity|].
    change (ins x []) with [x] in *. rewrite insert_cons, merge_cons, merge_nil_l.
    destruct (key x <? key b); [now rewrite IHt | reflexivity].
  - induction t as [|b t IHt].
    + now rewrite !merge_nil_r.
    + rewrite merge_cons, (insert_cons x a).
      destruct (key a <? key b) eqn:Hab, (key x <? key a) eqn:Hxa;
        rewrite ?insert_cons, ?merge_cons, ?Hab, ?Hxa.
      * assert (Hxb : (key x <? key b) = true) by lia. rewrite Hxb.
        f_equal. rewrite IHt, insert_cons, Hxa. reflexivity.
      * destruct (key x <? key b) eqn:Hxb.
        -- f_equal. rewrite IHt, insert_cons, Hxa. reflexivity.
        -- reflexivity.
      * f_equal. apply IHs.
      * assert (Hxb : (key x <? key b) = false) by lia. rewrite Hxb. reflexivity.
Qed.

(** Sorting a concatenation merges the sorted parts. *)
Lemma sort_app l1 l2 : srt (l1 ++ l2) = mrg (srt l1) (srt l2).
Proof.
  induction l1 as [|x l1 IH]; simpl.
  - now rewrite merge_nil_l.
  - rewrite IH. apply insert_merge.
Qed.

Lemma insert_Forall (P : A -> Prop) x l : P x -> Forall P l -> Forall P (ins x l).
Proof.
  intros Hx Hl. induction Hl as [|y l Hy Hl IH]; simpl; [constructor; auto|].
  destruct (key x <? key y); constructor; auto.
Qed.

Lemma insert_descending x l : descending key l -> descending key (ins x l).
Proof.
  induction 1 as [|y l Hy Hl IH]; simpl.
  - constructor; constructor.
  - destruct (key x <? key y) eqn:E.
    + constructor; [|exact IH]. apply insert_Forall; [lia|exact Hy].
    + constructor; [|constructor; assumption].
      constructor; [lia|]. eapply Forall_impl; [|exact Hy]. simpl; intros; lia.
Qed.

(** The result is in descending key order, *)
Lemma sort_descending l : descending key (srt l).
Proof. induction l; simpl; [constructor | now apply insert_descending]. Qed.

Lemma insert_perm x l : Permutation (ins x l) (x :: l).
Proof.
  induction l as [|y l IH]; simpl; [reflexivity|].
  destruct (key x <? key y); [|reflexivity].
  rewrite IH. apply perm_swap.
Qed.

(** it is a rearrangement of the input, *)
Lemma sort_perm l : Permutation (srt l) l.
Proof.
  induction l as [|x l IH]; simpl; [reflexivity|].
  rewrite insert_perm. now constructor.
Qed.

Lemma insert_filter_key k x l :
  filter (fun y => key y =? k) (ins x l) = filter (fun y => key y =? k) (x :: l).
Proof.
  induction l as [|y l IH]; [reflexivity|].
  rewrite insert_cons. destruct (key x <? key y) eqn:E; [|reflexivity].
  simpl in *. rewrite IH.
  destruct (key y =? k) eqn:Ey, (key x =? k) eqn:Ex; try reflexivity. lia.
Qed.

(** and elements with equal keys keep their order (stability). *)
Lemma sort_stable k l :
  filter (fun y => key y =? k) (srt l) = filter (fun y => key y =? k) l.
Proof.
  induction l as [|x l IH]; [reflexivity|].
  simpl sort_reverse. rewrite insert_filter_key. simpl. now rewrite IH.
Qed.

(** A list already in descending order is left as it is. *)
Lemma sort_of_descending l : descending key l -> srt l = l.
Proof.
  induction 1 as [|x l Hx Hl IH]; [reflexivity|].
  simpl. rewrite IH. destruct l as [|y l]; [reflexivity|].
  rewrite insert_cons. inversion Hx; subst.
  assert (E : (key x <? key y) = false) by lia. now rewrite E.
Qed.

Lemma firstn_In n (x : A) l : In x (firstn n l) -> In x l.
Proof.
  revert n. induction l as [|y l IH]; intros [|n]; simpl; try tauto.
  intros [H|H]; [now left | right; eauto].
Qed.

Lemma firstn_descending n l : descending key l -> descending key (firstn n l).
Proof.
  intros H. revert n. induction H as [|x l Hx Hl IH]; intros [|n]; simpl; try constructor.
  - apply Forall_forall. intros y Hy. rewrite Forall_forall in Hx.
    apply Hx. eapply firstn_In, Hy.
  - apply IH.
Qed.

(** The first [n] elements of a merge depend only on the first [n]
    elements of its left argument. *)
Lemma firstn_merge n : forall m s t, (n <= m)%nat ->
  firstn n (mrg (firstn m s) t) = firstn n (mrg s t).
Proof.
  induction n as [|n IHn]; [reflexivity|].
  intros m s. revert m. induction s as [|x s IHs]; intros m t Hm.
  - now rewrite firstn_nil.
  - destruct m as [|m]; [lia|]. rewrite firstn_cons.
    induction t as [|y t IHt].
    + rewrite !merge_nil_r. simpl. f_equal.
      rewrite firstn_firstn. f_equal. lia.
    + rewrite !merge_cons. destruct (key x <? key y).
      * rewrite !firstn_cons. f_equal.
        rewrite <- (firstn_cons m x s).
        apply IHn. lia.
      * rewrite !firstn_cons. f_equal. apply IHn. lia.
Qed.

End SortTheory.

(** ** The bounded merge *)

Section Window.

Variables (min_datetime max_datetime : option Z).

Local Abbreviation mb := (merge_batch min_datetime max_datetime).
Local Abbreviation win := (window min_datetime max_datetime).

(** One round of the loop takes the window of what was seen to the
    window of what was seen and the new batch. *)
Lemma merge_batch_window all batch : mb (win all) batch = win (all ++ batch).
Proof.
  unfold merge_batch, window, slice_to.
  rewrite filter_app, !sort_app.
  rewrite (@sort_of_descending _ CommentInfo.created_at).
  - apply firstn_merge. lia.
  - apply firstn_descending, sort_descending.
Qed.

(** The rounds over a sequence of batches leave the window of their
    concatenation. *)
Lemma fold_merge_batch batches : forall all,
  fold_left mb batches (win all) = win (all ++ List.concat batches).
Proof.
  induction batches as [|b bs IH]; intros all; simpl.
  - now rewrite app_nil_r.
  - rewrite merge_batch_window, IH, app_assoc. reflexivity.
Qed.

Lemma window_nil : win [] = [].
Proof. reflexivity. Qed.

Lemma window_fold batches : fold_left mb batches [] = win (List.concat batches).
Proof. rewrite <- window_nil at 1. now rewrite fold_merge_batch. Qed.

Lemma window_len all :
  len (win all) = Z.min _QUERY_LIMIT (len (filter (in_time_range min_datetime max_datetime) all)).
Proof.
  unfold window, slice_to, len. rewrite length_firstn.
  rewrite (Permutation_length (sort_perm _ _)).
  unfold _QUERY_LIMIT. lia.
Qed.

(** The window is a rearrangement of a part of the comments in range. *)
Lemma window_incl all :
  exists rest,
    Permutation (win all ++ rest) (filter (in_time_range min_datetime max_datetime) all).
Proof.
  unfold window, slice_to.
  set (s := sort_reverse _ _ _).
  exists (skipn (Z.to_nat _QUERY_LIMIT) s).
  rewrite firstn_skipn. apply sort_perm.
Qed.

End Window.

(** The sort rearranges, whatever the keys and their order. *)
Lemma sort_reverse_perm {A K} (key : A -> K) (lt : K -> K -> bool) l :
  Permutation (sort_reverse key lt l) l.
Proof.
  induction l as [|x l IH]; simpl; [reflexivity|].
  transitivity (x :: sort_reverse key lt l); [|now constructor].
  clear IH. generalize (sort_reverse key lt l) as s. intros s.
  induction s as [|y s IH]; simpl; [reflexivity|].
  destruct (lt (key x) (key y)); [|reflexivity].
  rewrite IH. apply perm_swap.
Qed.

(** ** Runs of the coroutines *)

Section Runs.

Context {F : Type} {SF : Scalar F}.

Lemma bind_await {A B} (event : result F A -> Event F) (reply : Reply F A)
    (k : A -> M F B) w :
  bind (await event reply) k w =
  match outcome reply with
  | Ok a => k a (after_await event reply w)
  | Err e => Some (Err e, after_await event reply w)
  end.
Proof. unfold bind, await, after_await. destruct (outcome reply); reflexivity. Qed.

Lemma bind_run {A B} (m : M F A) (k : A -> M F B) w a w1 :
  m w = Some (Ok a, w1) -> bind m k w = k a w1.
Proof. unfold bind. now intros ->. Qed.

Lemma bind_inv {A B} (m : M F A) (k : A -> M F B) w r w' :
  bind m k w = Some (r, w') ->
  (exists a w1, m w = Some (Ok a, w1) /\ k a w1 = Some (r, w')) \/
  (exists e, m w = Some (Err e, w') /\ r = Err e).
Proof.
  unfold bind. destruct (m w) as [[[a|e] w1]|]; intros H; [left|right|discriminate].
  - eauto.
  - inversion H; subst. eauto.
Qed.

Variables (subfeddit_id : Z) (min_datetime max_datetime : option Z).
Variable feddit_client : FedditAPIClient F.

Local Abbreviation mb := (merge_batch min_datetime max_datetime).

(** A run of the loop awaits only the comment source, leaves the cache
    alone, and returns the rounds of [merge_batch] over the batches it
    received. *)
Lemma get_all_comments_from_run fuel : forall skip comments w r w',
  get_all_comments_from fuel subfeddit_id min_datetime max_datetime feddit_client
                        skip comments w = Some (r, w') ->
  exists events,
    trace w' = trace w ++ events /\
    subfeddit_cache w' = subfeddit_cache w /\
    scorer_calls events = [] /\
    forall cs, r = Ok cs -> cs = fold_left mb (comment_batches events) comments.
Proof.
  induction fuel as [|fuel IH]; intros skip comments w r w' Hrun; [discriminate|].
  cbn [get_all_comments_from] in Hrun. rewrite bind_await in Hrun.
  destruct (outcome (get_subfeddit_comments feddit_client subfeddit_id skip _QUERY_BATCH_SIZE))
    as [batch|e] eqn:Hreply.
  - destruct (len batch <? _QUERY_BATCH_SIZE).
    + inversion Hrun; subst; clear Hrun. unfold after_await; cbn [trace subfeddit_cache].
      eexists. split; [reflexivity|]. split; [reflexivity|]. split; [reflexivity|].
      intros cs [= <-]. cbn. rewrite Hreply. reflexivity.
    + apply IH in Hrun. destruct Hrun as (events & Htr & Hc & Hs & Hcs).
      unfold after_await in Htr, Hc; cbn [trace subfeddit_cache] in Htr, Hc.
      exists (GetSubfedditComments subfeddit_id skip _QUERY_BATCH_SIZE
                (outcome (get_subfeddit_comments feddit_client subfeddit_id skip
                            _QUERY_BATCH_SIZE)) :: events).
      rewrite Htr, <- app_assoc. split; [reflexivity|]. split; [exact Hc|].
      split; [exact Hs|].
      intros cs Hr. cbn. rewrite Hreply. cbn. apply Hcs, Hr.
  - inversion Hrun; subst; clear Hrun. unfold after_await; cbn [trace subfeddit_cache].
    eexists. split; [reflexivity|]. split; [reflexivity|]. split; [reflexivity|].
    intros cs [=].
Qed.

(** The loop ends with the first page that is short or fails: when that
    is the page number [k] from [skip] on, [k + 1] rounds are run,
    whatever fuel is left beyond them. *)
Lemma get_all_comments_from_ends k : forall fuel skip comments w,
  (k < fuel)%nat ->
  (forall i, (i < k)%nat ->
     exists batch,
       outcome (get_subfeddit_comments feddit_client subfeddit_id
                  (skip + _QUERY_BATCH_SIZE * Z.of_nat i) _QUERY_BATCH_SIZE) = Ok batch /\
       (len batch <? _QUERY_BATCH_SIZE) = false) ->
  (forall batch,
     outcome (get_subfeddit_comments feddit_client subfeddit_id
                (skip + _QUERY_BATCH_SIZE * Z.of_nat k) _QUERY_BATCH_SIZE) = Ok batch ->
     (len batch <? _QUERY_BATCH_SIZE) = true) ->
  exists r w',
    get_all_comments_from fuel subfeddit_id min_datetime max_datetime feddit_client
                          skip comments w = Some (r, w') /\
    get_all_comments_from (S k) subfeddit_id min_datetime max_datetime feddit_client
                          skip comments w = Some (r, w').
Proof.
  induction k as [|k IH]; intros fuel skip comments w Hfuel Hfull Hlast;
    (destruct fuel as [|fuel]; [lia|]).
  - cbn [get_all_comments_from]. rewrite !bind_await.
    replace (skip + _QUERY_BATCH_SIZE * Z.of_nat 0) with skip in Hlast by lia.
    destruct (outcome (get_subfeddit_comments feddit_client subfeddit_id skip
                         _QUERY_BATCH_SIZE)) as [batch|e].
    + rewrite (Hlast batch eq_refl). eexists _, _. split; reflexivity.
    + eexists _, _. split; reflexivity.
  - cbn [get_all_comments_from]. rewrite !bind_await.
    destruct (Hfull 0%nat ltac:(lia)) as (batch & Hb & Hlen).
    replace (skip + _QUERY_BATCH_SIZE * Z.of_nat 0) with skip in Hb by lia.
    rewrite Hb, Hlen. apply IH; [lia| |].
    + intros i Hi. destruct (Hfull (S i) ltac:(lia)) as (b & Hb' & Hl).
      exists b. split; [|exact Hl]. rewrite <- Hb'. do 2 f_equal. lia.
    + intros b Hb'. apply Hlast. rewrite <- Hb'. do 2 f_equal. lia.
Qed.

(** What [_get_all_comments] returns is the window of everything the
    source returned. *)
Lemma get_all_comments_run fuel w r w' :
  _get_all_comments fuel subfeddit_id min_datetime max_datetime feddit_client w = Some (r, w') ->
  exists events,
    trace w' = trace w ++ events /\
    subfeddit_cache w' = subfeddit_cache w /\
    scorer_calls events = [] /\
    forall cs, r = Ok cs ->
      cs = window min_datetime max_datetime (List.concat (comment_batches events)).
Proof.
  intros Hrun. apply get_all_comments_from_run in Hrun.
  destruct Hrun as (events & Ht & Hc & Hs & Hcs).
  exists events. repeat (split; [assumption|]).
  intros cs Hr. rewrite (Hcs cs Hr). apply window_fold.
Qed.

Lemma window_empty all :
  filter (in_time_range min_datetime max_datetime) all = [] ->
  window min_datetime max_datetime all = [].
Proof. unfold window. intros ->. reflexivity. Qed.

Variables (sort_by_polarity : bool) (sentiment_analyzer : SentimentAnalyzer F).

Lemma responses_of_len cs sentiments :
  len (responses_of sort_by_polarity cs sentiments) = Z.min (len cs) (len sentiments).
Proof.
  unfold responses_of, len.
  assert (H : List.length (map (@make_response F) (combine cs sentiments))
              = Nat.min (List.length cs) (List.length sentiments))
    by now rewrite length_map, length_combine.
  destruct sort_by_polarity.
  - rewrite (Permutation_length (sort_reverse_perm _ _ _)), H. lia.
  - rewrite H. lia.
Qed.

(** The run of the orchestrator when there are comments and the scorer
    answers. *)
Lemma analyze_run_scored fuel w cs w1 sentiments :
  _get_all_comments fuel subfeddit_id min_datetime max_datetime feddit_client w
    = Some (Ok cs, w1) ->
  cs <> [] ->
  outcome (analyze_sentiment sentiment_analyzer (map CommentInfo.text cs) 60) = Ok sentiments ->
  analyze_comments_sentiment fuel subfeddit_id min_datetime max_datetime sort_by_polarity
                             feddit_client sentiment_analyzer w
  = Some (Ok (responses_of sort_by_polarity cs sentiments),
          after_await (AnalyzeSentiment (map CommentInfo.text cs) 60)
                      (analyze_sentiment sentiment_analyzer (map CommentInfo.text cs) 60) w1).
Proof.
  intros Hrun Hne Hreply. unfold analyze_comments_sentiment.
  erewrite bind_run by exact Hrun.
  destruct cs as [|c cs]; [contradiction|].
  rewrite bind_await, Hreply. reflexivity.
Qed.

(** The runs of the orchestrator that return. *)
Lemma analyze_run_inv fuel w rs w' :
  analyze_comments_sentiment fuel subfeddit_id min_datetime max_datetime sort_by_polarity
                             feddit_client sentiment_analyzer w = Some (Ok rs, w') ->
  exists cs w1,
    _get_all_comments fuel subfeddit_id min_datetime max_datetime feddit_client w
      = Some (Ok cs, w1) /\
    (cs = [] /\ rs = [] \/
     exists sentiments,
       outcome (analyze_sentiment sentiment_analyzer (map CommentInfo.text cs) 60)
         = Ok sentiments /\
       rs = responses_of sort_by_polarity cs sentiments).
Proof.
  intros Hrun. unfold analyze_comments_sentiment in Hrun.
  apply bind_inv in Hrun. destruct Hrun as [(cs & w1 & Hget & Hk)|(e & _ & [=])].
  exists cs, w1. split; [exact Hget|].
  destruct cs as [|c cs].
  - left. inversion Hk. auto.
  - right. rewrite bind_await in Hk.
    destruct (outcome _) as [sentiments|e] eqn:Hreply; [|discriminate].
    exists sentiments. split; [reflexivity|]. inversion Hk. reflexivity.
Qed.

Lemma rmap_length {A B} (f : A -> result F B) l : forall l',
  rmap f l = Ok l' -> List.length l' = List.length l.
Proof.
  induction l as [|a l IH]; intros l' H; simpl in H.
  - now inversion H.
  - destruct (f a) as [b|e]; [|discriminate]. simpl in H.
    destruct (rmap f l) as [bs|e]; [|discriminate]. simpl in H.
    inversion H; subst. simpl. f_equal. now apply IH.
Qed.

(** [_process_outputs] pairs up to the shorter of its arguments. *)
Lemma process_outputs_len statements outputs (analyses : list (SentimentAnalysis F)) :
  _process_outputs (StrList statements) outputs = Ok analyses ->
  len analyses = Z.min (len statements) (len outputs).
Proof.
  unfold _process_outputs, len. intros H. apply rmap_length in H.
  rewrite H, length_combine. lia.
Qed.

(** C1, as amended.  The merge does not deduplicate: what
    [_get_all_comments] returns is the window of all the comments the
    source returned, repeated ones included.  It holds each id at most
    once when no id occurs twice among the comments in range that the
    source returned. *)
Theorem window_ids_distinct fuel w cs w' :
  _get_all_comments fuel subfeddit_id min_datetime max_datetime feddit_client w
    = Some (Ok cs, w') ->
  exists events,
    trace w' = trace w ++ events /\
    cs = window min_datetime max_datetime (List.concat (comment_batches events)) /\
    (NoDup (ids (qualifying min_datetime max_datetime events)) -> NoDup (ids cs)).
Proof.
  intros Hrun.
  destruct (get_all_comments_run _ _ Hrun) as (events & Ht & _ & _ & Hcs).
  exists events. split; [exact Ht|]. split; [exact (Hcs cs eq_refl)|].
  intros Hnd. rewrite (Hcs cs eq_refl).
  destruct (window_incl min_datetime max_datetime (List.concat (comment_batches events)))
    as (rest & Hperm).
  apply (Permutation_map CommentInfo.id) in Hperm. rewrite map_app in Hperm.
  apply Permutation_sym in Hperm.
  eapply NoDup_app_remove_r, Permutation_NoDup; [exact Hperm|exact Hnd].
Qed.

(** C2, as amended.  When the scorer answers with a list of another
    length than the list of comments, [analyze_comments_sentiment] does
    not fail: it returns the positional pairs up to the shorter of the
    two lists (in that order unless sorted by polarity), and so does
    [_process_outputs] with statements and outputs. *)
Theorem zip_truncates_silently fuel w cs w1 sentiments :
  _get_all_comments fuel subfeddit_id min_datetime max_datetime feddit_client w
    = Some (Ok cs, w1) ->
  cs <> [] ->
  outcome (analyze_sentiment sentiment_analyzer (map CommentInfo.text cs) 60) = Ok sentiments ->
  (exists rs w',
     analyze_comments_sentiment fuel subfeddit_id min_datetime max_datetime sort_by_polarity
                                feddit_client sentiment_analyzer w = Some (Ok rs, w') /\
     len rs = Z.min (len cs) (len sentiments) /\
     Permutation rs (map make_response (combine cs sentiments)) /\
     (sort_by_polarity = false -> rs = map make_response (combine cs sentiments)))
  /\
  (forall statements outputs (analyses : list (SentimentAnalysis F)),
     _process_outputs (StrList statements) outputs = Ok analyses ->
     len analyses = Z.min (len statements) (len outputs)).
Proof.
  intros Hrun Hne Hreply. split; [|apply process_outputs_len].
  eexists; eexists.
  split; [eapply analyze_run_scored; eassumption|].
  split; [apply responses_of_len|].
  unfold responses_of. destruct sort_by_polarity.
  - split; [apply sort_reverse_perm|discriminate].
  - split; reflexivity.
Qed.


(** C9.  When the source returned no comment in range,
    [analyze_comments_sentiment] returns the empty list, in the world
    the fetching left: no error, and no call to the scorer. *)
Theorem no_comments_no_scoring fuel w cs w1 events :
  _get_all_comments fuel subfeddit_id min_datetime max_datetime feddit_client w
    = Some (Ok cs, w1) ->
  trace w1 = trace w ++ events ->
  qualifying min_datetime max_datetime events = [] ->
  analyze_comments_sentiment fuel subfeddit_id min_datetime max_datetime sort_by_polarity
                             feddit_client sentiment_analyzer w = Some (Ok [], w1)
  /\ scorer_calls events = [].
Proof.
  intros Hrun Htrace Hq.
  destruct (get_all_comments_run _ _ Hrun) as (events' & Ht & _ & Hs & Hcs).
  rewrite Ht in Htrace. apply app_inv_head in Htrace. subst events'.
  split; [|exact Hs].
  unfold analyze_comments_sentiment. erewrite bind_run by exact Hrun.
  rewrite (Hcs cs eq_refl), window_empty; [reflexivity|exact Hq].
Qed.

End Runs.


(** ** Termination on a paging source *)

Section Paging.

Context {F : Type} {SF : Scalar F}.
Variables (subfeddit_id : Z) (min_datetime max_datetime : option Z).
Variables (all : list CommentInfo.t) (subfeddits : list SubfedditInfo.t).

Local Abbreviation win := (window min_datetime max_datetime).

Lemma firstn_plus {A} (l : list A) a b :
  firstn (a + b) l = firstn a l ++ firstn b (skipn a l).
Proof.
  revert l. induction a as [|a IH]; intros [|x l]; simpl; try reflexivity.
  - now rewrite firstn_nil.
  - now rewrite IH.
Qed.

(** With [seen] comments behind it and their window in hand, the loop
    ends within the rounds the rest of the comments needs. *)
Lemma get_all_comments_from_paging fuel : forall seen (w : World F),
  (seen <= List.length all < seen + fuel * Z.to_nat _QUERY_BATCH_SIZE)%nat ->
  exists w',
    get_all_comments_from fuel subfeddit_id min_datetime max_datetime
      (paging_client all subfeddits) (Z.of_nat seen) (win (firstn seen all)) w
    = Some (Ok (win all), w').
Proof.
  induction fuel as [|fuel IH]; intros seen w Hlen; [lia|].
  cbn [get_all_comments_from]. unfold bind, await.
  cbn [paging_client get_subfeddit_comments outcome].
  rewrite Nat2Z.id.
  set (B := Z.to_nat _QUERY_BATCH_SIZE) in *.
  assert (HB : Z.of_nat B = _QUERY_BATCH_SIZE) by (subst B; unfold _QUERY_BATCH_SIZE; lia).
  change (slice_to _QUERY_BATCH_SIZE (skipn seen all)) with (firstn B (skipn seen all)).
  rewrite !merge_batch_window, <- !firstn_plus.
  set (batch := firstn B (skipn seen all)).
  assert (Hbatch : List.length batch = Nat.min B (List.length all - seen))
    by (subst batch; now rewrite length_firstn, length_skipn).
  unfold len. destruct (Z.of_nat (List.length batch) <? _QUERY_BATCH_SIZE) eqn:Hstop.
  - rewrite firstn_all2 by lia. eexists. reflexivity.
  - replace (Z.of_nat seen + _QUERY_BATCH_SIZE) with (Z.of_nat (seen + B)) by lia.
    apply IH. lia.
Qed.

(** X5.  On a source that pages through the comments [all],
    [_get_all_comments] returns after one round more than [all] has
    full pages, and it returns the window of [all]. *)
Theorem get_all_comments_returns_window (w : World F) :
  exists w',
    _get_all_comments (S (Z.to_nat (len all / _QUERY_BATCH_SIZE))) subfeddit_id
                      min_datetime max_datetime (paging_client all subfeddits) w
    = Some (Ok (win all), w').
Proof.
  unfold _get_all_comments.
  change (@nil CommentInfo.t) with (win (firstn 0 all)).
  apply (get_all_comments_from_paging _ (seen := 0)).
  unfold len, _QUERY_BATCH_SIZE. split; [lia|].
  assert (H := Z.div_mod (Z.of_nat (List.length all)) 5000 ltac:(lia)).
  assert (H' := Z.mod_pos_bound (Z.of_nat (List.length all)) 5000 ltac:(lia)).
  assert (0 <= Z.of_nat (List.length all) / 5000) by (apply Z.div_pos; lia).
  nia.
Qed.

End Paging.

(** ** Concrete runs of the bounded merge and of the orchestrator *)

(** C1, counterexample.  [repeating_source] returns a full page of 5000
    comments and then, on the second page, comment 1 of the first page
    again.  [_get_all_comments] returns a list in which id 1 stands
    twice. *)
Lemma repeated_comment_survives :
  _get_all_comments 2 7 None None repeating_source initial_world
  = Some (Ok newest_25_repeated,
          world_after_fetching 7 [full_page; [sample_comment 1 100]]) /\
  In (sample_comment 1 100) full_page /\
  ~ NoDup (ids newest_25_repeated).
Proof.
  split; [vm_compute; reflexivity|]. split.
  - unfold full_page. apply in_map_iff. exists 1%nat. split; [reflexivity|].
    apply in_seq. lia.
  - intros H. inversion H as [|x l Hx _]. apply Hx. left. reflexivity.
Qed.

(** C1, witness: three comments with three ids on one page. *)
Lemma window_ids_distinct_witness :
  _get_all_comments 1 7 None None three_comments initial_world
  = Some (Ok three_sorted, world_after_fetching 7 [three_page]) /\
  NoDup (ids three_sorted).
Proof.
  assert (Hrun : _get_all_comments 1 7 None None three_comments initial_world
                 = Some (Ok three_sorted, world_after_fetching 7 [three_page]))
    by reflexivity.
  split; [exact Hrun|].
  destruct (@window_ids_distinct float 7 None None three_comments 1 initial_world _ _ Hrun)
    as (events & Ht & _ & Hnd).
  apply Hnd.
  apply (app_inv_head (trace (initial_world (F:=float)))) in Ht. subst events.
  vm_compute. repeat constructor; simpl; intuition discriminate.
Defined.


(** C2, counterexample.  Three comments survive and the scorer returns
    one analysis: [analyze_comments_sentiment] returns one response, for
    the newest comment, and raises nothing.  [_process_outputs] does the
    same with two statements and one output. *)
Lemma scorer_answer_too_short :
  _get_all_comments 1 7 None None three_comments initial_world
  = Some (Ok three_sorted, world_after_fetching 7 [three_page]) /\
  outcome (analyze_sentiment one_analysis (map CommentInfo.text three_sorted) 60)
  = Ok [mkSentimentAnalysis "text" 0.5%float POSITIVE] /\
  analyze_comments_sentiment 1 7 None None false three_comments one_analysis initial_world
  = Some (Ok one_response,
          world_after_scoring (world_after_fetching 7 [three_page])
                              ["text"; "text"; "text"]%string
                              [mkSentimentAnalysis "text" 0.5%float POSITIVE]) /\
  _process_outputs (StrList ["a"; "b"]%string) [mild_scores]
  = Ok [mkSentimentAnalysis "a" 0.25%float POSITIVE].
Proof. repeat split. Qed.

(** C2, witness: the same run. *)
Lemma zip_truncates_silently_witness :
  (_get_all_comments 1 7 None None three_comments initial_world
   = Some (Ok three_sorted, world_after_fetching 7 [three_page]) /\
   three_sorted <> [] /\
   outcome (analyze_sentiment one_analysis (map CommentInfo.text three_sorted) 60)
   = Ok [mkSentimentAnalysis "text" 0.5%float POSITIVE]) /\
  exists rs w',
    analyze_comments_sentiment 1 7 None None false three_comments one_analysis initial_world
    = Some (Ok rs, w') /\
    len rs = Z.min (len three_sorted) 1.
Proof.
  assert (Hrun : _get_all_comments 1 7 None None three_comments initial_world
                 = Some (Ok three_sorted, world_after_fetching 7 [three_page]))
    by reflexivity.
  assert (Hne : three_sorted <> []) by discriminate.
  assert (Hreply : outcome (analyze_sentiment one_analysis
                              (map CommentInfo.text three_sorted) 60)
                   = Ok [mkSentimentAnalysis "text" 0.5%float POSITIVE])
    by reflexivity.
  split; [repeat split; assumption|].
  destruct (@zip_truncates_silently float _ 7 None None three_comments false one_analysis
              1 initial_world _ _ _ Hrun Hne Hreply)
    as ((rs & w' & Hrs & Hlen & _) & _).
  exists rs, w'. split; [exact Hrs|exact Hlen].
Defined.


(** C9, witness: the three comments are all older than [min_datetime]. *)
Lemma no_comments_no_scoring_witness :
  (_get_all_comments 1 7 (Some 1000) None three_comments initial_world
   = Some (Ok [], world_after_fetching 7 [three_page]) /\
   trace (world_after_fetching 7 [three_page])
   = trace (initial_world (F:=float)) ++ fetch_events 7 0 [three_page] /\
   qualifying (Some 1000) None (fetch_events 7 0 [three_page]) = []) /\
  analyze_comments_sentiment 1 7 (Some 1000) None true three_comments one_analysis
                             initial_world
  = Some (Ok [], world_after_fetching 7 [three_page]) /\
  scorer_calls (fetch_events 7 0 [three_page]) = [].
Proof.
  assert (Hrun : _get_all_comments 1 7 (Some 1000) None three_comments initial_world
                 = Some (Ok [], world_after_fetching 7 [three_page]))
    by reflexivity.
  assert (Ht : trace (world_after_fetching 7 [three_page])
               = trace (initial_world (F:=float)) ++ fetch_events 7 0 [three_page])
    by reflexivity.
  assert (Hq : qualifying (Some 1000) None (fetch_events 7 0 [three_page]) = [])
    by reflexivity.
  split; [repeat split; assumption|].
  exact (@no_comments_no_scoring float _ 7 (Some 1000) None three_comments true one_analysis
           1 initial_world _ _ _ Hrun Ht Hq).
Defined.

(** ** The polarity engine *)

(** C8.  On a float between -1 and 1, [Sentiment.from_polarity] returns
    [POSITIVE] exactly when the float is at least 0 (so for 0 itself) and
    [NEGATIVE] otherwise; on any other float it raises
    [InvalidPolarityError] with that float, and nothing else. *)
Theorem from_polarity_classifies (x : float) :
  let in_range := ((-1 <=? x) && (x <=? 1))%float in
  (from_polarity x = Ok POSITIVE <-> in_range = true /\ (0 <=? x)%float = true) /\
  (from_polarity x = Ok NEGATIVE <-> in_range = true /\ (0 <=? x)%float = false) /\
  (forall e, from_polarity x = Err e <-> in_range = false /\ e = InvalidPolarityError x) /\
  from_polarity 0%float = Ok POSITIVE.
Proof.
  unfold from_polarity, between, _POL_TH. cbn [fleb fopp fone fzero Scalar_float].
  change (- (1))%float with (-1)%float.
  destruct ((-1 <=? x)%float && (x <=? 1)%float); cbn [negb];
    destruct (0 <=? x)%float; cbn zeta;
    repeat split; try congruence; try tauto;
    try (intros [? ?]; congruence); try (intros [= <-]; reflexivity).
Qed.

(** C3, counterexample.  With the three scores zero [_compute_polarity]
    raises Python's [ZeroDivisionError]; no [DegenerateScoreError] is
    raised. *)
Lemma zero_scores_divide_by_zero :
  _compute_polarity 0%float 0%float 0%float = Err ZeroDivisionError /\
  ~ fails_with (_compute_polarity 0%float 0%float 0%float) "DegenerateScoreError".
Proof.
  split; [reflexivity|]. intros (e & He & Hname).
  change (_compute_polarity 0%float 0%float 0%float)
    with (@Err float float ZeroDivisionError) in He.
  inversion He; subst. discriminate.
Qed.

(** C3, as amended.  With the three scores zero the polarity
    computation raises [ZeroDivisionError], and the exception leaves
    [_analyze_output] and [_process_outputs] as it is. *)
Theorem zero_scores_raise_ZeroDivisionError :
  _compute_polarity 0%float 0%float 0%float = Err ZeroDivisionError /\
  (forall statement, _analyze_output statement zero_scores = Err ZeroDivisionError) /\
  (forall statement statements outputs,
     _process_outputs (StrList (statement :: statements)) (zero_scores :: outputs)
     = Err ZeroDivisionError).
Proof. repeat split. Qed.

(** C7, counterexample.  In binary64, [1 + 2^-60] rounds to [1]: with
    the valid scores [p = 1], [n = 2^-60], [g = 0] the computed polarity
    is exactly 1 although [n] is not 0, and with [p] and [g] exchanged
    it is exactly -1. *)
Lemma neutral_score_lost_to_rounding :
  let p := 1%float in
  let n := 0x1p-60%float in
  let g := 0%float in
  between 0%float p 1%float = true /\
  between 0%float n 1%float = true /\
  between 0%float g 1%float = true /\
  (0 <? p + n + g)%float = true /\
  _compute_polarity p n g = Ok 1%float /\
  (n =? 0)%float = false /\
  _compute_polarity g n p = Ok (-1)%float.
Proof. repeat split. Qed.

(** ** Binary64 rounding

    What [SpecFloat]'s round-to-nearest does to sums, differences and
    quotients: the rounded result never passes a representable bound of
    the exact one. *)

Unset Implicit Arguments.

(** *** Powers of two and mantissa sizes *)

(** Powers of two: positive, additive in the exponent, monotone. *)
Lemma pow2_pos e : (0 < pow2 e)%Q.
Proof. apply Qpower_0_lt. reflexivity. Qed.

Lemma pow2_add a b : (pow2 (a + b) == pow2 a * pow2 b)%Q.
Proof. apply Qpower_plus. discriminate. Qed.

Lemma pow2_le a b : a <= b -> (pow2 a <= pow2 b)%Q.
Proof. intros H. apply Qpower_le_compat_l; [exact H|discriminate]. Qed.

Lemma pow2_Z n : 0 <= n -> (pow2 n == inject_Z (2 ^ n))%Q.
Proof. intros H. unfold pow2. rewrite Zpower_Qpower by exact H. reflexivity. Qed.

(** Moving a factor [2^n] between mantissa and exponent; [val] at one
    exponent is ordered like the mantissas. *)
Lemma val_shift m n e : 0 <= n -> (val (m * 2 ^ n) e == val m (e + n))%Q.
Proof.
  intros H. unfold val. rewrite inject_Z_mult, pow2_add, (pow2_Z n H). ring.
Qed.

Lemma val_le m1 m2 e : (val m1 e <= val m2 e)%Q <-> m1 <= m2.
Proof.
  unfold val. pose proof (pow2_pos e) as Hp. split; intros H.
  - apply Qmult_le_r in H; [|exact Hp]. rewrite <- Zle_Qle in H. exact H.
  - apply Qmult_le_r; [exact Hp|]. rewrite <- Zle_Qle. exact H.
Qed.

Lemma val_lt m1 m2 e : (val m1 e < val m2 e)%Q <-> m1 < m2.
Proof.
  unfold val. pose proof (pow2_pos e) as Hp. split; intros H.
  - apply Qmult_lt_r in H; [|exact Hp]. rewrite <- Zlt_Qlt in H. exact H.
  - apply Qmult_lt_r; [exact Hp|]. rewrite <- Zlt_Qlt. exact H.
Qed.

Lemma val_pow2 n e : 0 <= n -> (val (2 ^ n) e == pow2 (n + e))%Q.
Proof. intros H. unfold val. rewrite pow2_add, (pow2_Z n H). reflexivity. Qed.

(** [digits2_pos] counts the bits of the mantissa. *)
Lemma digits2_pos_size p : digits2_pos p = Pos.size p.
Proof. induction p; simpl; congruence. Qed.

Lemma digits2_bounds p :
  2 ^ (Z.pos (digits2_pos p) - 1) <= Z.pos p < 2 ^ Z.pos (digits2_pos p).
Proof.
  rewrite digits2_pos_size. split.
  - pose proof (Pos.size_le p) as H.
    assert (H' : 2 ^ Z.pos (Pos.size p) <= 2 * Z.pos p).
    { rewrite <- Pos2Z.inj_pow. change (2 * Z.pos p) with (Z.pos p~0). exact H. }
    replace (Z.pos (Pos.size p)) with (Z.succ (Z.pos (Pos.size p) - 1)) in H' by lia.
    rewrite Z.pow_succ_r in H' by lia. lia.
  - pose proof (Pos.size_gt p) as H. rewrite <- Pos2Z.inj_pow. exact H.
Qed.

Lemma Zdigits2_bounds m : 0 < m -> 2 ^ (Zdigits2 m - 1) <= m < 2 ^ Zdigits2 m.
Proof. destruct m; try lia. intros _. apply digits2_bounds. Qed.

(** The number of bits is determined by the powers of two around [m]. *)
Lemma Zdigits2_unique m d : 0 < d -> 2 ^ (d - 1) <= m < 2 ^ d -> Zdigits2 m = d.
Proof.
  intros Hd [H1 H2].
  assert (Hm : 0 < m) by (pose proof (Z.pow_pos_nonneg 2 (d - 1)); lia).
  pose proof (Zdigits2_bounds m Hm) as [H3 H4].
  assert (0 < Zdigits2 m) by (destruct m; simpl; lia).
  destruct (Z.lt_trichotomy (Zdigits2 m) d) as [Hlt|[Heq|Hgt]]; [|exact Heq|].
  - assert (2 ^ Zdigits2 m <= 2 ^ (d - 1)) by (apply Z.pow_le_mono_r; lia). lia.
  - assert (2 ^ d <= 2 ^ (Zdigits2 m - 1)) by (apply Z.pow_le_mono_r; lia). lia.
Qed.

(** *** Right shifts of the mantissa *)

(** [shr_1] shifts by one bit. *)
Lemma shr_1_shifted x : shifted 1 x (shr_1 x).
Proof.
  destruct x as [m r s]. unfold shifted, inexact. cbn [shr_m shr_r shr_s].
  intros Hm. change (2 ^ 1) with 2.
  destruct m as [|[p|p|]|p]; try lia; cbn [shr_1 shr_m shr_r shr_s].
  - split; [reflexivity|]. cbn. destruct r, s; reflexivity.
  - rewrite Pos2Z.inj_xI. split.
    + apply Z.div_unique with (r := 1); lia.
    + replace ((2 * Z.pos p + 1) mod 2) with 1
        by (apply Z.mod_unique with (q := Z.pos p); lia).
      cbn. destruct r, s; reflexivity.
  - rewrite Pos2Z.inj_xO. split.
    + apply Z.div_unique with (r := 0); lia.
    + replace ((2 * Z.pos p) mod 2) with 0
        by (apply Z.mod_unique with (q := Z.pos p); lia).
      cbn. destruct r, s; reflexivity.
  - split; [reflexivity|]. cbn. destruct r, s; reflexivity.
Qed.

(** Shifts compose. *)
Lemma shifted_trans a b x y z :
  0 < a -> 0 < b -> shifted a x y -> shifted b y z -> shifted (a + b) x z.
Proof.
  intros Ha Hb Hxy Hyz Hx. destruct (Hxy Hx) as [Hm Hi].
  assert (Hpa : 0 < 2 ^ a) by (apply Z.pow_pos_nonneg; lia).
  assert (Hpb : 0 < 2 ^ b) by (apply Z.pow_pos_nonneg; lia).
  assert (Hy : 0 <= shr_m y) by (rewrite Hm; apply Z.div_pos; lia).
  destruct (Hyz Hy) as [Hm' Hi']. rewrite Z.pow_add_r by lia. split.
  - rewrite Hm', Hm. apply Z.div_div; lia.
  - rewrite Hi', Hi, Hm, <- orb_assoc. f_equal.
    rewrite Z.rem_mul_r by lia.
    pose proof (Z.mod_pos_bound (shr_m x) (2 ^ a) Hpa).
    pose proof (Z.mod_pos_bound (shr_m x / 2 ^ a) (2 ^ b) Hpb).
    destruct (Z.eqb_spec (shr_m x mod 2 ^ a) 0) as [E1|E1];
    destruct (Z.eqb_spec ((shr_m x / 2 ^ a) mod 2 ^ b) 0) as [E2|E2];
    destruct (Z.eqb_spec (shr_m x mod 2 ^ a + 2 ^ a * ((shr_m x / 2 ^ a) mod 2 ^ b)) 0)
      as [E3|E3]; try reflexivity; exfalso; nia.
Qed.

(** [iter_pos shr_1 p] shifts by [p] bits. *)
Lemma iter_pos_shifted p : forall x, shifted (Z.pos p) x (iter_pos shr_1 p x).
Proof.
  induction p as [p IH|p IH|]; intros x; cbn [iter_pos].
  - replace (Z.pos p~1) with (1 + (Z.pos p + Z.pos p)) by lia.
    apply shifted_trans with (y := shr_1 x); [lia|lia|apply shr_1_shifted|].
    apply shifted_trans with (y := iter_pos shr_1 p (shr_1 x)); try lia; apply IH.
  - replace (Z.pos p~0) with (Z.pos p + Z.pos p) by lia.
    apply shifted_trans with (y := iter_pos shr_1 p x); try lia; apply IH.
  - apply shr_1_shifted.
Qed.

Lemma inexact_of_loc m l : inexact (shr_record_of_loc m l) = loc_inexact l.
Proof. destruct l as [|[]]; reflexivity. Qed.

Lemma loc_of_shr_record_inexact x : loc_inexact (loc_of_shr_record x) = inexact x.
Proof. destruct x as [m [] []]; reflexivity. Qed.

Lemma shr_m_of_loc m l : shr_m (shr_record_of_loc m l) = m.
Proof. destruct l as [|[]]; reflexivity. Qed.

Lemma fexp_eq e : fexp e = Z.max (e - 53) (-1074).
Proof. reflexivity. Qed.

(** [shr_fexp] shifts by the number of bits the mantissa has beyond the
    format, if any. *)
Lemma shr_fexp_spec m e l :
  0 <= m ->
  let n := Z.max 0 (fexp (Zdigits2 m + e) - e) in
  snd (shr_fexp m e l) = e + n /\
  shr_m (fst (shr_fexp m e l)) = m / 2 ^ n /\
  inexact (fst (shr_fexp m e l)) = loc_inexact l || negb (m mod 2 ^ n =? 0).
Proof.
  intros Hm n. unfold SpecFloat.shr_fexp, shr. subst n.
  destruct (fexp (Zdigits2 m + e) - e) as [|p|p] eqn:E; cbn [fst snd].
  - change (Z.max 0 0) with 0. rewrite Z.add_0_r, shr_m_of_loc, inexact_of_loc.
    change (2 ^ 0) with 1. rewrite Z.div_1_r, Z.mod_1_r. cbn. rewrite orb_false_r. auto.
  - replace (Z.max 0 (Z.pos p)) with (Z.pos p) by lia.
    destruct (iter_pos_shifted p (shr_record_of_loc m l)) as [H1 H2].
    { rewrite shr_m_of_loc. exact Hm. }
    rewrite shr_m_of_loc in H1, H2. rewrite inexact_of_loc in H2. auto.
  - replace (Z.max 0 (Z.neg p)) with 0 by lia.
    rewrite Z.add_0_r, shr_m_of_loc, inexact_of_loc.
    change (2 ^ 0) with 1. rewrite Z.div_1_r, Z.mod_1_r. cbn. rewrite orb_false_r. auto.
Qed.

(** Rounding to nearest keeps the mantissa or adds one, the latter only
    when bits were discarded. *)
Lemma round_nearest_even_cases m l :
  round_nearest_even m l = m \/
  (round_nearest_even m l = m + 1 /\ loc_inexact l = true).
Proof.
  destruct l as [|[]]; cbn; auto. destruct (Z.even m); auto.
Qed.

(** *** The result of [binary_round_aux] *)

(** [bounded], the validity of a finite [spec_float], is [canon] with an
    exponent of at most 971. *)
Lemma bounded_canon m e : bounded m e = true -> canon (Z.pos m) e /\ e <= 971.
Proof.
  unfold SpecFloat.bounded, canonical_mantissa. rewrite andb_true_iff, Z.eqb_eq, Z.leb_le.
  rewrite fexp_eq. change (emax - prec) with 971. intros [Hc He].
  pose proof (digits2_bounds m) as [H1 H2].
  set (d := Z.pos (digits2_pos m)) in *.
  assert (Hd : d <= 53) by lia.
  assert (H53 : 2 ^ d <= 2 ^ 53) by (apply Z.pow_le_mono_r; lia).
  split; [|exact He]. split; [lia|]. split; [lia|]. split; [lia|].
  intros Hlt. replace (d - 1) with 52 in H1 by lia. exact H1.
Qed.

Lemma canon_bounded m e : canon m e -> e <= 971 -> bounded (Z.to_pos m) e = true.
Proof.
  intros (Hm & [Hm0 Hm1] & He & Hn) Hle.
  unfold SpecFloat.bounded, canonical_mantissa. rewrite andb_true_iff, Z.eqb_eq, Z.leb_le.
  rewrite fexp_eq. change (emax - prec) with 971. split; [|exact Hle].
  destruct m as [|p|p]; try lia. cbn [Z.to_pos].
  pose proof (digits2_bounds p) as [H1 H2].
  set (d := Z.pos (digits2_pos p)) in *.
  assert (Hd : d <= 53).
  { destruct (Z.le_gt_cases d 53) as [H|H]; [exact H|].
    assert (2 ^ 53 <= 2 ^ (d - 1)) by (apply Z.pow_le_mono_r; lia). lia. }
  destruct (Z.eq_dec e (-1074)) as [->|Hne]; [lia|].
  assert (2 ^ 52 <= Z.pos p) by (apply Hn; lia).
  assert (Hd' : 53 <= d).
  { destruct (Z.le_gt_cases 53 d) as [H'|H']; [exact H'|].
    assert (2 ^ d <= 2 ^ 52) by (apply Z.pow_le_mono_r; lia). lia. }
  lia.
Qed.

(** No canonical value lies strictly between two neighbours of the grid. *)
Lemma grid m e mv ev :
  semi_canon m e -> canon mv ev ->
  ~ ((val m e < val mv ev)%Q /\ (val mv ev < val (m + 1) e)%Q).
Proof.
  intros ([Hm0 Hm1] & He & Hn) (Hv0 & [_ Hv1] & Hev & Hvn) [Hlo Hhi].
  destruct (Z.le_gt_cases e ev) as [Hle|Hgt].
  - assert (E : (val mv ev == val (mv * 2 ^ (ev - e)) e)%Q).
    { rewrite val_shift by lia. replace (e + (ev - e)) with ev by lia. reflexivity. }
    rewrite E in Hlo, Hhi. apply val_lt in Hlo, Hhi. lia.
  - assert (H52 : 2 ^ 52 <= m) by (apply Hn; lia).
    assert (H1 : (val mv ev < val (2 ^ 53) ev)%Q) by (apply val_lt; lia).
    assert (H2 : (val (2 ^ 52) e <= val m e)%Q) by (apply val_le; lia).
    rewrite val_pow2 in H1, H2 by lia.
    assert (H3 : (pow2 (53 + ev) <= pow2 (52 + e))%Q) by (apply pow2_le; lia).
    lra.
Qed.

(** Of two canonical values the one with the smaller exponent is the
    smaller. *)
Lemma canon_lt_exp m1 e1 m2 e2 :
  canon m1 e1 -> canon m2 e2 -> e1 < e2 -> (val m1 e1 < val m2 e2)%Q.
Proof.
  intros (H0 & [_ H1] & He1 & _) (_ & _ & _ & Hn) Hlt.
  assert (H52 : 2 ^ 52 <= m2) by (apply Hn; lia).
  assert (A : (val m1 e1 < val (2 ^ 53) e1)%Q) by (apply val_lt; lia).
  assert (B : (val (2 ^ 52) e2 <= val m2 e2)%Q) by (apply val_le; lia).
  rewrite val_pow2 in A, B by lia.
  assert (C : (pow2 (53 + e1) <= pow2 (52 + e2))%Q) by (apply pow2_le; lia).
  lra.
Qed.

(** The quotient by [2^n] truncates. *)
Lemma div_pow2_bounds m n :
  0 <= m -> 0 <= n ->
  (m / 2 ^ n) * 2 ^ n <= m < (m / 2 ^ n + 1) * 2 ^ n /\
  (m mod 2 ^ n <> 0 -> (m / 2 ^ n) * 2 ^ n < m).
Proof.
  intros Hm Hn. assert (Hp : 0 < 2 ^ n) by (apply Z.pow_pos_nonneg; lia).
  pose proof (Z.div_mod m (2 ^ n)) as E.
  pose proof (Z.mod_pos_bound m (2 ^ n) Hp). nia.
Qed.

(** [binary_round_aux] on a mantissa that has at least the bits of the
    format: the result is the truncation [m' * 2^e'] of the exact value to
    the format, or the next value [(m' + 1) * 2^e'], the latter only
    when the exact value is above the truncation. *)
Lemma round_aux_result sx mx ex lx :
  0 <= mx -> ex <= fexp (Zdigits2 mx + ex) ->
  exists m' e' m3 e3,
    (val m' e' <= val mx ex)%Q /\ (val mx ex < val (m' + 1) e')%Q /\
    semi_canon m' e' /\
    ((val m3 e3 == val m' e')%Q \/
     ((val m3 e3 == val (m' + 1) e')%Q /\
      (loc_inexact lx = true \/ (val m' e' < val mx ex)%Q))) /\
    semi_canon m3 e3 /\
    binary_round_aux sx mx ex lx = finish sx m3 e3.
Proof.
  intros Hmx Hex.
  set (e' := fexp (Zdigits2 mx + ex)) in *.
  set (n := e' - ex). assert (Hn : 0 <= n) by lia.
  set (m' := mx / 2 ^ n).
  assert (Hp : 0 < 2 ^ n) by (apply Z.pow_pos_nonneg; lia).
  assert (Hm'0 : 0 <= m') by (apply Z.div_pos; lia).
  destruct (div_pow2_bounds mx n Hmx Hn) as [[Hlo Hhi] Hstrict]. fold m' in Hlo, Hhi, Hstrict.
  assert (Hsc : semi_canon m' e').
  { unfold semi_canon.
    assert (Ee : e' = Z.max (Zdigits2 mx + ex - 53) (-1074)) by reflexivity.
    assert (En : n = e' - ex) by reflexivity.
    clearbody n e'. zpow.
    destruct (Z.eq_dec mx 0) as [E0|E0].
    - assert (m' = 0) by (unfold m'; rewrite E0; apply Z.div_0_l; lia).
      subst mx. cbn [Zdigits2] in *. zpow. lia.
    - pose proof (Zdigits2_bounds mx ltac:(lia)) as [D1 D2].
      set (d := Zdigits2 mx) in *.
      assert (Hd : 0 < d) by (unfold d; destruct mx; simpl; lia).
      split; [split; [lia|]|split; [lia|]].
      + destruct (Z.le_gt_cases n d) as [Hnd|Hnd].
        * assert (E : 2 ^ d = 2 ^ (d - n) * 2 ^ n) by (rewrite <- Z.pow_add_r by lia; f_equal; lia).
          assert (2 ^ (d - n) <= 2 ^ 53) by (apply Z.pow_le_mono_r; lia).
          nia.
        * assert (2 ^ d <= 2 ^ n) by (apply Z.pow_le_mono_r; lia).
          assert (m' = 0) by (apply Z.div_small; lia). lia.
      + intros Hgt. assert (En' : n = d - 53) by lia.
        assert (E : 2 ^ (d - 1) = 2 ^ 52 * 2 ^ n) by (rewrite <- Z.pow_add_r by lia; f_equal; lia).
        nia. }
  assert (Eval : forall k, (val k e' == val (k * 2 ^ n) ex)%Q).
  { intros k. rewrite val_shift by lia. replace (ex + n) with e' by lia. reflexivity. }
  exists m', e'.
  unfold SpecFloat.binary_round_aux.
  pose proof (shr_fexp_spec mx ex lx Hmx) as S1. cbv zeta in S1.
  replace (Z.max 0 (fexp (Zdigits2 mx + ex) - ex)) with n in S1 by (unfold n, e'; lia).
  destruct (shr_fexp mx ex lx) as [mrs1 e1]. cbn [fst snd] in S1.
  destruct S1 as (-> & Hm1 & Hi1). replace (ex + n) with e' by lia.
  fold m' in Hm1. rewrite Hm1.
  set (m2 := round_nearest_even m' (loc_of_shr_record mrs1)).
  assert (Hm2 : m2 = m' \/ (m2 = m' + 1 /\ (loc_inexact lx = true \/ (val m' e' < val mx ex)%Q))).
  { destruct (round_nearest_even_cases m' (loc_of_shr_record mrs1)) as [H|[H Hl]];
      [left; exact H|right; split; [exact H|]].
    rewrite loc_of_shr_record_inexact, Hi1, orb_true_iff in Hl.
    destruct Hl as [Hl|Hl]; [left; exact Hl|right].
    rewrite Eval. apply val_lt. apply Hstrict.
    destruct (Z.eqb_spec (mx mod 2 ^ n) 0); [discriminate|assumption]. }
  assert (Hm2b : 0 <= m2 <= 2 ^ 53).
  { destruct Hsc as [? _]. destruct Hm2 as [->|[-> _]]; lia. }
  assert (He' : -1074 <= e') by (destruct Hsc as (_ & ? & _); assumption).
  pose proof (shr_fexp_spec m2 e' loc_Exact ltac:(lia)) as S2. cbv zeta in S2.
  destruct (shr_fexp m2 e' loc_Exact) as [mrs2 e2]. cbn [fst snd] in S2.
  destruct S2 as (-> & Hm3 & _).
  set (n2 := Z.max 0 (fexp (Zdigits2 m2 + e') - e')) in *.
  assert (Hcases : (n2 = 0 /\ m2 < 2 ^ 53) \/ (n2 = 1 /\ m2 = 2 ^ 53)).
  { unfold n2. rewrite fexp_eq.
    destruct (Z.eq_dec m2 0) as [->|Hnz]; [cbn [Zdigits2]; lia|].
    destruct (Z.eq_dec m2 (2 ^ 53)) as [->|Hne].
    - right. change (Zdigits2 (2 ^ 53)) with 54. lia.
    - left. pose proof (Zdigits2_bounds m2 ltac:(lia)) as [D1 D2].
      assert (Zdigits2 m2 <= 53).
      { destruct (Z.le_gt_cases (Zdigits2 m2) 53) as [H|H]; [exact H|].
        assert (2 ^ 53 <= 2 ^ (Zdigits2 m2 - 1)) by (apply Z.pow_le_mono_r; lia). lia. }
      lia. }
  exists (shr_m mrs2), (e' + n2).
  split; [rewrite Eval; apply val_le; lia|].
  split; [rewrite Eval; apply val_lt; lia|].
  split; [exact Hsc|].
  assert (Hv3 : (val (shr_m mrs2) (e' + n2) == val m2 e')%Q).
  { rewrite Hm3. destruct Hcases as [[-> _]|[-> ->]].
    - change (2 ^ 0) with 1. rewrite Z.div_1_r, Z.add_0_r. reflexivity.
    - rewrite <- val_shift by lia. change (2 ^ 53 / 2 ^ 1 * 2 ^ 1) with (2 ^ 53). reflexivity. }
  split.
  { destruct Hm2 as [E|[E Hi]]; [left|right; split; [|exact Hi]];
      rewrite Hv3, E; reflexivity. }
  split.
  { destruct Hsc as ([_ Hlt] & _ & Hnorm). unfold semi_canon. rewrite Hm3.
    destruct Hcases as [[-> Hlt2]|[-> ->]].
    - change (2 ^ 0) with 1. rewrite Z.div_1_r, Z.add_0_r.
      split; [lia|]. split; [lia|]. intros Hgt. specialize (Hnorm Hgt).
      destruct Hm2 as [->|[-> _]]; lia.
    - change (2 ^ 53 / 2 ^ 1) with (2 ^ 52). lia. }
  unfold finish. change (emax - prec) with 971.
  assert (0 <= shr_m mrs2) by (rewrite Hm3; apply Z.div_pos; [lia|apply Z.pow_pos_nonneg; lia]).
  destruct (shr_m mrs2) as [|p|p]; try lia; reflexivity.
Qed.

(** *** The order of finite values, and the bounds rounding respects *)

Lemma val_pos m e : 0 < m -> (0 < val m e)%Q.
Proof.
  intros H. unfold val. apply Qmult_lt_0_compat; [|apply pow2_pos].
  change 0%Q with (inject_Z 0). rewrite <- Zlt_Qlt. exact H.
Qed.

Lemma val_nonneg m e : 0 <= m -> (0 <= val m e)%Q.
Proof.
  intros H. unfold val. apply Qmult_le_0_compat; [|apply Qlt_le_weak, pow2_pos].
  change 0%Q with (inject_Z 0). rewrite <- Zle_Qle. exact H.
Qed.

Lemma mag_nonneg x : (0 <= mag x)%Q.
Proof. destruct x; cbn; try lra. apply val_nonneg. lia. Qed.

Lemma Qcompare_lt a b : (a < b)%Q -> (a ?= b)%Q = Lt.
Proof. apply Qlt_alt. Qed.

Lemma Qcompare_gt a b : (b < a)%Q -> (a ?= b)%Q = Gt.
Proof. apply Qgt_alt. Qed.

Lemma Qcompare_eq a b : (a == b)%Q -> (a ?= b)%Q = Eq.
Proof. apply Qeq_alt. Qed.

Lemma canon_compare m1 e1 m2 e2 :
  canon m1 e1 -> canon m2 e2 ->
  (val m1 e1 ?= val m2 e2)%Q =
  match e1 ?= e2 with Lt => Lt | Gt => Gt | Eq => m1 ?= m2 end.
Proof.
  intros C1 C2. destruct (Z.compare_spec e1 e2) as [->|Hlt|Hgt].
  - destruct (Z.compare_spec m1 m2) as [->|H|H].
    + apply Qeq_alt. reflexivity.
    + apply Qlt_alt, val_lt. exact H.
    + apply Qgt_alt, val_lt. exact H.
  - apply Qlt_alt, canon_lt_exp; assumption.
  - apply Qgt_alt, canon_lt_exp; assumption.
Qed.

Lemma Qcompare_opp a b : (- a ?= - b)%Q = CompOpp (a ?= b)%Q.
Proof.
  destruct (a ?= b)%Q eqn:E; unfold CompOpp.
  - apply Qeq_alt in E. apply Qeq_alt. rewrite E. reflexivity.
  - apply Qlt_alt in E. apply Qgt_alt, Qopp_lt_compat. exact E.
  - apply Qgt_alt in E. apply Qlt_alt, Qopp_lt_compat. exact E.
Qed.

(** On valid finite values [SFcompare] is the order of the rationals. *)
Lemma SFcompare_val x y :
  valid_binary x = true -> valid_binary y = true ->
  is_finite x = true -> is_finite y = true ->
  SFcompare x y = Some (SFval x ?= SFval y)%Q.
Proof.
  intros Vx Vy Fx Fy.
  destruct x as [sx| | |sx mx ex]; try discriminate;
  destruct y as [sy| | |sy my ey]; try discriminate; cbn [SFcompare]; f_equal;
  unfold SFval; cbn [sign_of mag valid_binary] in *.
  - destruct sx, sy; reflexivity.
  - apply bounded_canon in Vy. destruct Vy as [[Hp _] _].
    pose proof (val_pos _ ey Hp).
    destruct sx, sy; cbn [sval]; symmetry;
      first [apply Qcompare_lt; lra | apply Qcompare_gt; lra].
  - apply bounded_canon in Vx. destruct Vx as [[Hp _] _].
    pose proof (val_pos _ ex Hp).
    destruct sx, sy; cbn [sval]; symmetry;
      first [apply Qcompare_lt; lra | apply Qcompare_gt; lra].
  - apply bounded_canon in Vx, Vy. destruct Vx as [Cx _], Vy as [Cy _].
    pose proof (val_pos _ ex (proj1 Cx)). pose proof (val_pos _ ey (proj1 Cy)).
    rewrite Pos.compare_cont_spec.
    replace (Pos.switch_Eq Eq (mx ?= my)%positive) with (mx ?= my)%positive
      by (destruct (mx ?= my)%positive; reflexivity).
    change (mx ?= my)%positive with (Z.pos mx ?= Z.pos my).
    destruct sx, sy; cbn [sval].
    + rewrite Qcompare_opp, (canon_compare _ _ _ _ Cx Cy).
      destruct (ex ?= ey); reflexivity.
    + symmetry. apply Qcompare_lt. lra.
    + symmetry. apply Qcompare_gt. lra.
    + rewrite (canon_compare _ _ _ _ Cx Cy). destruct (ex ?= ey); reflexivity.
Qed.

Lemma SFleb_val x y :
  valid_binary x = true -> valid_binary y = true ->
  is_finite x = true -> is_finite y = true ->
  SFleb x y = true <-> (SFval x <= SFval y)%Q.
Proof.
  intros Vx Vy Fx Fy. unfold SFleb. rewrite (SFcompare_val x y Vx Vy Fx Fy).
  destruct (SFval x ?= SFval y)%Q eqn:E.
  - apply Qeq_alt in E. split; [lra|reflexivity].
  - apply Qlt_alt in E. split; [lra|reflexivity].
  - apply Qgt_alt in E. split; [discriminate|lra].
Qed.

Lemma SFeqb_val x y :
  valid_binary x = true -> valid_binary y = true ->
  is_finite x = true -> is_finite y = true ->
  SFeqb x y = true <-> (SFval x == SFval y)%Q.
Proof.
  intros Vx Vy Fx Fy. unfold SFeqb. rewrite (SFcompare_val x y Vx Vy Fx Fy).
  destruct (SFval x ?= SFval y)%Q eqn:E.
  - apply Qeq_alt in E. split; [intros _; exact E|reflexivity].
  - apply Qlt_alt in E. split; [discriminate|lra].
  - apply Qgt_alt in E. split; [discriminate|lra].
Qed.

(** [finish] below the overflow threshold. *)
Lemma finish_facts sx m e :
  semi_canon m e -> m = 0 \/ e <= 971 ->
  let r := finish sx m e in
  is_finite r = true /\ valid_binary r = true /\ sign_of r = sx /\ (mag r == val m e)%Q.
Proof.
  intros Hsc Hfin. unfold finish.
  destruct (Z.eqb_spec m 0) as [->|Hnz].
  - cbn. unfold val. repeat split; reflexivity.
  - destruct Hfin as [?|Hle]; [contradiction|].
    destruct (Z.leb_spec e 971) as [_|?]; [|lia].
    assert (Hc : canon m e) by (split; [destruct Hsc as [[? ?] _]; lia|exact Hsc]).
    cbn [is_finite valid_binary sign_of mag]. repeat split; try reflexivity.
    + apply canon_bounded; assumption.
    + rewrite Z2Pos.id by (destruct Hc; assumption). reflexivity.
Qed.

(** Rounding never passes a representable bound above the exact value. *)
Lemma round_aux_upper sx mx ex lx mv ev :
  0 <= mx -> ex <= fexp (Zdigits2 mx + ex) ->
  canon mv ev -> ev <= 971 ->
  (val mx ex <= val mv ev)%Q ->
  (loc_inexact lx = true -> val mx ex < val mv ev)%Q ->
  let r := binary_round_aux sx mx ex lx in
  is_finite r = true /\ valid_binary r = true /\ sign_of r = sx /\
  (mag r <= val mv ev)%Q.
Proof.
  intros Hmx Hex Cv Hev Hle Hlt.
  destruct (round_aux_result sx mx ex lx Hmx Hex)
    as (m' & e' & m3 & e3 & Hlo & Hhi & Hsc & Hm3 & Hsc3 & ->).
  assert (Hb : (val m3 e3 <= val mv ev)%Q).
  { destruct Hm3 as [E|[E Hi]]; rewrite E; [lra|].
    assert (Hs : (val m' e' < val mv ev)%Q).
    { destruct Hi as [Hi|Hi]; [specialize (Hlt Hi)|]; lra. }
    pose proof (grid m' e' mv ev Hsc Cv) as G.
    destruct (Qlt_le_dec (val mv ev) (val (m' + 1) e')) as [A|A]; [|exact A].
    exfalso. apply G. split; assumption. }
  assert (Hfin : m3 = 0 \/ e3 <= 971).
  { destruct (Z.eq_dec m3 0) as [?|Hnz]; [left; assumption|right].
    destruct (Z.le_gt_cases e3 971) as [?|Hgt]; [assumption|exfalso].
    assert (C3 : canon m3 e3) by (split; [destruct Hsc3 as [[? ?] _]; lia|exact Hsc3]).
    pose proof (canon_lt_exp mv ev m3 e3 Cv C3 ltac:(lia)). lra. }
  destruct (finish_facts sx m3 e3 Hsc3 Hfin) as (F & V & S & M).
  cbv zeta. rewrite M. auto.
Qed.

(** Rounding never passes a representable bound below the exact value. *)
Lemma round_aux_lower sx mx ex lx mv ev :
  0 <= mx -> ex <= fexp (Zdigits2 mx + ex) ->
  canon mv ev ->
  (val mv ev <= val mx ex)%Q ->
  let r := binary_round_aux sx mx ex lx in
  r = S754_infinity sx \/
  (is_finite r = true /\ valid_binary r = true /\ sign_of r = sx /\
   (val mv ev <= mag r)%Q).
Proof.
  intros Hmx Hex Cv Hle.
  destruct (round_aux_result sx mx ex lx Hmx Hex)
    as (m' & e' & m3 & e3 & Hlo & Hhi & Hsc & Hm3 & Hsc3 & ->).
  assert (Hb : (val mv ev <= val m' e')%Q).
  { pose proof (grid m' e' mv ev Hsc Cv) as G.
    destruct (Qlt_le_dec (val m' e') (val mv ev)) as [A|A]; [|exact A].
    exfalso. apply G. split; [assumption|lra]. }
  assert (Hinc : (val m' e' <= val (m' + 1) e')%Q) by (apply val_le; lia).
  assert (Hb3 : (val mv ev <= val m3 e3)%Q).
  { destruct Hm3 as [E|[E _]]; rewrite E; lra. }
  pose proof (val_pos mv ev (proj1 Cv)) as Hvp.
  cbv zeta. destruct (Z.le_gt_cases e3 971) as [Hle3|Hgt].
  - right. destruct (finish_facts sx m3 e3 Hsc3 (or_intror Hle3)) as (F & V & S & M).
    rewrite M. auto.
  - left. unfold finish. destruct (Z.eqb_spec m3 0) as [E0|_].
    + exfalso. rewrite E0 in Hb3.
      assert (Ez : (val 0 e3 == 0)%Q) by (unfold val; change (inject_Z 0) with 0%Q; ring).
      lra.
    + destruct (Z.leb_spec e3 971); [lia|reflexivity].
Qed.

(** *** Alignment, addition and subtraction *)

(** [shl_align] multiplies the mantissa by a power of two and keeps the
    value. *)
Lemma iter_xO m d : Z.pos (Pos.iter xO m d) = Z.pos m * 2 ^ Z.pos d.
Proof.
  induction d as [|d IH] using Pos.peano_ind.
  - cbn [Pos.iter]. lia.
  - rewrite Pos.iter_succ, Pos2Z.inj_xO, IH, Pos2Z.inj_succ, Z.pow_succ_r by lia. ring.
Qed.

Lemma shl_align_spec mx ex ex' :
  snd (shl_align mx ex ex') = Z.min ex ex' /\
  Z.pos (fst (shl_align mx ex ex')) = Z.pos mx * 2 ^ (ex - Z.min ex ex').
Proof.
  unfold shl_align. destruct (ex' - ex) as [|p|p] eqn:E; cbn [fst snd].
  - replace (Z.min ex ex') with ex by lia. rewrite Z.sub_diag. cbn. lia.
  - replace (Z.min ex ex') with ex by lia. rewrite Z.sub_diag. cbn. lia.
  - replace (Z.min ex ex') with ex' by lia. split; [reflexivity|].
    rewrite iter_xO. f_equal. f_equal. lia.
Qed.

Lemma shl_align_val mx ex ex' :
  (val (Z.pos (fst (shl_align mx ex ex'))) (snd (shl_align mx ex ex'))
   == val (Z.pos mx) ex)%Q.
Proof.
  destruct (shl_align_spec mx ex ex') as [-> ->].
  rewrite val_shift by lia. replace (Z.min ex ex' + (ex - Z.min ex ex')) with ex by lia.
  reflexivity.
Qed.

(** After [shl_align] to the exponent of the format the mantissa has at
    least the bits of the format. *)
Lemma Zdigits2_shift m n :
  0 < m -> 0 <= n -> Zdigits2 (m * 2 ^ n) = Zdigits2 m + n.
Proof.
  intros Hm Hn. pose proof (Zdigits2_bounds m Hm) as [H1 H2].
  assert (Hd : 0 < Zdigits2 m) by (destruct m; simpl; lia).
  assert (Hp : 0 < 2 ^ n) by (apply Z.pow_pos_nonneg; lia).
  apply Zdigits2_unique; [lia|].
  replace (Zdigits2 m + n - 1) with (Zdigits2 m - 1 + n) by lia.
  rewrite !Z.pow_add_r by lia. nia.
Qed.

Lemma shl_align_fexp mx ex :
  let a := shl_align mx ex (fexp (Z.pos (digits2_pos mx) + ex)) in
  snd a <= fexp (Zdigits2 (Z.pos (fst a)) + snd a).
Proof.
  cbv zeta. set (ex' := fexp (Z.pos (digits2_pos mx) + ex)).
  destruct (shl_align_spec mx ex ex') as [E1 E2]. rewrite E2, E1.
  rewrite Zdigits2_shift by lia. cbn [Zdigits2].
  replace (Z.pos (digits2_pos mx) + (ex - Z.min ex ex') + Z.min ex ex')
    with (Z.pos (digits2_pos mx) + ex) by lia.
  fold ex'. lia.
Qed.

(** The two bounds for [binary_round], which rounds an exact mantissa. *)
Lemma binary_round_upper sx mx ex mv ev :
  canon mv ev -> ev <= 971 ->
  (val (Z.pos mx) ex <= val mv ev)%Q ->
  let r := binary_round sx mx ex in
  is_finite r = true /\ valid_binary r = true /\ sign_of r = sx /\
  (mag r <= val mv ev)%Q.
Proof.
  intros Cv Hev Hle. unfold SpecFloat.binary_round.
  pose proof (shl_align_fexp mx ex) as Hf. pose proof (shl_align_val mx ex
    (fexp (Z.pos (digits2_pos mx) + ex))) as Hv. cbv zeta in Hf.
  destruct (shl_align mx ex (fexp (Z.pos (digits2_pos mx) + ex))) as [mz ez].
  cbn [fst snd] in Hf, Hv.
  apply round_aux_upper; try assumption; try lia.
  - rewrite Hv. exact Hle.
  - discriminate.
Qed.

Lemma binary_round_lower sx mx ex mv ev :
  canon mv ev ->
  (val mv ev <= val (Z.pos mx) ex)%Q ->
  let r := binary_round sx mx ex in
  r = S754_infinity sx \/
  (is_finite r = true /\ valid_binary r = true /\ sign_of r = sx /\
   (val mv ev <= mag r)%Q).
Proof.
  intros Cv Hle. unfold SpecFloat.binary_round.
  pose proof (shl_align_fexp mx ex) as Hf. pose proof (shl_align_val mx ex
    (fexp (Z.pos (digits2_pos mx) + ex))) as Hv. cbv zeta in Hf.
  destruct (shl_align mx ex (fexp (Z.pos (digits2_pos mx) + ex))) as [mz ez].
  cbn [fst snd] in Hf, Hv.
  apply round_aux_lower; try assumption; try lia.
  rewrite Hv. exact Hle.
Qed.

(** [val] is linear in the mantissa. *)
Lemma val_opp m e : (val (- m) e == - val m e)%Q.
Proof. unfold val. rewrite inject_Z_opp. ring. Qed.

Lemma val_add m1 m2 e : (val (m1 + m2) e == val m1 e + val m2 e)%Q.
Proof. unfold val. rewrite inject_Z_plus. ring. Qed.

Lemma val_cond_Zopp s m e : (val (cond_Zopp s m) e == sval s (val m e))%Q.
Proof. destruct s; cbn [cond_Zopp sval]; [apply val_opp|reflexivity]. Qed.

Lemma aligned_val m e e' :
  e' <= e -> (val (Z.pos (fst (shl_align m e e'))) e' == val (Z.pos m) e)%Q.
Proof.
  intros H. pose proof (shl_align_val m e e') as V.
  destruct (shl_align_spec m e e') as [E _]. rewrite E in V.
  replace (Z.min e e') with e' in V by lia. exact V.
Qed.

(** The sum and the difference of two finite values are roundings of
    the exact sum and difference. *)
Lemma SFadd_finite sx mx ex sy my ey :
  exists M ez,
    SFadd (S754_finite sx mx ex) (S754_finite sy my ey) = binary_normalize M ez false /\
    (val M ez == SFval (S754_finite sx mx ex) + SFval (S754_finite sy my ey))%Q.
Proof.
  eexists _, _. split; [reflexivity|].
  rewrite val_add, !val_cond_Zopp. unfold SFval. cbn [sign_of mag].
  destruct sx, sy; cbn [sval]; rewrite !aligned_val by lia; reflexivity.
Qed.

Lemma SFsub_finite sx mx ex sy my ey :
  exists M ez,
    SFsub (S754_finite sx mx ex) (S754_finite sy my ey) = binary_normalize M ez false /\
    (val M ez == SFval (S754_finite sx mx ex) - SFval (S754_finite sy my ey))%Q.
Proof.
  eexists _, _. split; [reflexivity|].
  rewrite <- Z.add_opp_r, val_add, val_opp, !val_cond_Zopp. unfold SFval. cbn [sign_of mag].
  destruct sx, sy; cbn [sval]; rewrite !aligned_val by lia; reflexivity.
Qed.

(** A non-negative value is a zero or a positive canonical number. *)
Lemma nonneg_cases x :
  nonneg x ->
  (SFval x == 0)%Q /\ (exists s, x = S754_zero s) \/
  (exists m e, x = S754_finite false m e /\ canon (Z.pos m) e /\ e <= 971 /\
               (SFval x == val (Z.pos m) e)%Q).
Proof.
  intros (V & F & N). destruct x as [s| | |s m e]; try discriminate.
  - left. split; [destruct s; reflexivity|eauto].
  - right. apply bounded_canon in V. destruct V as [C E].
    pose proof (val_pos _ e (proj1 C)) as P.
    destruct s; unfold SFval in *; cbn [sign_of mag sval] in *; [lra|].
    exists m, e. repeat split; try assumption; try reflexivity; apply C.
Qed.

(** *** Sums, differences and quotients of scores *)

Lemma val_0 e : (val 0 e == 0)%Q.
Proof. unfold val. change (inject_Z 0) with 0%Q. ring. Qed.

Lemma val_sign m e : (0 < val m e)%Q <-> 0 < m.
Proof. rewrite <- (val_0 e). apply val_lt. Qed.

Lemma val_one : (val (2 ^ 52) (-52) == 1)%Q.
Proof. reflexivity. Qed.

Lemma canon_one : canon (2 ^ 52) (-52).
Proof. unfold canon, semi_canon. zpow. lia. Qed.

Lemma SFval_nonneg_sign x :
  sign_of x = false -> (SFval x == mag x)%Q.
Proof. unfold SFval. intros ->. reflexivity. Qed.

(** The sum of two non-negative values is at least each of them and at
    most any representable bound of the exact sum. *)
Lemma SFadd_nonneg x y mv ev :
  nonneg x -> nonneg y -> canon mv ev -> ev <= 971 ->
  (SFval x + SFval y <= val mv ev)%Q ->
  let r := SFadd x y in
  nonneg r /\ (SFval x <= SFval r)%Q /\ (SFval y <= SFval r)%Q /\
  (SFval r <= val mv ev)%Q.
Proof.
  intros Nx Ny Cv Hev Hb. cbv zeta.
  pose proof Nx as (Vx & Fx & Px). pose proof Ny as (Vy & Fy & Py).
  destruct (nonneg_cases x Nx) as [[Zx [sx ->]]|(mx & ex & -> & Cx & Hex & Ex)];
  destruct (nonneg_cases y Ny) as [[Zy [sy ->]]|(my & ey & -> & Cy & Hey & Ey)].
  - assert (E : exists s, SFadd (S754_zero sx) (S754_zero sy) = S754_zero s)
      by (destruct sx, sy; cbn; eauto).
    destruct E as [s ->].
    assert (Zr : (SFval (S754_zero s) == 0)%Q) by (destruct s; reflexivity).
    unfold nonneg. cbn [valid_binary is_finite]. rewrite Zr, Zx, Zy.
    rewrite Zx, Zy in Hb. repeat split; try reflexivity; lra.
  - cbn [SpecFloat.SFadd]. repeat split; try assumption; lra.
  - cbn [SpecFloat.SFadd]. repeat split; try assumption; lra.
  - destruct (SFadd_finite false mx ex false my ey) as (M & ez & -> & EM).
    pose proof (val_pos _ ex (proj1 Cx)) as Px'. pose proof (val_pos _ ey (proj1 Cy)) as Py'.
    rewrite Ex, Ey in *.
    assert (HM : 0 < M) by (apply (val_sign M ez); lra).
    destruct M as [|p|p]; try lia. cbn [SpecFloat.binary_normalize].
    destruct (binary_round_upper false p ez mv ev Cv Hev ltac:(lra)) as (F & V & S & U).
    destruct (binary_round_lower false p ez _ _ Cx ltac:(lra)) as [I|(_ & _ & _ & Lx)];
      [rewrite I in F; discriminate|].
    destruct (binary_round_lower false p ez _ _ Cy ltac:(lra)) as [I|(_ & _ & _ & Ly)];
      [rewrite I in F; discriminate|].
    rewrite (SFval_nonneg_sign _ S). unfold nonneg. rewrite (SFval_nonneg_sign _ S).
    repeat split; try assumption; lra.
Qed.

(** The difference of two non-negative values lies between minus the
    second and the first. *)
Lemma SFsub_nonneg x y :
  nonneg x -> nonneg y ->
  let r := SFsub x y in
  valid_binary r = true /\ is_finite r = true /\
  (- SFval y <= SFval r)%Q /\ (SFval r <= SFval x)%Q.
Proof.
  intros Nx Ny. cbv zeta.
  pose proof Nx as (Vx & Fx & Px). pose proof Ny as (Vy & Fy & Py).
  destruct (nonneg_cases x Nx) as [[Zx [sx ->]]|(mx & ex & -> & Cx & Hex & Ex)];
  destruct (nonneg_cases y Ny) as [[Zy [sy ->]]|(my & ey & -> & Cy & Hey & Ey)].
  - assert (E : exists s, SFsub (S754_zero sx) (S754_zero sy) = S754_zero s)
      by (destruct sx, sy; cbn; eauto).
    destruct E as [s ->].
    assert (Zr : (SFval (S754_zero s) == 0)%Q) by (destruct s; reflexivity).
    cbn [valid_binary is_finite]. rewrite Zr, Zx, Zy. repeat split; try reflexivity; lra.
  - cbn [SpecFloat.SFsub negb].
    assert (Er : (SFval (S754_finite true my ey) == - SFval (S754_finite false my ey))%Q)
      by reflexivity.
    rewrite Er. repeat split; try assumption; lra.
  - cbn [SpecFloat.SFsub]. repeat split; try assumption; lra.
  - destruct (SFsub_finite false mx ex false my ey) as (M & ez & -> & EM).
    pose proof (val_pos _ ex (proj1 Cx)) as Px'. pose proof (val_pos _ ey (proj1 Cy)) as Py'.
    rewrite Ex, Ey in *.
    destruct M as [|p|p]; cbn [SpecFloat.binary_normalize].
    + cbn [valid_binary is_finite]. change (SFval (S754_zero false)) with 0%Q.
      repeat split; try reflexivity; lra.
    + destruct (binary_round_upper false p ez _ _ Cx Hex ltac:(lra)) as (F & V & S & U).
      rewrite (SFval_nonneg_sign _ S). pose proof (mag_nonneg (binary_round false p ez)).
      repeat split; try assumption; lra.
    + assert (EN : (val (Z.pos p) ez == - val (Z.neg p) ez)%Q)
        by (rewrite <- val_opp; reflexivity).
      destruct (binary_round_upper true p ez _ _ Cy Hey ltac:(lra)) as (F & V & S & U).
      pose proof (mag_nonneg (binary_round true p ez)).
      unfold SFval at 1 2. rewrite S. cbn [sval].
      repeat split; try assumption; lra.
Qed.

Lemma new_location_inexact m r : loc_inexact (new_location m r) = negb (r =? 0).
Proof.
  unfold new_location, new_location_even, new_location_odd.
  destruct (Z.even m), (r =? 0); reflexivity.
Qed.

Lemma Zdigits2_lower m : 2 ^ 52 <= m -> 53 <= Zdigits2 m.
Proof.
  intros H. zpow. pose proof (Zdigits2_bounds m ltac:(lia)) as [_ H2].
  destruct (Z.le_gt_cases 53 (Zdigits2 m)) as [?|Hlt]; [assumption|].
  assert (0 <= Zdigits2 m) by (destruct m; simpl; lia).
  assert (2 ^ Zdigits2 m <= 2 ^ 52) by (apply Z.pow_le_mono_r; lia). lia.
Qed.

Lemma shift_cases m s :
  0 <= s ->
  match s with Z.pos _ => Z.shiftl m s | 0 => m | Z.neg _ => 0 end = m * 2 ^ s.
Proof.
  intros H. destruct s as [|p|p]; [rewrite Z.pow_0_r; lia|apply Z.shiftl_mul_pow2; lia|lia].
Qed.

(** The quotient [q], at exponent [e'], and the remainder [r] that
    [SFdiv] rounds: the mantissa [q] has the bits of the format, and the
    location is exact when the remainder is zero. *)
Lemma div_core_spec m1 e1 m2 e2 :
  exists q e' l r,
    SFdiv_core_binary (Z.pos m1) e1 (Z.pos m2) e2 = (q, e', l) /\
    0 <= q /\ e' <= fexp (Zdigits2 q + e') /\
    0 <= r < Z.pos m2 /\
    (val (Z.pos m1) e1 == val (Z.pos m2 * q + r) (e' + e2))%Q /\
    loc_inexact l = negb (r =? 0) /\
    (m1 = m2 -> r = 0).
Proof.
  unfold SpecFloat.SFdiv_core_binary.
  set (d1 := Zdigits2 (Z.pos m1)). set (d2 := Zdigits2 (Z.pos m2)).
  set (e' := Z.min (fexp (d1 + e1 - (d2 + e2))) (e1 - e2)).
  set (s := e1 - e2 - e').
  assert (Hs : 0 <= s) by (unfold s, e'; lia).
  set (m' := match s with Z.pos _ => Z.shiftl (Z.pos m1) s | 0 => Z.pos m1 | Z.neg _ => 0 end).
  assert (Em : m' = Z.pos m1 * 2 ^ s).
  { apply shift_cases. exact Hs. }
  pose proof (Z_div_mod m' (Z.pos m2) ltac:(lia)) as D.
  destruct (Z.div_eucl m' (Z.pos m2)) as [q r]. destruct D as [D R].
  assert (Hp : 0 < 2 ^ s) by (apply Z.pow_pos_nonneg; lia).
  assert (Hq : 0 <= q) by nia.
  exists q, e', (new_location (Z.pos m2) r), r.
  split; [reflexivity|]. split; [exact Hq|]. split; [|split; [exact R|split; [|split]]].
  - rewrite fexp_eq.
    destruct (Z.le_gt_cases e' (-1074)) as [?|Hgt]; [lia|].
    assert (Hle : e' <= d1 + e1 - (d2 + e2) - 53).
    { unfold e' in *. rewrite fexp_eq in *. lia. }
    pose proof (digits2_bounds m1) as [A1 _]. pose proof (digits2_bounds m2) as [_ B2].
    fold (Zdigits2 (Z.pos m1)) in A1. fold (Zdigits2 (Z.pos m2)) in B2. fold d1 in A1. fold d2 in B2.
    assert (Hd1 : 0 < d1) by (unfold d1; cbn; lia).
    assert (Hd2 : 0 < d2) by (unfold d2; cbn; lia).
    assert (Hq52 : 2 ^ 52 <= q).
    { assert (E1 : 2 ^ (d1 - 1) * 2 ^ s = 2 ^ (d1 - 1 + s)) by (rewrite Z.pow_add_r by lia; ring).
      assert (E2 : 2 ^ 52 * 2 ^ d2 = 2 ^ (52 + d2)) by (rewrite Z.pow_add_r by lia; ring).
      assert (E3 : 2 ^ (52 + d2) <= 2 ^ (d1 - 1 + s)) by (apply Z.pow_le_mono_r; unfold s; lia).
      zpow. nia. }
    pose proof (Zdigits2_lower q Hq52). lia.
  - rewrite <- D, Em. rewrite val_shift by lia.
    replace (e' + e2 + s) with e1 by (unfold s; lia). reflexivity.
  - apply new_location_inexact.
  - intros <-. rewrite Em in D.
    assert (E : r = Z.pos m1 * (2 ^ s - q)) by lia.
    assert (2 ^ s - q = 0) by nia. subst r. lia.
Qed.

Lemma Qmult_le_1 a b : (0 < b -> a * b <= b -> a <= 1)%Q.
Proof. intros Hb H. apply (Qmult_le_r _ _ b Hb). lra. Qed.

Lemma Qmult_lt_1 a b : (0 < b -> a * b < b -> a < 1)%Q.
Proof. intros Hb H. apply (Qmult_lt_r _ _ b Hb). lra. Qed.

Lemma val_mul m1 e1 m2 e2 : (val m1 e1 * val m2 e2 == val (m1 * m2) (e1 + e2))%Q.
Proof. unfold val. rewrite inject_Z_mult, pow2_add. ring. Qed.

(** The quotient of [a] by a positive [b] with [-b <= a <= b] lies
    between -1 and 1; it is 1 when [a] is [b] and -1 when [a] is [-b]. *)
Lemma SFdiv_bounded a b :
  valid_binary a = true -> is_finite a = true ->
  valid_binary b = true -> is_finite b = true ->
  (0 < SFval b)%Q -> (- SFval b <= SFval a)%Q -> (SFval a <= SFval b)%Q ->
  let r := SFdiv a b in
  valid_binary r = true /\ is_finite r = true /\
  (-1 <= SFval r)%Q /\ (SFval r <= 1)%Q /\
  ((SFval a == SFval b)%Q -> (SFval r == 1)%Q) /\
  ((SFval a == - SFval b)%Q -> (SFval r == -1)%Q).
Proof.
  intros Va Fa Vb Fb Pb Lo Hi. cbv zeta.
  destruct b as [sb| | |sb mb eb]; try discriminate.
  { exfalso. destruct sb; cbn in Pb; lra. }
  pose proof (bounded_canon _ _ Vb) as [Cb Hb].
  pose proof (val_pos _ eb (proj1 Cb)) as Pvb.
  destruct sb; [exfalso; unfold SFval in Pb; cbn [sign_of mag sval] in Pb; lra|].
  change (SFval (S754_finite false mb eb)) with (val (Z.pos mb) eb) in *.
  destruct a as [sa| | |sa ma ea]; try discriminate.
  { cbn [SpecFloat.SFdiv valid_binary is_finite].
    assert (Za : (SFval (S754_zero sa) == 0)%Q) by (destruct sa; reflexivity).
    assert (Zr : (SFval (S754_zero (xorb sa false)) == 0)%Q) by (destruct sa; reflexivity).
    rewrite Zr, Za. repeat split; try reflexivity; try lra; intros; exfalso; lra. }
  pose proof (bounded_canon _ _ Va) as [Ca Ha].
  pose proof (val_pos _ ea (proj1 Ca)) as Pva.
  assert (Ea : (SFval (S754_finite sa ma ea) == sval sa (val (Z.pos ma) ea))%Q) by reflexivity.
  assert (Hab : (val (Z.pos ma) ea <= val (Z.pos mb) eb)%Q).
  { rewrite Ea in Lo, Hi. destruct sa; cbn [sval] in *; lra. }
  cbn [SpecFloat.SFdiv].
  destruct (div_core_spec ma ea mb eb) as (q & e' & l & r & -> & Hq & Hf & Hr & Hv & Hl & Hsame).
  rewrite xorb_false_r.
  assert (Eq1 : (val (Z.pos mb * q + r) (e' + eb)
                 == val q e' * val (Z.pos mb) eb + val r (e' + eb))%Q).
  { rewrite val_add, val_mul, Z.mul_comm. reflexivity. }
  pose proof (val_nonneg r (e' + eb) ltac:(lia)) as Pr.
  assert (Hq1 : (val q e' <= 1)%Q).
  { apply (Qmult_le_1 _ (val (Z.pos mb) eb)); lra. }
  assert (Hq2 : loc_inexact l = true -> (val q e' < 1)%Q).
  { intros Hi'. rewrite Hl in Hi'.
    assert (0 < r) by (destruct (Z.eqb_spec r 0); [discriminate|lia]).
    pose proof (val_pos r (e' + eb) ltac:(lia)).
    apply (Qmult_lt_1 _ (val (Z.pos mb) eb)); lra. }
  destruct (round_aux_upper sa q e' l _ _ Hq Hf canon_one ltac:(lia)
              ltac:(rewrite val_one; exact Hq1) ltac:(rewrite val_one; exact Hq2))
    as (F & V & S & U).
  rewrite val_one in U.
  pose proof (mag_nonneg (binary_round_aux sa q e' l)) as Pm.
  assert (Er : (SFval (binary_round_aux sa q e' l)
                == sval sa (mag (binary_round_aux sa q e' l)))%Q)
    by (unfold SFval; rewrite S; reflexivity).
  assert (Hexact : (val (Z.pos ma) ea == val (Z.pos mb) eb)%Q ->
                   (mag (binary_round_aux sa q e' l) == 1)%Q).
  { intros E.
    assert (Cmp : (val (Z.pos ma) ea ?= val (Z.pos mb) eb)%Q = Eq) by (apply Qcompare_eq, E).
    rewrite (canon_compare _ _ _ _ Ca Cb) in Cmp.
    destruct (Z.compare_spec ea eb) as [Ee|?|?]; try discriminate.
    apply Z.compare_eq in Cmp. injection Cmp as Emm. symmetry in Emm. subst mb eb.
    assert (Hr0 : (val r (e' + ea) == 0)%Q) by (rewrite Hsame by reflexivity; apply val_0).
    assert (Hq1' : (val q e' == 1)%Q).
    { assert (X : (val q e' * val (Z.pos ma) ea == 1 * val (Z.pos ma) ea)%Q) by lra.
      apply Qmult_inj_r in X; [exact X|lra]. }
    destruct (round_aux_lower sa q e' l _ _ Hq Hf canon_one
                ltac:(rewrite val_one; lra)) as [I|(_ & _ & _ & L)];
      [rewrite I in F; discriminate|].
    rewrite val_one in L. lra. }
  split; [exact V|]. split; [exact F|]. rewrite Er, Ea.
  destruct sa; cbn [sval] in *; repeat split; lra.
Qed.

(** *** The polarity quotient in binary64 *)

(** Adding or subtracting a zero is exact. *)
Lemma nonneg_zero_val x : nonneg x -> (SFval x == 0)%Q -> exists s, x = S754_zero s.
Proof.
  intros N Z. destruct (nonneg_cases x N) as [[_ H]|(m & e & -> & C & _ & E)]; [exact H|].
  pose proof (val_pos _ e (proj1 C)). rewrite E in Z. lra.
Qed.

Lemma SFadd_zero_r x y :
  nonneg x -> nonneg y -> (SFval y == 0)%Q -> (SFval (SFadd x y) == SFval x)%Q.
Proof.
  intros Nx Ny Zy. destruct (nonneg_zero_val y Ny Zy) as [sy ->].
  destruct (nonneg_cases x Nx) as [[Zx [sx ->]]|(m & e & -> & _)].
  - destruct sx, sy; reflexivity.
  - reflexivity.
Qed.

Lemma SFadd_zero_l x y :
  nonneg x -> nonneg y -> (SFval x == 0)%Q -> (SFval (SFadd x y) == SFval y)%Q.
Proof.
  intros Nx Ny Zx. destruct (nonneg_zero_val x Nx Zx) as [sx ->].
  destruct (nonneg_cases y Ny) as [[Zy [sy ->]]|(m & e & -> & _)].
  - destruct sx, sy; reflexivity.
  - reflexivity.
Qed.

Lemma SFsub_zero_r x y :
  nonneg x -> nonneg y -> (SFval y == 0)%Q -> (SFval (SFsub x y) == SFval x)%Q.
Proof.
  intros Nx Ny Zy. destruct (nonneg_zero_val y Ny Zy) as [sy ->].
  destruct (nonneg_cases x Nx) as [[Zx [sx ->]]|(m & e & -> & _)].
  - destruct sx, sy; reflexivity.
  - reflexivity.
Qed.

Lemma SFsub_zero_l x y :
  nonneg x -> nonneg y -> (SFval x == 0)%Q -> (SFval (SFsub x y) == - SFval y)%Q.
Proof.
  intros Nx Ny Zx. destruct (nonneg_zero_val x Nx Zx) as [sx ->].
  destruct (nonneg_cases y Ny) as [[Zy [sy ->]]|(m & e & -> & _)].
  - destruct sx, sy; reflexivity.
  - reflexivity.
Qed.

Lemma Prim2SF_zero : Prim2SF 0%float = S754_zero false.
Proof. reflexivity. Qed.

Lemma Prim2SF_one : Prim2SF 1%float = S754_finite false 4503599627370496 (-52).
Proof. reflexivity. Qed.

Lemma Prim2SF_minus_one : Prim2SF (-1)%float = S754_finite true 4503599627370496 (-52).
Proof. reflexivity. Qed.

(** A float between 0 and 1 is a non-negative finite value of at most 1. *)
Lemma score_nonneg (x : float) :
  ((0 <=? x)%float && (x <=? 1)%float = true ->
  nonneg (Prim2SF x) /\ (SFval (Prim2SF x) <= 1)%Q).
Proof.
  rewrite andb_true_iff, !leb_spec, Prim2SF_zero, Prim2SF_one. intros [H0 H1].
  pose proof (Prim2SF_valid x) as V.
  assert (F : is_finite (Prim2SF x) = true).
  { destruct (Prim2SF x) as [s|[]| |s m e]; try reflexivity; discriminate. }
  apply SFleb_val in H0; try assumption; try reflexivity.
  apply SFleb_val in H1; try assumption; try reflexivity.
  change (SFval (S754_zero false)) with 0%Q in H0.
  change (SFval (S754_finite false 4503599627370496 (-52))) with (val (2 ^ 52) (-52)) in H1.
  rewrite val_one in H1. unfold nonneg. auto.
Qed.

Lemma canon_two : canon (2 ^ 52) (-51).
Proof. unfold canon, semi_canon. zpow. lia. Qed.

Lemma canon_four : canon (2 ^ 52) (-50).
Proof. unfold canon, semi_canon. zpow. lia. Qed.

Lemma val_two : (val (2 ^ 52) (-51) == 2)%Q.
Proof. reflexivity. Qed.

Lemma val_four : (val (2 ^ 52) (-50) == 4)%Q.
Proof. reflexivity. Qed.

(** [x == 0] on floats is [SFval x == 0]. *)
Lemma eqb_zero_val (x : float) :
  is_finite (Prim2SF x) = true ->
  (x =? 0)%float = true <-> (SFval (Prim2SF x) == 0)%Q.
Proof.
  intros F. rewrite eqb_spec, Prim2SF_zero.
  apply (SFeqb_val (Prim2SF x) (S754_zero false) (Prim2SF_valid x) eq_refl F eq_refl).
Qed.

Lemma SFltb_val x y :
  valid_binary x = true -> valid_binary y = true ->
  is_finite x = true -> is_finite y = true ->
  SFltb x y = true <-> (SFval x < SFval y)%Q.
Proof.
  intros Vx Vy Fx Fy. unfold SFltb. rewrite (SFcompare_val x y Vx Vy Fx Fy).
  destruct (SFval x ?= SFval y)%Q eqn:E.
  - apply Qeq_alt in E. split; [discriminate|lra].
  - apply Qlt_alt in E. split; [intros _; exact E|reflexivity].
  - apply Qgt_alt in E. split; [discriminate|lra].
Qed.

(** Scores that are all zero have the sum zero. *)
Lemma zero_scores_zero_sum (p n g : float) :
  ((0 <=? p) && (p <=? 1) = true ->
   (0 <=? n) && (n <=? 1) = true ->
   (0 <=? g) && (g <=? 1) = true ->
   (p =? 0) && (n =? 0) && (g =? 0) = true ->
   (0 <? p + n + g) = false)%float.
Proof.
  intros Hp Hn Hg Hz. apply andb_true_iff in Hz. destruct Hz as [Hz Zg].
  apply andb_true_iff in Hz. destruct Hz as [Zp Zn].
  destruct (score_nonneg p Hp) as [Np _].
  destruct (score_nonneg n Hn) as [Nn _].
  destruct (score_nonneg g Hg) as [Ng _].
  apply (eqb_zero_val p (proj1 (proj2 Np))) in Zp.
  apply (eqb_zero_val n (proj1 (proj2 Nn))) in Zn.
  apply (eqb_zero_val g (proj1 (proj2 Ng))) in Zg.
  destruct (SFadd_nonneg _ _ _ _ Np Nn canon_two ltac:(lia) ltac:(rewrite val_two; lra))
    as (Nd1 & _).
  assert (Z1 : (SFval (SFadd (Prim2SF p) (Prim2SF n)) == 0)%Q).
  { rewrite (SFadd_zero_r _ _ Np Nn Zn). exact Zp. }
  assert (Z2 : (SFval (Prim2SF (p + n + g)) == 0)%Q).
  { rewrite add_spec, add_spec. rewrite (SFadd_zero_r _ _ Nd1 Ng Zg). exact Z1. }
  assert (F : is_finite (Prim2SF (p + n + g)) = true).
  { rewrite add_spec, add_spec. unfold SF64add.
    destruct (nonneg_zero_val _ Nd1 Z1) as [s1 E1]. rewrite E1.
    destruct (nonneg_zero_val _ Ng Zg) as [s2 E2]. rewrite E2.
    destruct s1, s2; reflexivity. }
  destruct (0 <? p + n + g)%float eqn:E; [|reflexivity].
  rewrite ltb_spec, Prim2SF_zero in E.
  apply SFltb_val in E; try assumption; try reflexivity; [|apply Prim2SF_valid].
  change (SFval (S754_zero false)) with 0%Q in E. lra.
Qed.

(** The polarity quotient of scores that are not all zero: the sum is
    positive, the quotient lies between -1 and 1, and it is 1 or -1 when
    only the positive or only the negative score is not zero. *)
Lemma binary64_polarity_bounds (p n g : float) :
  ((0 <=? p) && (p <=? 1) = true ->
   (0 <=? n) && (n <=? 1) = true ->
   (0 <=? g) && (g <=? 1) = true ->
   (p =? 0) && (n =? 0) && (g =? 0) = false ->
   (0 <? p + n + g) = true /\
   (p + n + g =? 0) = false /\
   (-1 <=? (p - g) / (p + n + g)) && ((p - g) / (p + n + g) <=? 1) = true /\
   ((n =? 0) = true -> (g =? 0) = true -> ((p - g) / (p + n + g) =? 1) = true) /\
   ((n =? 0) = true -> (p =? 0) = true -> ((p - g) / (p + n + g) =? -1) = true))%float.
Proof.
  intros Hp Hn Hg Hnz.
  destruct (score_nonneg p Hp) as [Np Bp].
  destruct (score_nonneg n Hn) as [Nn Bn].
  destruct (score_nonneg g Hg) as [Ng Bg].
  pose proof Np as (_ & Fp & Pp). pose proof Nn as (_ & Fn & Pn).
  pose proof Ng as (_ & Fg & Pg).
  pose proof (eqb_zero_val p Fp) as Zp. pose proof (eqb_zero_val n Fn) as Zn.
  pose proof (eqb_zero_val g Fg) as Zg.
  destruct (SFadd_nonneg _ _ _ _ Np Nn canon_two ltac:(lia) ltac:(rewrite val_two; lra))
    as (Nd1 & L1p & L1n & U1).
  rewrite val_two in U1. rewrite <- add_spec in Nd1, L1p, L1n, U1.
  destruct (SFadd_nonneg _ _ _ _ Nd1 Ng canon_four ltac:(lia) ltac:(rewrite val_four; lra))
    as (Nd & L2d & L2g & U2).
  rewrite <- add_spec in Nd, L2d, L2g.
  destruct (SFsub_nonneg _ _ Np Ng) as (Vs & Fs & Ls & Us).
  rewrite <- sub_spec in Vs, Fs, Ls, Us.
  pose proof Nd as (Vd & Fd & Pd).
  pose proof (eqb_zero_val (p + n + g) Fd) as Zd.
  assert (Hpos : (0 < SFval (Prim2SF (p + n + g)))%Q).
  { destruct (p =? 0)%float eqn:E1.
    - destruct (n =? 0)%float eqn:E2.
      + destruct (g =? 0)%float eqn:E3; [discriminate|].
        assert (~ (SFval (Prim2SF g) == 0)%Q) by (rewrite <- Zg; congruence). lra.
      + assert (~ (SFval (Prim2SF n) == 0)%Q) by (rewrite <- Zn; congruence). lra.
    - assert (~ (SFval (Prim2SF p) == 0)%Q) by (rewrite <- Zp; congruence). lra. }
  destruct (SFdiv_bounded _ _ Vs Fs Vd Fd Hpos ltac:(lra) ltac:(lra))
    as (Vq & Fq & Lq & Uq & Eq1 & Eqm1).
  rewrite <- div_spec in Vq, Fq, Lq, Uq, Eq1, Eqm1.
  split; [|split; [|split; [|split]]].
  - rewrite ltb_spec, Prim2SF_zero.
    apply SFltb_val; try assumption; reflexivity.
  - destruct (p + n + g =? 0)%float eqn:E; [|reflexivity].
    pose proof (proj1 Zd eq_refl). lra.
  - rewrite andb_true_iff, !leb_spec, Prim2SF_one, Prim2SF_minus_one. split.
    + apply SFleb_val; try assumption; try reflexivity.
      change (SFval (S754_finite true 4503599627370496 (-52))) with (- val (2 ^ 52) (-52))%Q.
      rewrite val_one. exact Lq.
    + apply SFleb_val; try assumption; try reflexivity.
      change (SFval (S754_finite false 4503599627370496 (-52))) with (val (2 ^ 52) (-52)).
      rewrite val_one. exact Uq.
  - intros En Eg. apply Zn in En. apply Zg in Eg.
    rewrite eqb_spec, Prim2SF_one. apply SFeqb_val; try assumption; try reflexivity.
    change (SFval (S754_finite false 4503599627370496 (-52))) with (val (2 ^ 52) (-52)).
    rewrite val_one. apply Eq1.
    rewrite sub_spec, add_spec, add_spec.
    rewrite (SFsub_zero_r _ _ Np Ng Eg).
    rewrite add_spec in Nd1.
    rewrite (SFadd_zero_r _ _ Nd1 Ng Eg), (SFadd_zero_r _ _ Np Nn En). reflexivity.
  - intros En Ep. apply Zn in En. apply Zp in Ep.
    rewrite eqb_spec, Prim2SF_minus_one. apply SFeqb_val; try assumption; try reflexivity.
    change (SFval (S754_finite true 4503599627370496 (-52))) with (- val (2 ^ 52) (-52))%Q.
    rewrite val_one. apply Eqm1.
    rewrite sub_spec, add_spec, add_spec.
    rewrite (SFsub_zero_l _ _ Np Ng Ep).
    rewrite add_spec in Nd1.
    assert (Z1 : (SFval (SFadd (Prim2SF p) (Prim2SF n)) == 0)%Q).
    { rewrite (SFadd_zero_r _ _ Np Nn En). exact Ep. }
    rewrite (SFadd_zero_l _ _ Nd1 Ng Z1). reflexivity.
Qed.

(** C7, as amended.  For binary64 scores [p], [n], [g] between 0 and 1
    whose sum is positive, [_compute_polarity] returns a value between
    -1 and 1; the value is 1 when [g] and [n] are 0 (so [p] is
    positive), and -1 when [p] and [n] are 0 (so [g] is positive). *)
Theorem polarity_binary64_range (p n g : float) :
  between 0%float p 1%float = true ->
  between 0%float n 1%float = true ->
  between 0%float g 1%float = true ->
  (0 <? p + n + g)%float = true ->
  exists v,
    _compute_polarity p n g = Ok v /\
    between (-1)%float v 1%float = true /\
    ((g =? 0)%float = true -> (n =? 0)%float = true -> (v =? 1)%float = true) /\
    ((p =? 0)%float = true -> (n =? 0)%float = true -> (v =? -1)%float = true).
Proof.
  intros Hp Hn Hg Hs.
  assert (Hnz : ((p =? 0) && (n =? 0) && (g =? 0))%float = false).
  { destruct ((p =? 0) && (n =? 0) && (g =? 0))%float eqn:E; [|reflexivity].
    rewrite (zero_scores_zero_sum p n g Hp Hn Hg E) in Hs. discriminate. }
  destruct (binary64_polarity_bounds p n g Hp Hn Hg Hnz) as (_ & Hd & Hr & H1 & Hm1).
  unfold _compute_polarity, py_truediv. cbn [feqb fzero fsub fadd fdiv Scalar_float].
  rewrite Hd. eexists. split; [reflexivity|]. split; [exact Hr|]. split.
  - intros Eg En. exact (H1 En Eg).
  - intros Ep En. exact (Hm1 En Ep).
Qed.

(** C7, witness: the scores 0.5, 0 and 0. *)
Lemma polarity_binary64_range_witness :
  (between 0%float 0.5%float 1%float = true /\
   between 0%float 0%float 1%float = true /\
   (0 <? 0.5 + 0 + 0)%float = true) /\
  exists v,
    _compute_polarity 0.5%float 0%float 0%float = Ok v /\
    between (-1)%float v 1%float = true /\
    ((0 =? 0)%float = true -> (0 =? 0)%float = true -> (v =? 1)%float = true) /\
    ((0.5 =? 0)%float = true -> (0 =? 0)%float = true -> (v =? -1)%float = true).
Proof.
  split; [repeat split|].
  apply (polarity_binary64_range 0.5%float 0%float 0%float); reflexivity.
Defined.

Set Implicit Arguments.

Lemma Qeq_bool_false_iff (x y : Q) : Qeq_bool x y = false <-> ~ (x == y)%Q.
Proof.
  split.
  - intros H E. apply Qeq_bool_iff in E. congruence.
  - intros H. destruct (Qeq_bool x y) eqn:E; [|reflexivity].
    apply Qeq_bool_iff in E. contradiction.
Qed.

Local Open Scope Q_scope.

(** In exact arithmetic the converses hold as well: for scores [p],
    [n], [g] between 0 and 1 with a positive sum, [_compute_polarity]
    returns a value between -1 and 1, which is 1 exactly when [g] and
    [n] are 0 and [p] is positive, and -1 exactly when [p] and [n] are 0
    and [g] is positive. *)
Theorem polarity_exact_range (p n g : Q) :
  0 <= p <= 1 -> 0 <= n <= 1 -> 0 <= g <= 1 -> 0 < p + n + g ->
  exists v,
    _compute_polarity p n g = Ok v /\
    -1 <= v <= 1 /\
    (v == 1 <-> g == 0 /\ n == 0 /\ 0 < p) /\
    (v == -1 <-> p == 0 /\ n == 0 /\ 0 < g).
Proof.
  intros Hp Hn Hg Hs.
  unfold _compute_polarity, py_truediv. cbn [feqb fsub fadd fdiv fzero Scalar_Q].
  assert (Hnz : ~ p + n + g == 0) by lra.
  rewrite (proj2 (Qeq_bool_false_iff _ _) Hnz).
  eexists. split; [reflexivity|].
  set (d := p + n + g) in *.
  assert (Hv : forall c, (p - g) / d == c <-> p - g == c * d).
  { intros c. split; intros H.
    - rewrite <- H. field. exact Hnz.
    - rewrite H. field. exact Hnz. }
  split; [split|split].
  - apply Qle_shift_div_l; [exact Hs|]. subst d. lra.
  - apply Qle_shift_div_r; [exact Hs|]. subst d. lra.
  - rewrite Hv. subst d. split; [intros H|intros (H1 & H2 & H3)].
    + repeat split; lra.
    + lra.
  - rewrite Hv. subst d. split; [intros H|intros (H1 & H2 & H3)].
    + repeat split; lra.
    + lra.
Qed.

(** For instance the scores 1/2, 1/4, 1/4. *)
Lemma polarity_exact_range_witness :
  (0 <= 1#2 <= 1 /\ 0 <= 1#4 <= 1 /\ 0 < (1#2) + (1#4) + (1#4)) /\
  exists v,
    _compute_polarity (1#2) (1#4) (1#4) = Ok v /\
    -1 <= v <= 1 /\
    (v == 1 <-> (1#4) == 0 /\ (1#4) == 0 /\ 0 < (1#2)) /\
    (v == -1 <-> (1#2) == 0 /\ (1#4) == 0 /\ 0 < (1#4)).
Proof.
  split; [lra|]. apply polarity_exact_range; lra.
Defined.

Local Close Scope Q_scope.

(** Whatever the arithmetic, an analysis that [_analyze_output] returns
    has passed the range check of [Sentiment.from_polarity]. *)
Lemma analyze_output_polarity_in_range {F} {SF : Scalar F} statement output
    (a : SentimentAnalysis F) :
  _analyze_output statement output = Ok a ->
  between (fopp fone) (polarity a) fone = true /\ from_polarity (polarity a) = Ok (sentiment a).
Proof.
  unfold _analyze_output.
  destruct (dict_getitem _ "positive") as [p|]; [|discriminate].
  destruct (dict_getitem _ "neutral") as [n|]; [|discriminate].
  destruct (dict_getitem _ "negative") as [g|]; [|discriminate].
  cbn [rbind]. destruct (_compute_polarity p n g) as [v|]; [|discriminate].
  cbn [rbind]. destruct (from_polarity v) as [s|] eqn:Hs; [|discriminate].
  cbn [rbind]. unfold new_SentimentAnalysis, _polarity_must_be_between_minus_1_and_1.
  destruct (between (fopp fone) v fone) eqn:Hb; cbn [negb]; [|discriminate].
  intros [= <-]. cbn [polarity sentiment]. split; [exact Hb|exact Hs].
Qed.

(** ** The labels validator *)

Section Labels.

Context {F : Type} {SF : Scalar F}.

Lemma mem_string_In s l : mem_string s l = true <-> In s l.
Proof.
  unfold mem_string. rewrite existsb_exists. split.
  - intros (x & Hx & E). apply String.eqb_eq in E. now subst.
  - intros H. exists s. split; [exact H|apply String.eqb_refl].
Qed.

(** The test of [_validate_required_labels] passes exactly the lists
    that hold each of the three labels once and nothing else. *)
Lemma labels_accepted (scores : list (SentimentScore F)) :
  negb (Z.of_nat (List.length scores) =? _NLABELS) || label_set_differs scores = false <->
  Permutation (map (@label F) scores) three_labels.
Proof.
  unfold label_set_differs, _NLABELS.
  rewrite orb_false_iff, !negb_false_iff, andb_true_iff, Z.eqb_eq, !forallb_forall.
  setoid_rewrite mem_string_In.
  split.
  - intros (Hlen & Hsub & Hsup).
    destruct scores as [|[a sa] [|[b sb] [|[c sc] [|? ?]]]]; simpl in Hlen; try lia.
    cbn [map label] in *.
    assert (Ha := Hsub a (or_introl eq_refl)).
    assert (Hb := Hsub b (or_intror (or_introl eq_refl))).
    assert (Hc := Hsub c (or_intror (or_intror (or_introl eq_refl)))).
    assert (Hp := Hsup "positive"%string (or_introl eq_refl)).
    assert (Hg := Hsup "negative"%string (or_intror (or_introl eq_refl))).
    assert (Hn := Hsup "neutral"%string (or_intror (or_intror (or_introl eq_refl)))).
    clear Hsub Hsup Hlen. unfold required_labels, three_labels in *. simpl in *.
    intuition (subst; try discriminate;
               first [ reflexivity
                     | apply perm_swap
                     | apply perm_skip, perm_swap
                     | eapply perm_trans; [apply perm_swap|apply perm_skip, perm_swap]
                     | eapply perm_trans; [apply perm_skip, perm_swap|apply perm_swap]
                     | eapply perm_trans; [apply perm_swap|];
                       eapply perm_trans; [apply perm_skip, perm_swap|apply perm_swap] ]).
  - intros Hperm. split; [|split].
    + apply Permutation_length in Hperm. rewrite length_map in Hperm.
      rewrite Hperm. reflexivity.
    + intros x Hx. eapply Permutation_in in Hx; [|exact Hperm].
      unfold required_labels. unfold three_labels in Hx. simpl in *. tauto.
    + intros x Hx. eapply Permutation_in; [symmetry; exact Hperm|].
      unfold required_labels in Hx. unfold three_labels. simpl in *. tauto.
Qed.

Lemma validate_required_labels_ok (outputs : list (list (SentimentScore F))) :
  Forall (fun scores => Permutation (map (@label F) scores) three_labels) outputs ->
  _validate_required_labels outputs = Ok outputs.
Proof.
  induction 1 as [|scores rest Hs Hrest IH]; [reflexivity|].
  cbn [_validate_required_labels]. apply labels_accepted in Hs. rewrite Hs, IH. reflexivity.
Qed.

Lemma validate_required_labels_err (outputs : list (list (SentimentScore F))) :
  Exists (fun scores => ~ Permutation (map (@label F) scores) three_labels) outputs ->
  _validate_required_labels outputs = Err TypeError.
Proof.
  induction outputs as [|scores rest IH]; intros Hex; [inversion Hex|].
  cbn [_validate_required_labels].
  destruct (negb (Z.of_nat (List.length scores) =? _NLABELS) || label_set_differs scores)
    eqn:Htest; [reflexivity|].
  apply labels_accepted in Htest.
  inversion Hex as [? ? Hbad|? ? Hbad]; subst; [contradiction|].
  rewrite (IH Hbad). reflexivity.
Qed.

(** Scores that are all in range pass the validator of scores. *)
Lemma scores_accepted (outputs : list (list (SentimentScore F))) :
  Forall (Forall (fun s => between fzero (score s) fone = true)) outputs ->
  exists checked,
    rmap (rmap (fun s => _score_must_be_between_0_and_1 (score s))) outputs = Ok checked.
Proof.
  induction 1 as [|scores rest Hs _ [checked IH]]; [eexists; reflexivity|].
  cbn [rmap]. rewrite IH.
  assert (Hrow : exists row,
             rmap (fun s => _score_must_be_between_0_and_1 (score s)) scores = Ok row).
  { clear -Hs. induction Hs as [|s scores Hb _ [row IH]]; [eexists; reflexivity|].
    cbn [rmap]. unfold _score_must_be_between_0_and_1 at 1. rewrite Hb, IH.
    eexists. reflexivity. }
  destruct Hrow as [row ->]. eexists. reflexivity.
Qed.

(** When the label list of some statement is not the three labels
    positive, neutral and negative, each once, the validator
    [_validate_required_labels] does not return: the call it makes in
    order to raise fails with [TypeError].  With every score in range,
    that [TypeError] passes through [_handle_response], whose [except]
    clause names [ValidationError] and [ValueError] only, and through
    [analyze_sentiment] behind the HTTP endpoint. *)
Lemma wrong_labels_rejected (outputs : list (list (SentimentScore F))) :
  Exists (fun scores => ~ Permutation (map (@label F) scores) three_labels) outputs ->
  _validate_required_labels outputs = Err TypeError /\
  (Forall (Forall (fun s => between fzero (score s) fone = true)) outputs ->
   _handle_response (mkResponse 200 (Outputs outputs)) = Err TypeError /\
   forall post statements timeout,
     outcome (post statements) = Ok (mkResponse 200 (Outputs outputs)) ->
     outcome (analyze_sentiment (http_sentiment_analyzer post) statements timeout)
     = Err TypeError).
Proof.
  intros Hex. assert (Hv := validate_required_labels_err Hex).
  split; [exact Hv|]. intros Hrange.
  assert (Hh : _handle_response (mkResponse 200 (Outputs outputs)) = Err TypeError).
  { unfold _handle_response, response_json, model_validate.
    cbn [status_code json Z.eqb Pos.eqb rbind].
    destruct (scores_accepted Hrange) as [checked ->]. rewrite Hv. reflexivity. }
  split; [exact Hh|].
  intros post statements timeout Hpost.
  cbn [http_sentiment_analyzer analyze_sentiment outcome].
  rewrite Hpost. cbn [rbind]. rewrite Hh. reflexivity.
Qed.

End Labels.

(** C4.  The labels positive, neutral, neutral, each with the score
    0.5: neutral stands twice and negative is missing.  The validator
    detects it and goes on to raise, but the call
    [ValidationError("...")] cannot build pydantic's exception and
    raises [TypeError].  [_handle_response] does not catch it, and
    neither does [analyze_sentiment]: the request ends with a
    [TypeError], not with a validation failure.  A score out of range,
    next to it, is reported as [ResponseValidationError]. *)
Theorem neutral_twice_raises_TypeError :
  ~ Permutation (map (@label float) neutral_twice) three_labels /\
  _validate_required_labels [neutral_twice] = Err TypeError /\
  _handle_response (mkResponse 200 (Outputs [neutral_twice])) = Err TypeError /\
  outcome (analyze_sentiment
             (http_sentiment_analyzer
                (fun _ => mkReply 0 (Ok (mkResponse 200 (Outputs [neutral_twice])))))
             ["a statement"]%string 10)
  = Err TypeError /\
  ~ fails_with (_handle_response (mkResponse 200 (Outputs [neutral_twice])))
               "MissingLabelError" /\
  ~ fails_with (_handle_response (mkResponse 200 (Outputs [neutral_twice])))
               "ResponseValidationError" /\
  _handle_response (mkResponse 200 (Outputs [score_too_large]))
  = Err (ModelAPIError ResponseValidationError).
Proof.
  split.
  { intros H. apply Permutation_sym in H.
    apply (Permutation_in "negative"%string) in H.
    - simpl in H. intuition discriminate.
    - unfold three_labels. simpl. tauto. }
  split; [reflexivity|]. split; [reflexivity|]. split; [reflexivity|].
  split; [|split; [|reflexivity]];
    intros (e & He & Hname); vm_compute in He; inversion He; subst; discriminate.
Qed.

(** ** The title cache *)

Module CacheFacts.
Import TTLCache.

Lemma alive_iff time l : alive time l = true <-> (time < expires l)%Q.
Proof.
  unfold alive. rewrite negb_true_iff. split.
  - intros H. apply Qnot_le_lt. intros Hle. apply Qle_bool_iff in Hle. congruence.
  - intros H. destruct (Qle_bool (expires l) time) eqn:E; [|reflexivity].
    apply Qle_bool_iff in E. lra.
Qed.

Lemma filter_all {A} (f : A -> bool) l : Forall (fun x => f x = true) l -> filter f l = l.
Proof. induction 1 as [|x l Hx Hl IH]; simpl; [reflexivity|]. now rewrite Hx, IH. Qed.

Lemma find_app k l1 l2 :
  find k (l1 ++ l2) = match find k l1 with Some l => Some l | None => find k l2 end.
Proof.
  unfold find. induction l1 as [|x l1 IH]; simpl; [reflexivity|].
  destruct (String.eqb (key x) k); [reflexivity|exact IH].
Qed.

Lemma find_none k ls : Forall (fun l => key l <> k) ls -> find k ls = None.
Proof.
  unfold find. induction 1 as [|x l Hx Hl IH]; simpl; [reflexivity|].
  apply String.eqb_neq in Hx. now rewrite Hx.
Qed.

Lemma remove_none k ls : Forall (fun l => key l <> k) ls -> remove k ls = ls.
Proof.
  intros H. apply filter_all. eapply Forall_impl; [|exact H].
  intros l Hl. now apply negb_true_iff, String.eqb_neq.
Qed.

(** Eviction drops links from the front only, and none of the last
    [maxsize - 1]. *)
Lemma evict_app maxsize older newer :
  (Z.of_nat (List.length newer) + 1 <= maxsize) ->
  exists dropped kept, older = dropped ++ kept /\ evict maxsize (older ++ newer) = kept ++ newer.
Proof.
  intros Hroom. induction older as [|l older IH].
  - exists [], []. split; [reflexivity|]. simpl.
    destruct newer as [|n newer]; [reflexivity|].
    cbn [evict]. destruct (Z.of_nat (List.length (n :: newer)) + 1 >? maxsize) eqn:E; [lia|reflexivity].
  - cbn [app evict].
    destruct (Z.of_nat (List.length (l :: older ++ newer)) + 1 >? maxsize).
    + destruct IH as (dropped & kept & -> & IH). exists (l :: dropped), kept. split; [reflexivity|exact IH].
    + exists [], (l :: older). split; reflexivity.
Qed.

(** Storing one more subfeddit keeps the subfeddits stored before it, as
    long as there is room for them all and none has expired. *)
Lemma setitem_stored deadline done s time c :
  stored deadline done (links c) ->
  ~ In (SubfedditInfo.title s) (map SubfedditInfo.title done) ->
  (len done + 1 <= maxsize c) ->
  (time < deadline)%Q ->
  (deadline <= time + ttl c)%Q ->
  exists c',
    setitem time (SubfedditInfo.title s) (SubfedditInfo.id s) c = Some c' /\
    maxsize c' = maxsize c /\ ttl c' = ttl c /\
    stored deadline (done ++ [s]) (links c').
Proof.
  intros (older & newer & Hls & Holder & Hnewer) Hfresh Hroom Htime Hdeadline.
  unfold setitem.
  assert (Hlen : List.length newer = List.length done)
    by (symmetry; eapply Forall2_length; exact Hnewer).
  destruct (1 >? maxsize c) eqn:Hmax; [unfold len in Hroom; lia|].
  assert (Halive : Forall (fun l => alive time l = true) newer).
  { clear -Hnewer Htime. induction Hnewer as [|x l d n (_ & _ & H) _ IH]; constructor; auto.
    apply alive_iff. lra. }
  assert (Hkeys : Forall (fun l => key l <> SubfedditInfo.title s) newer).
  { clear -Hnewer Hfresh. induction Hnewer as [|x l d n (H & _) _ IH]; constructor.
    - rewrite H. intros E. apply Hfresh. left. exact E.
    - apply IH. intros Hin. apply Hfresh. right. exact Hin. }
  rewrite Hls. unfold expire. rewrite filter_app, (filter_all _ Halive).
  set (older1 := filter (alive time) older).
  assert (Hex : exists older2,
             incl older2 older /\
             match find (SubfedditInfo.title s) (older1 ++ newer) with
             | Some _ => older1 ++ newer
             | None => evict (maxsize c) (older1 ++ newer)
             end = older2 ++ newer).
  { destruct (find _ _).
    - exists older1. split; [|reflexivity]. subst older1. intros x Hx.
      apply filter_In in Hx. tauto.
    - destruct (@evict_app (maxsize c) older1 newer) as (dropped & kept & Hk & ->).
      { unfold len in Hroom. lia. }
      exists kept. split; [|reflexivity]. intros x Hx.
      assert (Hin : In x older1) by (rewrite Hk; apply in_or_app; now right).
      subst older1. apply filter_In in Hin. tauto. }
  destruct Hex as (older2 & Hincl & ->).
  eexists. split; [reflexivity|]. cbn [with_links maxsize ttl links].
  split; [reflexivity|]. split; [reflexivity|].
  unfold remove at 1. rewrite filter_app. fold (remove (SubfedditInfo.title s) older2).
  fold (remove (SubfedditInfo.title s) newer). rewrite (remove_none Hkeys), <- app_assoc.
  exists (remove (SubfedditInfo.title s) older2),
         (newer ++ [mkLink (SubfedditInfo.title s) (SubfedditInfo.id s) (time + ttl c)]).
  split; [reflexivity|]. split.
  - apply Forall_forall. intros l Hl. apply filter_In in Hl. destruct Hl as (Hl & Hne).
    rewrite map_app, in_app_iff. intros [Hin|[Hin|[]]].
    + rewrite Forall_forall in Holder. exact (Holder l (Hincl l Hl) Hin).
    + apply negb_true_iff, String.eqb_neq in Hne. congruence.
  - apply Forall2_app; [exact Hnewer|]. constructor; [|constructor]. cbn. auto.
Qed.

(** A subfeddit that is stored is found, with its id. *)
Lemma lookup_stored deadline done time c s :
  stored deadline done (links c) ->
  NoDup (map SubfedditInfo.title done) ->
  In s done ->
  (time < deadline)%Q ->
  lookup time (SubfedditInfo.title s) c = Some (SubfedditInfo.id s).
Proof.
  intros (older & newer & Hls & Holder & Hnewer) Hnd Hin Htime.
  unfold lookup. rewrite Hls, find_app, find_none.
  2:{ eapply Forall_impl; [|exact Holder]. intros l Hl E. apply Hl. rewrite E.
      apply in_map. exact Hin. }
  clear Hls Holder. induction Hnewer as [|x l d n (Hk & Hv & He) Hrest IH]; [contradiction|].
  unfold find. cbn [List.find]. destruct Hin as [->|Hin].
  - rewrite Hk, String.eqb_refl, (proj2 (alive_iff time l)) by lra. now rewrite Hv.
  - inversion Hnd as [|? ? Hx Hnd']; subst.
    assert (Hne : key l <> SubfedditInfo.title s).
    { rewrite Hk. intros E. apply Hx. rewrite E. apply in_map. exact Hin. }
    apply String.eqb_neq in Hne. rewrite Hne. apply IH; assumption.
Qed.


Lemma setitem_params time k v c c' :
  setitem time k v c = Some c' -> maxsize c' = maxsize c /\ ttl c' = ttl c.
Proof.
  unfold setitem. destruct (1 >? maxsize c); [discriminate|].
  intros [= <-]. split; reflexivity.
Qed.


Lemma getitem_params time k c : 
  maxsize (snd (getitem time k c)) = maxsize c /\ ttl (snd (getitem time k c)) = ttl c.
Proof. unfold getitem. destruct (find k (links c)); split; reflexivity. Qed.

Lemma delitem_params time k c : 
  maxsize (snd (delitem time k c)) = maxsize c /\ ttl (snd (delitem time k c)) = ttl c.
Proof. unfold delitem. destruct (find k (links c)); split; reflexivity. Qed.

End CacheFacts.



(** *** Runs of [get_subfeddit_id] *)

Section Search.

Context {F : Type} {SF : Scalar F}.
Variable subfeddit_title : string.
Variable feddit_client : FedditAPIClient F.

(** The [for] loop awaits nothing and only stores into the cache. *)
Lemma scan_batch_frame batch : forall (w : World F) r w',
  scan_batch subfeddit_title batch w = Some (r, w') ->
  clock w' = clock w /\ trace w' = trace w /\
  TTLCache.maxsize (subfeddit_cache w') = TTLCache.maxsize (subfeddit_cache w) /\
  TTLCache.ttl (subfeddit_cache w') = TTLCache.ttl (subfeddit_cache w).
Proof.
  induction batch as [|s rest IH]; intros w r w' Hrun.
  - inversion Hrun; subst. auto.
  - cbn [scan_batch] in Hrun. unfold bind at 1, cache_setitem in Hrun.
    destruct (TTLCache.setitem _ _ _ _) as [c|] eqn:Hset.
    + apply CacheFacts.setitem_params in Hset. destruct Hset as (Hm & Ht).
      destruct (String.eqb _ _).
      * inversion Hrun; subst. cbn. auto.
      * apply IH in Hrun. cbn in Hrun. destruct Hrun as (? & ? & ? & ?).
        repeat split; congruence.
    + inversion Hrun; subst. auto.
Qed.

(** It raises only what storing raises. *)
Lemma scan_batch_err batch : forall (w : World F) e w',
  scan_batch subfeddit_title batch w = Some (Err e, w') ->
  e = ValueError "value too large".
Proof.
  induction batch as [|s rest IH]; intros w e w' Hrun; [discriminate|].
  cbn [scan_batch] in Hrun. unfold bind at 1, cache_setitem in Hrun.
  destruct (TTLCache.setitem _ _ _ _) as [c|].
  - destruct (String.eqb _ _); [discriminate|]. eapply IH, Hrun.
  - now inversion Hrun.
Qed.

(** When it ends without a match, it has stored the whole batch. *)
Lemma scan_batch_stored deadline batch : forall done (w : World F) w',
  scan_batch subfeddit_title batch w = Some (Ok None, w') ->
  stored deadline done (TTLCache.links (subfeddit_cache w)) ->
  NoDup (map SubfedditInfo.title (done ++ batch)) ->
  len (done ++ batch) <= TTLCache.maxsize (subfeddit_cache w) ->
  (clock w < deadline)%Q ->
  (deadline <= clock w + TTLCache.ttl (subfeddit_cache w))%Q ->
  stored deadline (done ++ batch) (TTLCache.links (subfeddit_cache w')).
Proof.
  induction batch as [|s rest IH]; intros done w w' Hrun Hst Hnd Hlen Hclock Hdead.
  - inversion Hrun; subst. now rewrite app_nil_r.
  - cbn [scan_batch] in Hrun. unfold bind at 1, cache_setitem in Hrun.
    destruct (@CacheFacts.setitem_stored deadline done s (clock w) (subfeddit_cache w))
      as (c' & Hset & Hm & Ht & Hst'); try assumption.
    + rewrite map_app in Hnd. apply NoDup_remove_2 in Hnd.
      intros Hin. apply Hnd. apply in_or_app. now left.
    + unfold len in *. rewrite length_app in Hlen. simpl in Hlen. lia.
    + rewrite Hset in Hrun.
      destruct (String.eqb _ _); [discriminate|].
      replace (done ++ s :: rest) with ((done ++ [s]) ++ rest) in *
        by (rewrite <- app_assoc; reflexivity).
      eapply IH; [exact Hrun| | | | |]; cbn [subfeddit_cache clock]; try assumption.
      * rewrite Hm. exact Hlen.
      * rewrite Ht. exact Hdead.
Qed.

Hypothesis elapsed_nonneg :
  forall skip limit, (0 <= elapsed (get_subfeddits feddit_client skip limit))%Q.

(** A run of the full search that ends with an [HTTPException] has
    stored every batch it received, entirely. *)
Lemma search_subfeddits_run fuel : forall skip (w : World F) r w',
  search_subfeddits fuel subfeddit_title feddit_client skip w = Some (r, w') ->
  exists events,
    trace w' = trace w ++ events /\
    (clock w <= clock w')%Q /\
    TTLCache.maxsize (subfeddit_cache w') = TTLCache.maxsize (subfeddit_cache w) /\
    TTLCache.ttl (subfeddit_cache w') = TTLCache.ttl (subfeddit_cache w) /\
    forall code detail, r = Err (HTTPException code detail) ->
    forall deadline done,
      stored deadline done (TTLCache.links (subfeddit_cache w)) ->
      NoDup (map SubfedditInfo.title (done ++ fetched_subfeddits events)) ->
      len (done ++ fetched_subfeddits events) <= TTLCache.maxsize (subfeddit_cache w) ->
      (clock w' < deadline)%Q ->
      (deadline <= clock w + TTLCache.ttl (subfeddit_cache w))%Q ->
      stored deadline (done ++ fetched_subfeddits events)
             (TTLCache.links (subfeddit_cache w')).
Proof.
  induction fuel as [|fuel IH]; intros skip w r w' Hrun; [discriminate|].
  cbn [search_subfeddits] in Hrun. rewrite bind_await in Hrun.
  set (reply := get_subfeddits feddit_client skip _QUERY_BATCH_SIZE) in *.
  assert (Hel := elapsed_nonneg skip _QUERY_BATCH_SIZE). fold reply in Hel.
  set (w1 := after_await (GetSubfeddits skip _QUERY_BATCH_SIZE) reply w) in *.
  assert (Hw1c : clock w1 = (clock w + elapsed reply)%Q) by reflexivity.
  assert (Hw1s : subfeddit_cache w1 = subfeddit_cache w) by reflexivity.
  assert (Hw1t : trace w1 = trace w ++ [GetSubfeddits skip _QUERY_BATCH_SIZE (outcome reply)])
    by reflexivity.
  destruct (outcome reply) as [batch|e] eqn:Hreply.
  - apply bind_inv in Hrun.
    destruct Hrun as [(found & w2 & Hscan & Hk)|(e & Hscan & ->)].
    + destruct (scan_batch_frame _ _ Hscan) as (Hc2 & Ht2 & Hm2 & Httl2).
      destruct found as [id|].
      * inversion Hk; subst r w'.
        exists [GetSubfeddits skip _QUERY_BATCH_SIZE (Ok batch)].
        split; [congruence|]. split; [rewrite Hc2, Hw1c; lra|].
        split; [congruence|]. split; [congruence|]. intros ? ? [=].
      * destruct (len batch <? _QUERY_BATCH_SIZE).
        -- inversion Hk; subst r w'.
           exists [GetSubfeddits skip _QUERY_BATCH_SIZE (Ok batch)].
           split; [congruence|]. split; [rewrite Hc2, Hw1c; lra|].
           split; [congruence|]. split; [congruence|].
           intros code detail _ deadline done Hst Hnd Hlen Hclock Hdead.
           unfold fetched_subfeddits in *. cbn in Hnd, Hlen |- *.
           rewrite app_nil_r in *.
           eapply scan_batch_stored; [exact Hscan| | | | |]; rewrite ?Hw1s, ?Hw1c;
             try assumption.
           ++ rewrite <- Hw1c, <- Hc2. exact Hclock.
           ++ lra.
        -- apply IH in Hk.
           destruct Hk as (events & Ht & Hc & Hm & Httl & Hstored).
           exists (GetSubfeddits skip _QUERY_BATCH_SIZE (Ok batch) :: events).
           split; [rewrite Ht, Ht2, Hw1t, <- app_assoc; reflexivity|].
           split; [rewrite Hc2, Hw1c in Hc; lra|].
           split; [congruence|]. split; [congruence|].
           intros code detail Hr deadline done Hst Hnd Hlen Hclock Hdead.
           unfold fetched_subfeddits in *. cbn [subfeddit_batches flat_map] in *.
           cbn [app List.concat] in *.
           fold (subfeddit_batches events) in *.
           rewrite app_assoc in *.
           eapply (Hstored code detail Hr); try assumption.
           ++ eapply scan_batch_stored; [exact Hscan| | | | |]; rewrite ?Hw1s, ?Hw1c.
              ** exact Hst.
              ** rewrite map_app in Hnd. apply NoDup_app_remove_r in Hnd. exact Hnd.
              ** unfold len in *. rewrite length_app in Hlen. lia.
              ** rewrite <- Hw1c, <- Hc2. lra.
              ** lra.
           ++ rewrite Hm2, Hw1s. exact Hlen.
           ++ rewrite Hc2, Hw1c, Httl2, Hw1s. lra.
    + destruct (scan_batch_frame _ _ Hscan) as (Hc2 & Ht2 & Hm2 & Httl2).
      exists [GetSubfeddits skip _QUERY_BATCH_SIZE (Ok batch)].
      split; [congruence|]. split; [rewrite Hc2, Hw1c; lra|].
      split; [congruence|]. split; [congruence|].
      intros code detail Hr. apply scan_batch_err in Hscan. congruence.
  - inversion Hrun; subst r w'.
    exists [GetSubfeddits skip _QUERY_BATCH_SIZE (Err e)].
    split; [exact Hw1t|]. split; [rewrite Hw1c; lra|].
    split; [congruence|]. split; [congruence|].
    intros code detail _ deadline done Hst Hnd Hlen Hclock Hdead.
    unfold fetched_subfeddits. cbn. rewrite app_nil_r. exact Hst.
Qed.

Hypothesis info_elapsed_nonneg :
  forall id, (0 <= elapsed (get_subfeddit_info feddit_client id))%Q.

Lemma subfeddit_batches_app (e1 e2 : list (Event F)) :
  subfeddit_batches (e1 ++ e2) = subfeddit_batches e1 ++ subfeddit_batches e2.
Proof. apply flat_map_app. Qed.

(** Checking the cached id fetches no batch of subfeddits. *)
Lemma revalidate_cached_run (w : World F) r w' :
  revalidate_cached subfeddit_title feddit_client w = Some (r, w') ->
  exists events,
    trace w' = trace w ++ events /\
    subfeddit_batches events = [] /\
    (clock w <= clock w')%Q /\
    TTLCache.maxsize (subfeddit_cache w') = TTLCache.maxsize (subfeddit_cache w) /\
    TTLCache.ttl (subfeddit_cache w') = TTLCache.ttl (subfeddit_cache w).
Proof.
  unfold revalidate_cached. unfold bind at 1, cache_getitem.
  destruct (CacheFacts.getitem_params (clock w) subfeddit_title (subfeddit_cache w))
    as (Hm & Ht).
  destruct (TTLCache.getitem _ _ _) as [v c]. cbn [snd] in Hm, Ht.
  destruct v as [cached_id|].
  - unfold except_NotFoundError. rewrite bind_await.
    set (reply := get_subfeddit_info feddit_client cached_id).
    assert (Hel := info_elapsed_nonneg cached_id). fold reply in Hel.
    set (w1 := after_await (GetSubfedditInfo cached_id) reply _).
    assert (Hw1 : trace w1 = trace w ++ [GetSubfedditInfo cached_id (outcome reply)] /\
                  (clock w <= clock w1)%Q /\
                  TTLCache.maxsize (subfeddit_cache w1) = TTLCache.maxsize (subfeddit_cache w) /\
                  TTLCache.ttl (subfeddit_cache w1) = TTLCache.ttl (subfeddit_cache w)).
    { subst w1. unfold after_await. cbn. repeat split; auto. lra. }
    destruct Hw1 as (Hw1t & Hw1c & Hw1m & Hw1l).
    assert (Hdone : forall r0, Some (r0, w1) = Some (r, w') ->
      exists events,
        trace w' = trace w ++ events /\ subfeddit_batches events = [] /\
        (clock w <= clock w')%Q /\
        TTLCache.maxsize (subfeddit_cache w') = TTLCache.maxsize (subfeddit_cache w) /\
        TTLCache.ttl (subfeddit_cache w') = TTLCache.ttl (subfeddit_cache w)).
    { intros r0 [= _ <-]. exists [GetSubfedditInfo cached_id (outcome reply)].
      repeat split; try assumption; congruence. }
    destruct (outcome reply) as [[]|e] eqn:Hreply; [apply Hdone|].
    destruct e as [| | | | |kind|kind| | |]; try apply Hdone.
    destruct kind; try apply Hdone.
    unfold bind, cache_delitem.
    destruct (CacheFacts.delitem_params (clock w1) subfeddit_title (subfeddit_cache w1))
      as (Hm2 & Ht2).
    destruct (TTLCache.delitem _ _ _) as [ok c2]. cbn [snd] in Hm2, Ht2.
    assert (Hend : forall r0, Some (r0, mkWorld (clock w1) c2 (trace w1)) = Some (r, w') ->
      exists events,
        trace w' = trace w ++ events /\ subfeddit_batches events = [] /\
        (clock w <= clock w')%Q /\
        TTLCache.maxsize (subfeddit_cache w') = TTLCache.maxsize (subfeddit_cache w) /\
        TTLCache.ttl (subfeddit_cache w') = TTLCache.ttl (subfeddit_cache w)).
    { intros r0 [= _ <-]. exists [GetSubfedditInfo cached_id (outcome reply)].
      cbn [trace clock subfeddit_cache].
      repeat split; try assumption; congruence. }
    destruct ok; apply Hend.
  - intros [= <- <-]. exists []. cbn. rewrite app_nil_r. repeat split; auto. lra.
Qed.

(** C10, as amended.  When [get_subfeddit_id] ends with its not-found
    error, nothing it stored in the cache is taken back.  Every
    (title, id) pair of every batch it received is then in the cache,
    provided that no title was received twice, that at most 1000 pairs
    (the capacity of the cache) were received, and that the search took
    less than 600 seconds (the time to live of an entry), replies taking
    no negative time. *)
Theorem failed_search_keeps_entries fuel (w : World F) detail w' :
  get_subfeddit_id fuel subfeddit_title feddit_client w
    = Some (Err (HTTPException 404 detail), w') ->
  TTLCache.maxsize (subfeddit_cache w) = _CACHE_MAX_SIZE ->
  TTLCache.ttl (subfeddit_cache w) = _CACHE_TTL ->
  exists events,
    trace w' = trace w ++ events /\
    (NoDup (map SubfedditInfo.title (fetched_subfeddits events)) ->
     len (fetched_subfeddits events) <= 1000 ->
     (clock w' < clock w + 600)%Q ->
     forall s, In s (fetched_subfeddits events) ->
       TTLCache.lookup (clock w') (SubfedditInfo.title s) (subfeddit_cache w')
       = Some (SubfedditInfo.id s)).
Proof.
  intros Hrun Hmax Httl. unfold get_subfeddit_id in Hrun.
  unfold bind at 1, cache_contains in Hrun.
  assert (Hsearch : forall w1 events1,
            trace w1 = trace w ++ events1 -> subfeddit_batches events1 = [] ->
            (clock w <= clock w1)%Q ->
            TTLCache.maxsize (subfeddit_cache w1) = _CACHE_MAX_SIZE ->
            TTLCache.ttl (subfeddit_cache w1) = _CACHE_TTL ->
            search_subfeddits fuel subfeddit_title feddit_client 0 w1
              = Some (Err (HTTPException 404 detail), w') ->
            exists events,
              trace w' = trace w ++ events /\
              (NoDup (map SubfedditInfo.title (fetched_subfeddits events)) ->
               len (fetched_subfeddits events) <= 1000 ->
               (clock w' < clock w + 600)%Q ->
               forall s, In s (fetched_subfeddits events) ->
                 TTLCache.lookup (clock w') (SubfedditInfo.title s) (subfeddit_cache w')
                 = Some (SubfedditInfo.id s))).
  { intros w1 events1 Ht1 Hb1 Hc1 Hm1 Hl1 Hs.
    apply search_subfeddits_run in Hs.
    destruct Hs as (events & Ht & Hc & Hm & Hl & Hstored).
    exists (events1 ++ events). split; [rewrite Ht, Ht1, app_assoc; reflexivity|].
    unfold fetched_subfeddits in *. rewrite subfeddit_batches_app, Hb1. cbn [app].
    intros Hnd Hlen Hclock s Hin.
    eapply (@CacheFacts.lookup_stored (clock w + 600)%Q); [|exact Hnd|exact Hin|exact Hclock].
    apply (Hstored 404 detail eq_refl (clock w + 600)%Q []); cbn [app].
    - exists (TTLCache.links (subfeddit_cache w1)), []. rewrite app_nil_r.
      split; [reflexivity|]. split; [|constructor].
      apply Forall_forall. intros l _ [].
    - exact Hnd.
    - rewrite Hm1. unfold _CACHE_MAX_SIZE. exact Hlen.
    - exact Hclock.
    - rewrite Hl1. unfold _CACHE_TTL. lra. }
  destruct (TTLCache.contains _ _ _).
  - apply bind_inv in Hrun. destruct Hrun as [(cached & w1 & Hre & Hk)|(e & Hre & _)].
    + apply revalidate_cached_run in Hre.
      destruct Hre as (events1 & Ht1 & Hb1 & Hc1 & Hm1 & Hl1).
      destruct cached as [id|]; [discriminate|].
      eapply Hsearch; eauto; congruence.
    + apply revalidate_cached_run in Hre.
      destruct Hre as (events1 & Ht1 & Hb1 & _).
      exists events1. split; [exact Ht1|].
      unfold fetched_subfeddits. rewrite Hb1. intros _ _ _ s [].
  - unfold bind at 1, ret at 1 in Hrun.
    eapply (Hsearch w []); eauto; try (now rewrite app_nil_r); lra.
Qed.

End Search.

(** C10, counterexample.  The source has 1001 subfeddits, none with the
    title asked for.  The search stores them all and fails; the cache
    holds 1000 entries, and the pair of subfeddit 1, which was in the
    batch, is not among them. *)
Lemma oldest_pair_evicted :
  get_subfeddit_id 1 "nowhere" many_subfeddits initial_world
  = Some (Err (HTTPException 404 "Subfeddit with title 'nowhere' not found"),
          world_after_search 2 1000 (map sample_subfeddit (seq 1 1001))) /\
  In (sample_subfeddit 1)
     (fetched_subfeddits
        (trace (world_after_search 2 1000 (map sample_subfeddit (seq 1 1001))))) /\
  TTLCache.lookup 0 (SubfedditInfo.title (sample_subfeddit 1))
    (subfeddit_cache (world_after_search 2 1000 (map sample_subfeddit (seq 1 1001))))
  = None.
Proof.
  split; [vm_compute; reflexivity|]. split.
  - unfold fetched_subfeddits, world_after_search.
    cbn [trace subfeddit_batches flat_map List.concat app].
    apply in_or_app. left.
    apply in_map_iff. exists 1%nat. split; [reflexivity|]. apply in_seq. lia.
  - vm_compute. reflexivity.
Qed.

(** C10, witness: two subfeddits, neither with the title asked for. *)
Lemma failed_search_keeps_entries_witness :
  (get_subfeddit_id 1 "nowhere" two_subfeddits initial_world
   = Some (Err (HTTPException 404 "Subfeddit with title 'nowhere' not found"),
           world_after_search 1 2 [sample_subfeddit 1; sample_subfeddit 2]) /\
   TTLCache.maxsize (subfeddit_cache (initial_world (F:=float))) = _CACHE_MAX_SIZE /\
   TTLCache.ttl (subfeddit_cache (initial_world (F:=float))) = _CACHE_TTL) /\
  TTLCache.lookup 0 (SubfedditInfo.title (sample_subfeddit 1))
    (subfeddit_cache (world_after_search 1 2 [sample_subfeddit 1; sample_subfeddit 2]))
  = Some 1 /\
  TTLCache.lookup 0 (SubfedditInfo.title (sample_subfeddit 2))
    (subfeddit_cache (world_after_search 1 2 [sample_subfeddit 1; sample_subfeddit 2]))
  = Some 2.
Proof.
  assert (Hrun : get_subfeddit_id 1 "nowhere" two_subfeddits initial_world
   = Some (Err (HTTPException 404 "Subfeddit with title 'nowhere' not found"),
           world_after_search 1 2 [sample_subfeddit 1; sample_subfeddit 2]))
    by reflexivity.
  split; [split; [exact Hrun|split; reflexivity]|].
  assert (Hel : forall skip limit : Z,
            (0 <= elapsed (get_subfeddits two_subfeddits skip limit))%Q)
    by (intros; cbn; lra).
  assert (Hinfo : forall id : Z, (0 <= elapsed (get_subfeddit_info two_subfeddits id))%Q)
    by (intros; cbn; lra).
  destruct (@failed_search_keeps_entries float "nowhere" two_subfeddits Hel Hinfo
              1 initial_world _ _ Hrun eq_refl eq_refl) as (events & Ht & Hkept).
  apply (app_inv_head (trace (initial_world (F:=float)))) in Ht. subst events.
  assert (Hnd : NoDup (map SubfedditInfo.title
                         (fetched_subfeddits
                            [GetSubfeddits (F:=float) 0 _QUERY_BATCH_SIZE
                               (Ok [sample_subfeddit 1; sample_subfeddit 2])]))).
  { vm_compute. repeat constructor; simpl; intuition discriminate. }
  assert (Hlen : len (fetched_subfeddits
                        [GetSubfeddits (F:=float) 0 _QUERY_BATCH_SIZE
                           (Ok [sample_subfeddit 1; sample_subfeddit 2])]) <= 1000)
    by (vm_compute; discriminate).
  assert (Hclock : (clock (world_after_search 1 2 [sample_subfeddit 1; sample_subfeddit 2])
                    < clock (initial_world (F:=float)) + 600)%Q)
    by (cbn; lra).
  split.
  - apply (Hkept Hnd Hlen Hclock (sample_subfeddit 1)). left. reflexivity.
  - apply (Hkept Hnd Hlen Hclock (sample_subfeddit 2)). right. left. reflexivity.
Defined.

(** * Further properties

    What the code keeps besides: the order and the bounds of the list of
    comments, the requests made to the two collaborators, the errors
    that get through, the title lookup with its cache, the two
    validators on binary64 and the two endpoints. *)

(** ** The comments fetched *)

Section DescendingFacts.

Variables (A : Type) (key : A -> Z).

Lemma descending_app l1 l2 :
  descending key (l1 ++ l2) ->
  forall x y, In x l1 -> In y l2 -> key y <= key x.
Proof.
  induction l1 as [|a l1 IH]; intros H x y Hx Hy; [contradiction|].
  inversion H as [|? ? Hall Hd]; subst. destruct Hx as [->|Hx].
  - rewrite Forall_forall in Hall. apply Hall. apply in_or_app. now right.
  - eapply IH; eassumption.
Qed.

Lemma filter_firstn_prefix (f : A -> bool) n (l : list A) :
  exists later, filter f l = filter f (firstn n l) ++ later.
Proof.
  exists (filter f (skipn n l)). rewrite <- filter_app, firstn_skipn. reflexivity.
Qed.

End DescendingFacts.

Section CommentLoop.

Context {F : Type} {SF : Scalar F}.
Variables (subfeddit_id : Z) (min_datetime max_datetime : option Z).
Variable feddit_client : FedditAPIClient F.

(** X1.  The list [_get_all_comments] returns is in descending order of
    [created_at], and every comment of it lies within the bounds
    [min_datetime] and [max_datetime] that were given. *)
Theorem fetched_comments_newest_first fuel (w : World F) cs w' :
  _get_all_comments fuel subfeddit_id min_datetime max_datetime feddit_client w
    = Some (Ok cs, w') ->
  descending CommentInfo.created_at cs /\
  forall c, In c cs ->
    (forall m, min_datetime = Some m -> m <= CommentInfo.created_at c) /\
    (forall m, max_datetime = Some m -> CommentInfo.created_at c <= m).
Proof.
  intros Hrun. apply get_all_comments_run in Hrun.
  destruct Hrun as (events & _ & _ & _ & Hcs). rewrite (Hcs cs eq_refl).
  unfold window, slice_to. split.
  - apply firstn_descending, sort_descending.
  - intros c Hin. apply (@firstn_In _ CommentInfo.created_at) in Hin.
    apply (Permutation_in _ (sort_perm _ _)) in Hin.
    apply filter_In in Hin. destruct Hin as [_ Hr].
    unfold in_time_range in Hr. apply andb_true_iff in Hr. destruct Hr as [H1 H2].
    split; intros m E; rewrite E in *; lia.
Qed.

(** X2.  The list [_get_all_comments] returns holds the most recent
    of the comments in range that the source returned: no comment left
    out is newer than a comment of the list, and comments are left out
    only when the list is full ([_QUERY_LIMIT] comments). *)
Theorem fetched_comments_most_recent fuel (w : World F) cs w' :
  _get_all_comments fuel subfeddit_id min_datetime max_datetime feddit_client w
    = Some (Ok cs, w') ->
  exists events rest,
    trace w' = trace w ++ events /\
    Permutation (cs ++ rest) (qualifying min_datetime max_datetime events) /\
    (forall x y, In x cs -> In y rest ->
       CommentInfo.created_at y <= CommentInfo.created_at x) /\
    (rest <> [] -> len cs = _QUERY_LIMIT).
Proof.
  intros Hrun. apply get_all_comments_run in Hrun.
  destruct Hrun as (events & Ht & _ & _ & Hcs). rewrite (Hcs cs eq_refl).
  unfold window, slice_to, qualifying.
  set (s := sort_reverse CommentInfo.created_at Z.ltb _).
  exists events, (skipn (Z.to_nat _QUERY_LIMIT) s).
  split; [exact Ht|]. split; [|split].
  - rewrite firstn_skipn. apply sort_perm.
  - apply descending_app. rewrite firstn_skipn. apply sort_descending.
  - intros Hne. unfold len. rewrite length_firstn.
    assert (Z.to_nat _QUERY_LIMIT < List.length s)%nat.
    { destruct (Nat.lt_ge_cases (Z.to_nat _QUERY_LIMIT) (List.length s)) as [H|H]; [exact H|].
      exfalso. apply Hne. apply skipn_all2. exact H. }
    unfold _QUERY_LIMIT in *. lia.
Qed.

(** X3.  Comments of one timestamp stand in the list that
    [_get_all_comments] returns in the order in which the source
    returned them, and the ones cut off are those returned last. *)
Theorem equal_timestamps_keep_fetch_order fuel (w : World F) cs w' :
  _get_all_comments fuel subfeddit_id min_datetime max_datetime feddit_client w
    = Some (Ok cs, w') ->
  exists events,
    trace w' = trace w ++ events /\
    forall t, exists later,
      filter (fun c => CommentInfo.created_at c =? t)
             (qualifying min_datetime max_datetime events)
      = filter (fun c => CommentInfo.created_at c =? t) cs ++ later.
Proof.
  intros Hrun. apply get_all_comments_run in Hrun.
  destruct Hrun as (events & Ht & _ & _ & Hcs). rewrite (Hcs cs eq_refl).
  exists events. split; [exact Ht|]. intros t.
  unfold window, slice_to, qualifying.
  rewrite <- (sort_stable CommentInfo.created_at t
                (filter (in_time_range min_datetime max_datetime)
                        (List.concat (comment_batches events)))).
  apply filter_firstn_prefix.
Qed.


Local Abbreviation full_batch := (fun b : list CommentInfo.t => _QUERY_BATCH_SIZE <= len b).

(** What a run of the loop asks of the source, from [skip] on. *)
Lemma get_all_comments_from_pages fuel : forall skip comments (w : World F) r w',
  get_all_comments_from fuel subfeddit_id min_datetime max_datetime feddit_client
                        skip comments w = Some (r, w') ->
  exists events,
    trace w' = trace w ++ events /\
    comment_requests events
    = map (fun s => (subfeddit_id, skip + s, _QUERY_BATCH_SIZE))
          (page_skips (List.length events)) /\
    (forall cs, r = Ok cs ->
       exists full last,
         comment_batches events = full ++ [last] /\
         Forall full_batch full /\ len last < _QUERY_BATCH_SIZE /\
         List.length events = S (List.length full)) /\
    (forall e, r = Err e ->
       Forall full_batch (comment_batches events) /\
       exists before skip',
         events = before ++ [GetSubfedditComments subfeddit_id skip' _QUERY_BATCH_SIZE (Err e)]).
Proof.
  induction fuel as [|fuel IH]; intros skip comments w r w' Hrun; [discriminate|].
  cbn [get_all_comments_from] in Hrun. rewrite bind_await in Hrun.
  destruct (outcome (get_subfeddit_comments feddit_client subfeddit_id skip _QUERY_BATCH_SIZE))
    as [batch|e] eqn:Hreply.
  - destruct (len batch <? _QUERY_BATCH_SIZE) eqn:Hstop.
    + inversion Hrun; subst; clear Hrun. unfold after_await; cbn [trace].
      eexists. split; [reflexivity|]. rewrite Hreply. split; [|split].
      * unfold page_skips. cbn [comment_requests flat_map app List.length seq map].
        replace (skip + _QUERY_BATCH_SIZE * Z.of_nat 0) with skip by lia. reflexivity.
      * intros cs _. exists [], batch. cbn. repeat split; try constructor. lia.
      * intros e [=].
    + apply IH in Hrun. destruct Hrun as (events & Htr & Hreq & Hok & Herr).
      unfold after_await in Htr; cbn [trace] in Htr.
      exists (GetSubfedditComments subfeddit_id skip _QUERY_BATCH_SIZE
                (outcome (get_subfeddit_comments feddit_client subfeddit_id skip
                            _QUERY_BATCH_SIZE)) :: events).
      rewrite Htr, <- app_assoc, Hreply. split; [reflexivity|]. split; [|split].
      * cbn [comment_requests flat_map app List.length]. fold (comment_requests events).
        rewrite Hreq. unfold page_skips. cbn [seq map].
        replace (skip + _QUERY_BATCH_SIZE * Z.of_nat 0) with skip by lia. f_equal.
        rewrite <- seq_shift, !map_map. apply map_ext. intros i.
        do 2 f_equal. lia.
      * intros cs Hr. destruct (Hok cs Hr) as (full & last & Hb & Hfull & Hlast & Hlen).
        exists (batch :: full), last. cbn [comment_batches flat_map app].
        fold (comment_batches events). rewrite Hb. repeat split; try assumption.
        -- constructor; [lia|exact Hfull].
        -- cbn [List.length]. now rewrite Hlen.
      * intros e Hr. destruct (Herr e Hr) as (Hfull & before & skip' & Hev). split.
        -- cbn [comment_batches flat_map app]. fold (comment_batches events).
           constructor; [lia|exact Hfull].
        -- exists (GetSubfedditComments subfeddit_id skip _QUERY_BATCH_SIZE (Ok batch) :: before),
                  skip'. rewrite Hev. reflexivity.
  - inversion Hrun; subst; clear Hrun. unfold after_await; cbn [trace].
    eexists. split; [reflexivity|]. rewrite Hreply. split; [|split].
    * unfold page_skips. cbn [comment_requests flat_map app List.length seq map].
      replace (skip + _QUERY_BATCH_SIZE * Z.of_nat 0) with skip by lia. reflexivity.
    * intros cs [=].
    * intros e' [= <-]. split; [constructor|]. exists [], skip. reflexivity.
Qed.

(** X4.  The requests of [_get_all_comments].  It asks the source for
    the comments of its subfeddit only, page after page: [skip] is 0,
    5000, 10000, ... and [limit] is 5000.  When it returns, every page
    but the last held 5000 comments or more and the last one fewer;
    when it raises, every page received was such a full one and the
    error is what the last request raised. *)
Theorem comment_pages_requested fuel (w : World F) r w' :
  _get_all_comments fuel subfeddit_id min_datetime max_datetime feddit_client w
    = Some (r, w') ->
  exists events,
    trace w' = trace w ++ events /\
    comment_requests events
    = map (fun skip => (subfeddit_id, skip, _QUERY_BATCH_SIZE))
          (page_skips (List.length events)) /\
    (forall cs, r = Ok cs ->
       exists full last,
         comment_batches events = full ++ [last] /\
         Forall full_batch full /\ len last < _QUERY_BATCH_SIZE /\
         List.length events = S (List.length full)) /\
    (forall e, r = Err e ->
       Forall full_batch (comment_batches events) /\
       exists before skip,
         events = before ++ [GetSubfedditComments subfeddit_id skip _QUERY_BATCH_SIZE (Err e)]).
Proof.
  intros Hrun. apply get_all_comments_from_pages in Hrun.
  destruct Hrun as (events & Ht & Hreq & Hok & Herr).
  exists events. split; [exact Ht|]. split; [|split; assumption].
  rewrite Hreq. apply map_ext. intros s. reflexivity.
Qed.

End CommentLoop.

Section Orchestrator.

Context {F : Type} {SF : Scalar F}.
Variables (subfeddit_id : Z) (min_datetime max_datetime : option Z).
Variable feddit_client : FedditAPIClient F.
Variables (sort_by_polarity : bool) (sentiment_analyzer : SentimentAnalyzer F).

(** Every run of the orchestrator that ends: the fetch, and then at
    most one call of the scorer. *)
Lemma analyze_run_cases fuel (w : World F) r w' :
  analyze_comments_sentiment fuel subfeddit_id min_datetime max_datetime sort_by_polarity
                             feddit_client sentiment_analyzer w = Some (r, w') ->
  (exists e,
     r = Err e /\
     _get_all_comments fuel subfeddit_id min_datetime max_datetime feddit_client w
     = Some (Err e, w')) \/
  (r = Ok [] /\
   _get_all_comments fuel subfeddit_id min_datetime max_datetime feddit_client w
   = Some (Ok [], w')) \/
  (exists cs w1,
     _get_all_comments fuel subfeddit_id min_datetime max_datetime feddit_client w
     = Some (Ok cs, w1) /\
     cs <> [] /\
     let reply := analyze_sentiment sentiment_analyzer (map CommentInfo.text cs) 60 in
     w' = after_await (AnalyzeSentiment (map CommentInfo.text cs) 60) reply w1 /\
     match outcome reply with
     | Ok sentiments => r = Ok (responses_of sort_by_polarity cs sentiments)
     | Err e => r = Err e
     end).
Proof.
  intros Hrun. unfold analyze_comments_sentiment in Hrun.
  apply bind_inv in Hrun. destruct Hrun as [(cs & w1 & Hget & Hk)|(e & Hget & ->)].
  - destruct cs as [|c cs].
    + right. left. inversion Hk; subst. auto.
    + right. right. exists (c :: cs), w1. split; [exact Hget|]. split; [discriminate|].
      rewrite bind_await in Hk. cbv zeta.
      destruct (outcome (analyze_sentiment sentiment_analyzer _ 60)) as [sentiments|e];
        inversion Hk; subst; auto.
  - left. exists e. inversion Hget; subst. auto.
Qed.

(** X6.  [analyze_comments_sentiment] raises nothing of its own.  An
    error it ends with was raised by the last call it awaited: a
    request for comments, and then the scorer was never called, or the
    call of the scorer. *)
Theorem orchestrator_raises_collaborator_errors fuel (w : World F) e w' :
  analyze_comments_sentiment fuel subfeddit_id min_datetime max_datetime sort_by_polarity
                             feddit_client sentiment_analyzer w = Some (Err e, w') ->
  exists events,
    trace w' = trace w ++ events /\
    ((exists before skip,
        events = before ++ [GetSubfedditComments subfeddit_id skip _QUERY_BATCH_SIZE (Err e)] /\
        scorer_calls events = []) \/
     (exists before statements,
        events = before ++ [AnalyzeSentiment statements 60 (Err e)] /\
        scorer_calls before = [])).
Proof.
  intros Hrun. apply analyze_run_cases in Hrun.
  destruct Hrun as [(e' & [= <-] & Hget)|[[[=] _]|(cs & w1 & Hget & Hne & Hw & Hr)]].
  - destruct (get_all_comments_run _ _ _ _ _ _ Hget) as (events0 & Ht0 & _ & Hs0 & _).
    unfold _get_all_comments in Hget. apply get_all_comments_from_pages in Hget.
    destruct Hget as (events & Ht & _ & _ & Herr).
    assert (events0 = events) by (apply (app_inv_head (trace w)); congruence). subst events0.
    exists events. split; [exact Ht|]. left.
    destruct (Herr e eq_refl) as (_ & before & skip & Hev).
    exists before, skip. split; assumption.
  - cbv zeta in Hw, Hr.
    destruct (get_all_comments_run _ _ _ _ _ _ Hget) as (events & Ht & _ & Hs & _).
    destruct (outcome (analyze_sentiment sentiment_analyzer (map CommentInfo.text cs) 60))
      as [sentiments|e'] eqn:Hreply; [discriminate|]. injection Hr as <-.
    exists (events ++ [AnalyzeSentiment (map CommentInfo.text cs) 60 (Err e)]).
    subst w'. unfold after_await. cbn [trace]. rewrite Ht, Hreply, <- app_assoc.
    split; [reflexivity|]. right. exists events, (map CommentInfo.text cs). auto.
Qed.

(** X7.  [analyze_comments_sentiment] calls the scorer at most once:
    after the last request for comments, with the texts of the window
    in the window's order and the timeout 60.  It does not call it when
    the window is empty or fetching raised. *)
Theorem scorer_called_once_with_window fuel (w : World F) r w' :
  analyze_comments_sentiment fuel subfeddit_id min_datetime max_datetime sort_by_polarity
                             feddit_client sentiment_analyzer w = Some (r, w') ->
  exists events,
    trace w' = trace w ++ events /\
    let cs := window min_datetime max_datetime (List.concat (comment_batches events)) in
    (scorer_calls events = [] /\ (cs = [] \/ exists e, r = Err e)) \/
    (exists fetches reply,
       events = fetches ++ [AnalyzeSentiment (map CommentInfo.text cs) 60 reply] /\
       scorer_calls fetches = [] /\ cs <> []).
Proof.
  intros Hrun. apply analyze_run_cases in Hrun.
  destruct Hrun as [(e & -> & Hget)|[[-> Hget]|(cs & w1 & Hget & Hne & Hw & Hr)]].
  - destruct (get_all_comments_run _ _ _ _ _ _ Hget) as (events & Ht & _ & Hs & _).
    exists events. split; [exact Ht|]. left. split; [exact Hs|]. right. eauto.
  - destruct (get_all_comments_run _ _ _ _ _ _ Hget) as (events & Ht & _ & Hs & Hcs).
    exists events. split; [exact Ht|]. left. split; [exact Hs|]. left.
    symmetry. apply Hcs. reflexivity.
  - cbv zeta in Hw, Hr.
    destruct (get_all_comments_run _ _ _ _ _ _ Hget) as (events & Ht & _ & Hs & Hcs).
    specialize (Hcs cs eq_refl).
    set (reply := analyze_sentiment sentiment_analyzer (map CommentInfo.text cs) 60) in *.
    exists (events ++ [AnalyzeSentiment (map CommentInfo.text cs) 60 (outcome reply)]).
    subst w'. unfold after_await. cbn [trace]. rewrite Ht, <- app_assoc.
    split; [reflexivity|]. right.
    assert (Hb : comment_batches
                   (events ++ [AnalyzeSentiment (map CommentInfo.text cs) 60 (outcome reply)])
                 = comment_batches events).
    { unfold comment_batches. rewrite flat_map_app. cbn. apply app_nil_r. }
    cbv zeta. rewrite Hb, <- Hcs. exists events, (outcome reply). auto.
Qed.

End Orchestrator.

(** *** Concrete runs *)

(** X1, witness: three comments, the oldest one before [min_datetime]. *)
Lemma fetched_comments_newest_first_witness :
  _get_all_comments 1 7 (Some 150) None three_comments initial_world
  = Some (Ok [sample_comment 2 300; sample_comment 3 200],
          world_after_fetching 7 [three_page]) /\
  descending CommentInfo.created_at [sample_comment 2 300; sample_comment 3 200].
Proof.
  assert (Hrun : _get_all_comments 1 7 (Some 150) None three_comments initial_world
                 = Some (Ok [sample_comment 2 300; sample_comment 3 200],
                         world_after_fetching 7 [three_page]))
    by reflexivity.
  split; [exact Hrun|].
  exact (proj1 (fetched_comments_newest_first _ _ _ _ _ _ Hrun)).
Defined.

(** X2, witness: three comments on one page. *)
Lemma fetched_comments_most_recent_witness :
  _get_all_comments 1 7 None None three_comments initial_world
  = Some (Ok three_sorted, world_after_fetching 7 [three_page]) /\
  exists rest,
    Permutation (three_sorted ++ rest) (qualifying None None (fetch_events 7 0 [three_page])).
Proof.
  assert (Hrun : _get_all_comments 1 7 None None three_comments initial_world
                 = Some (Ok three_sorted, world_after_fetching 7 [three_page]))
    by reflexivity.
  split; [exact Hrun|].
  destruct (fetched_comments_most_recent _ _ _ _ _ _ Hrun) as (events & rest & Ht & Hp & _).
  apply (app_inv_head (trace (initial_world (F:=float)))) in Ht. subst events.
  exists rest. exact Hp.
Defined.

(** X3, witness: the same run, at the timestamp 300. *)
Lemma equal_timestamps_keep_fetch_order_witness :
  _get_all_comments 1 7 None None three_comments initial_world
  = Some (Ok three_sorted, world_after_fetching 7 [three_page]) /\
  exists later,
    filter (fun c => CommentInfo.created_at c =? 300)
           (qualifying None None (fetch_events 7 0 [three_page]))
    = filter (fun c => CommentInfo.created_at c =? 300) three_sorted ++ later.
Proof.
  assert (Hrun : _get_all_comments 1 7 None None three_comments initial_world
                 = Some (Ok three_sorted, world_after_fetching 7 [three_page]))
    by reflexivity.
  split; [exact Hrun|].
  destruct (equal_timestamps_keep_fetch_order _ _ _ _ _ _ Hrun) as (events & Ht & Hf).
  apply (app_inv_head (trace (initial_world (F:=float)))) in Ht. subst events.
  exact (Hf 300).
Defined.

(** X4, witness: 5001 comments, fetched in two requests. *)
Lemma comment_pages_requested_witness :
  _get_all_comments 2 7 None None paged_5000_1 initial_world
  = Some (Ok newest_25, world_after_fetching 7 [full_page; [sample_comment 5001 50]]) /\
  comment_requests (fetch_events 7 0 [full_page; [sample_comment 5001 50]])
  = [(7, 0, 5000); (7, 5000, 5000)].
Proof.
  assert (Hrun : _get_all_comments 2 7 None None paged_5000_1 initial_world
                 = Some (Ok newest_25,
                         world_after_fetching 7 [full_page; [sample_comment 5001 50]]))
    by (vm_compute; reflexivity).
  split; [exact Hrun|].
  destruct (comment_pages_requested _ _ _ _ _ _ Hrun) as (events & Ht & Hreq & _).
  apply (app_inv_head (trace (initial_world (F:=float)))) in Ht. subst events.
  refine (eq_trans Hreq _). vm_compute. reflexivity.
Defined.

(** X6, witness: three comments and a scorer that is down. *)
Lemma orchestrator_raises_collaborator_errors_witness :
  analyze_comments_sentiment 1 7 None None false three_comments failing_analyzer initial_world
  = Some (Err (ModelAPIError InternalServerError),
          mkWorld 0 (TTLCache.new _CACHE_MAX_SIZE _CACHE_TTL)
            (fetch_events 7 0 [three_page]
             ++ [AnalyzeSentiment ["text"; "text"; "text"]%string 60
                   (Err (ModelAPIError InternalServerError))])) /\
  exists events,
    events = fetch_events 7 0 [three_page]
             ++ [AnalyzeSentiment ["text"; "text"; "text"]%string 60
                   (Err (ModelAPIError InternalServerError))] /\
    ((exists before skip,
        events = before ++ [GetSubfedditComments 7 skip _QUERY_BATCH_SIZE
                              (Err (ModelAPIError InternalServerError))] /\
        scorer_calls events = []) \/
     (exists before statements,
        events = before ++ [AnalyzeSentiment statements 60
                              (Err (ModelAPIError InternalServerError))] /\
        scorer_calls before = [])).
Proof.
  match goal with |- ?run /\ _ => assert (Hrun : run) by reflexivity end.
  split; [exact Hrun|].
  destruct (orchestrator_raises_collaborator_errors _ _ _ _ _ _ _ _ Hrun)
    as (events & Ht & H).
  apply (app_inv_head (trace (initial_world (F:=float)))) in Ht. subst events.
  eexists. split; [reflexivity|exact H].
Defined.

(** X7, witness: three comments, one call of the scorer. *)
Lemma scorer_called_once_with_window_witness :
  analyze_comments_sentiment 1 7 None None false three_comments one_analysis initial_world
  = Some (Ok one_response,
          world_after_scoring (world_after_fetching 7 [three_page])
                              ["text"; "text"; "text"]%string
                              [mkSentimentAnalysis "text" 0.5%float POSITIVE]) /\
  exists fetches reply,
    trace (world_after_scoring (world_after_fetching 7 [three_page])
                               ["text"; "text"; "text"]%string
                               [mkSentimentAnalysis "text" 0.5%float POSITIVE])
    = fetches ++ [AnalyzeSentiment (map CommentInfo.text three_sorted) 60 reply] /\
    scorer_calls fetches = [].
Proof.
  match goal with |- ?run /\ _ => assert (Hrun : run) by reflexivity end.
  split; [exact Hrun|].
  destruct (scorer_called_once_with_window _ _ _ _ _ _ _ _ Hrun) as (events & Ht & H).
  apply (app_inv_head (trace (initial_world (F:=float)))) in Ht. subst events.
  destruct H as [[Hnone _]|(fetches & reply & Hev & Hs & _)]; [discriminate Hnone|].
  exists fetches, reply. split; [exact Hev|exact Hs].
Defined.

(** ** The analysis of validated outputs *)

Unset Implicit Arguments.

(** The difference of two non-negative values has the sign of the
    comparison of the two. *)
Lemma SFsub_sign x y :
  nonneg x -> nonneg y ->
  ((SFval y <= SFval x)%Q -> (0 <= SFval (SFsub x y))%Q) /\
  ((SFval x <= SFval y)%Q -> (SFval (SFsub x y) <= 0)%Q).
Proof.
  intros Nx Ny.
  destruct (nonneg_cases x Nx) as [[Zx [sx ->]]|(mx & ex & -> & Cx & Hex & Ex)];
  destruct (nonneg_cases y Ny) as [[Zy [sy ->]]|(my & ey & -> & Cy & Hey & Ey)].
  - assert (E : exists s, SFsub (S754_zero sx) (S754_zero sy) = S754_zero s)
      by (destruct sx, sy; cbn; eauto).
    destruct E as [s ->].
    assert (Zr : (SFval (S754_zero s) == 0)%Q) by (destruct s; reflexivity).
    rewrite Zr. split; intros; lra.
  - pose proof (val_pos _ ey (proj1 Cy)) as P. cbn [SpecFloat.SFsub negb].
    assert (Er : (SFval (S754_finite true my ey) == - val (Z.pos my) ey)%Q) by reflexivity.
    rewrite Er, Ey, Zx. split; intros; [exfalso|]; lra.
  - pose proof (val_pos _ ex (proj1 Cx)) as P. cbn [SpecFloat.SFsub].
    rewrite Ex, Zy. split; intros; [|exfalso]; lra.
  - destruct (SFsub_finite false mx ex false my ey) as (M & ez & -> & EM).
    pose proof (val_pos _ ex (proj1 Cx)) as Px'. pose proof (val_pos _ ey (proj1 Cy)) as Py'.
    rewrite Ex, Ey in *.
    destruct M as [|p|p]; cbn [SpecFloat.binary_normalize].
    + change (SFval (S754_zero false)) with 0%Q. split; intros; apply Qle_refl.
    + pose proof (val_pos (Z.pos p) ez ltac:(lia)) as P.
      destruct (binary_round_upper false p ez _ _ Cx Hex ltac:(lra)) as (_ & _ & S & _).
      rewrite (SFval_nonneg_sign _ S).
      pose proof (mag_nonneg (binary_round false p ez)).
      split; intros; [|exfalso]; lra.
    + pose proof (val_pos (Z.pos p) ez ltac:(lia)) as P.
      assert (EN : (val (Z.pos p) ez == - val (Z.neg p) ez)%Q)
        by (rewrite <- val_opp; reflexivity).
      destruct (binary_round_upper true p ez _ _ Cy Hey ltac:(lra)) as (_ & _ & S & _).
      pose proof (mag_nonneg (binary_round true p ez)).
      unfold SFval. rewrite S. cbn [sval].
      split; intros; [exfalso|]; lra.
Qed.

(** The quotient by a positive value of at least the magnitude of the
    dividend has the sign of the dividend, or is zero. *)
Lemma SFdiv_sign a b :
  valid_binary a = true -> is_finite a = true ->
  valid_binary b = true -> is_finite b = true ->
  (0 < SFval b)%Q -> (- SFval b <= SFval a)%Q -> (SFval a <= SFval b)%Q ->
  ((0 <= SFval a)%Q -> (0 <= SFval (SFdiv a b))%Q) /\
  ((SFval a <= 0)%Q -> (SFval (SFdiv a b) <= 0)%Q).
Proof.
  intros Va Fa Vb Fb Pb Lo Hi.
  destruct b as [sb| | |sb mb eb]; try discriminate.
  { exfalso. destruct sb; cbn in Pb; lra. }
  pose proof (bounded_canon _ _ Vb) as [Cb Hb].
  pose proof (val_pos _ eb (proj1 Cb)) as Pvb.
  destruct sb; [exfalso; unfold SFval in Pb; cbn [sign_of mag sval] in Pb; lra|].
  change (SFval (S754_finite false mb eb)) with (val (Z.pos mb) eb) in *.
  destruct a as [sa| | |sa ma ea]; try discriminate.
  { cbn [SpecFloat.SFdiv].
    assert (Zr : (SFval (S754_zero (xorb sa false)) == 0)%Q) by (destruct sa; reflexivity).
    rewrite Zr. split; intros; lra. }
  pose proof (bounded_canon _ _ Va) as [Ca Ha].
  pose proof (val_pos _ ea (proj1 Ca)) as Pva.
  assert (Ea : (SFval (S754_finite sa ma ea) == sval sa (val (Z.pos ma) ea))%Q) by reflexivity.
  assert (Hab : (val (Z.pos ma) ea <= val (Z.pos mb) eb)%Q).
  { rewrite Ea in Lo, Hi. destruct sa; cbn [sval] in *; lra. }
  cbn [SpecFloat.SFdiv].
  destruct (div_core_spec ma ea mb eb) as (q & e' & l & r & -> & Hq & Hf & Hr & Hv & Hl & _).
  rewrite xorb_false_r.
  assert (Eq1 : (val (Z.pos mb * q + r) (e' + eb)
                 == val q e' * val (Z.pos mb) eb + val r (e' + eb))%Q).
  { rewrite val_add, val_mul, Z.mul_comm. reflexivity. }
  pose proof (val_nonneg r (e' + eb) ltac:(lia)) as Pr.
  assert (Hq1 : (val q e' <= 1)%Q).
  { apply (Qmult_le_1 _ (val (Z.pos mb) eb)); lra. }
  assert (Hq2 : loc_inexact l = true -> (val q e' < 1)%Q).
  { intros Hi'. rewrite Hl in Hi'.
    assert (0 < r) by (destruct (Z.eqb_spec r 0); [discriminate|lia]).
    pose proof (val_pos r (e' + eb) ltac:(lia)).
    apply (Qmult_lt_1 _ (val (Z.pos mb) eb)); lra. }
  destruct (round_aux_upper sa q e' l _ _ Hq Hf canon_one ltac:(lia)
              ltac:(rewrite val_one; exact Hq1) ltac:(rewrite val_one; exact Hq2))
    as (_ & _ & S & _).
  pose proof (mag_nonneg (binary_round_aux sa q e' l)) as Pm.
  unfold SFval at 2 4. rewrite S, Ea.
  destruct sa; cbn [sval]; split; intros; lra.
Qed.

(** For scores between 0 and 1, not all zero: a positive score of at
    least the negative one gives a polarity of at least 0, and a smaller
    one a polarity of at most 0. *)
Lemma binary64_polarity_sign (p n g : float) :
  ((0 <=? p) && (p <=? 1) = true ->
   (0 <=? n) && (n <=? 1) = true ->
   (0 <=? g) && (g <=? 1) = true ->
   (p =? 0) && (n =? 0) && (g =? 0) = false ->
   ((g <=? p) = true -> (0 <=? (p - g) / (p + n + g)) = true) /\
   ((p <=? g) = true -> ((p - g) / (p + n + g) <=? 0) = true))%float.
Proof.
  intros Hp Hn Hg Hnz.
  destruct (binary64_polarity_bounds p n g Hp Hn Hg Hnz) as (Hpos & _ & Hr & _ & _).
  destruct (score_nonneg p Hp) as [Np Bp].
  destruct (score_nonneg n Hn) as [Nn Bn].
  destruct (score_nonneg g Hg) as [Ng Bg].
  pose proof Np as (Vp & Fp & Pp). pose proof Ng as (Vg & Fg & Pg).
  destruct (SFadd_nonneg _ _ _ _ Np Nn canon_two ltac:(lia) ltac:(rewrite val_two; lra))
    as (Nd1 & L1p & L1n & U1).
  rewrite val_two in U1.
  destruct (SFadd_nonneg _ _ _ _ Nd1 Ng canon_four ltac:(lia) ltac:(rewrite val_four; lra))
    as (Nd & L2d & L2g & U2).
  rewrite <- !add_spec in Nd, L2d, L2g. rewrite <- add_spec in L1p, L1n.
  destruct (SFsub_nonneg _ _ Np Ng) as (Vs & Fs & Ls & Us).
  rewrite <- sub_spec in Vs, Fs, Ls, Us.
  pose proof Nd as (Vd & Fd & Pd).
  assert (Hd : (0 < SFval (Prim2SF (p + n + g)))%Q).
  { rewrite ltb_spec, Prim2SF_zero in Hpos.
    apply SFltb_val in Hpos; try assumption; try reflexivity. }
  destruct (SFdiv_bounded _ _ Vs Fs Vd Fd Hd ltac:(lra) ltac:(lra)) as (Vq & Fq & _).
  destruct (SFdiv_sign _ _ Vs Fs Vd Fd Hd ltac:(lra) ltac:(lra)) as (Sp & Sn).
  rewrite <- div_spec in Vq, Fq, Sp, Sn.
  split; intros Hle; rewrite leb_spec in Hle |- *; rewrite Prim2SF_zero.
  - apply SFleb_val in Hle; try assumption.
    apply SFleb_val; try assumption; try reflexivity.
    change (SFval (S754_zero false)) with 0%Q. apply Sp.
    rewrite sub_spec. apply (SFsub_sign _ _ Np Ng). exact Hle.
  - apply SFleb_val in Hle; try assumption.
    apply SFleb_val; try assumption; try reflexivity.
    change (SFval (S754_zero false)) with 0%Q. apply Sn.
    rewrite sub_spec. apply (SFsub_sign _ _ Np Ng). exact Hle.
Qed.

Set Implicit Arguments.

(** *** The dict of scores *)

Section ScoresDict.

Context {F : Type} {SF : Scalar F}.

Lemma dict_get_set_same (d : list (string * F)) k v : dict_get (dict_set d k v) k = Some v.
Proof.
  induction d as [|[k' v'] d IH]; cbn [dict_set dict_get].
  - now rewrite String.eqb_refl.
  - destruct (String.eqb k' k) eqn:E; cbn [dict_get]; rewrite E; [reflexivity|exact IH].
Qed.

Lemma dict_get_set_other (d : list (string * F)) k k' v :
  k <> k' -> dict_get (dict_set d k v) k' = dict_get d k'.
Proof.
  intros Hne. induction d as [|[k0 v0] d IH]; cbn [dict_set dict_get].
  - apply String.eqb_neq in Hne. now rewrite Hne.
  - destruct (String.eqb k0 k) eqn:E; cbn [dict_get].
    + apply String.eqb_eq in E. subst k0. apply String.eqb_neq in Hne. now rewrite Hne.
    + destruct (String.eqb k0 k'); [reflexivity|exact IH].
Qed.

Lemma fold_dict_set_other (later : list (SentimentScore F)) k : forall d,
  ~ In k (map (@label F) later) ->
  dict_get (fold_left (fun d s => dict_set d (label s) (score s)) later d) k = dict_get d k.
Proof.
  induction later as [|a later IH]; intros d Hk; [reflexivity|].
  cbn [fold_left]. rewrite IH by (intros Hin; apply Hk; right; exact Hin).
  apply dict_get_set_other. intros E. apply Hk. left. exact E.
Qed.

(** The comprehension keeps, for every label, the score of its last
    occurrence. *)
Lemma scores_dict_last (scores : list (SentimentScore F)) s later :
  ~ In (label s) (map (@label F) later) ->
  dict_getitem (scores_dict (scores ++ s :: later)) (label s) = Ok (score s).
Proof.
  intros Hlater. unfold dict_getitem, scores_dict. rewrite fold_left_app. cbn [fold_left].
  rewrite fold_dict_set_other by exact Hlater. now rewrite dict_get_set_same.
Qed.

(** A list with the three labels, each once, in any order. *)
Lemma three_labels_scores (scores : list (SentimentScore F)) :
  Permutation (map (@label F) scores) three_labels ->
  exists p n g,
    Permutation scores [mkSentimentScore "positive" p; mkSentimentScore "neutral" n;
                        mkSentimentScore "negative" g].
Proof.
  intros H. apply Permutation_sym, Permutation_map_inv in H.
  destruct H as (l3 & Hl & Hp).
  destruct l3 as [|[la p] [|[lb n] [|[lc g] [|]]]]; try discriminate.
  injection Hl as <- <- <-. exists p, n, g. exact Hp.
Qed.

Lemma scores_dict_three (scores : list (SentimentScore F)) p n g :
  Permutation scores [mkSentimentScore "positive" p; mkSentimentScore "neutral" n;
                      mkSentimentScore "negative" g] ->
  dict_getitem (scores_dict scores) "positive" = Ok p /\
  dict_getitem (scores_dict scores) "neutral" = Ok n /\
  dict_getitem (scores_dict scores) "negative" = Ok g.
Proof.
  intros H.
  assert (Hnd : NoDup (map (@label F) scores)).
  { apply (Permutation_NoDup (l := ["positive"; "neutral"; "negative"]%string)).
    - apply Permutation_sym. apply (Permutation_map (@label F)) in H. exact H.
    - repeat constructor; cbn; intuition discriminate. }
  assert (Hget : forall s, In s scores ->
            dict_getitem (scores_dict scores) (label s) = Ok (score s)).
  { intros s Hin. apply in_split in Hin. destruct Hin as (l1 & l2 & ->).
    apply scores_dict_last. rewrite map_app in Hnd. cbn [map] in Hnd.
    apply NoDup_remove_2 in Hnd. intros Hin. apply Hnd. apply in_or_app. now right. }
  repeat split.
  - apply (Hget (mkSentimentScore "positive" p)).
    apply (Permutation_in _ (Permutation_sym H)). cbn. auto.
  - apply (Hget (mkSentimentScore "neutral" n)).
    apply (Permutation_in _ (Permutation_sym H)). cbn. auto.
  - apply (Hget (mkSentimentScore "negative" g)).
    apply (Permutation_in _ (Permutation_sym H)). cbn. auto.
Qed.

End ScoresDict.

Unset Implicit Arguments.

(** Scores that are all zero have the computed sum zero. *)
Lemma zero_scores_sum_is_zero (p n g : float) :
  ((0 <=? p) && (p <=? 1) = true ->
   (0 <=? n) && (n <=? 1) = true ->
   (0 <=? g) && (g <=? 1) = true ->
   (p =? 0) && (n =? 0) && (g =? 0) = true ->
   (p + n + g =? 0) = true)%float.
Proof.
  intros Hp Hn Hg Hz. apply andb_true_iff in Hz. destruct Hz as [Hz Zg].
  apply andb_true_iff in Hz. destruct Hz as [Zp Zn].
  destruct (score_nonneg p Hp) as [Np _].
  destruct (score_nonneg n Hn) as [Nn _].
  destruct (score_nonneg g Hg) as [Ng _].
  apply (eqb_zero_val p (proj1 (proj2 Np))) in Zp.
  apply (eqb_zero_val n (proj1 (proj2 Nn))) in Zn.
  apply (eqb_zero_val g (proj1 (proj2 Ng))) in Zg.
  destruct (SFadd_nonneg _ _ _ _ Np Nn canon_two ltac:(lia) ltac:(rewrite val_two; lra))
    as (Nd1 & _).
  assert (Z1 : (SFval (SFadd (Prim2SF p) (Prim2SF n)) == 0)%Q).
  { rewrite (SFadd_zero_r _ _ Np Nn Zn). exact Zp. }
  assert (Z2 : (SFval (Prim2SF (p + n + g)) == 0)%Q).
  { rewrite add_spec, add_spec. rewrite (SFadd_zero_r _ _ Nd1 Ng Zg). exact Z1. }
  assert (Fd : is_finite (Prim2SF (p + n + g)) = true).
  { rewrite add_spec, add_spec. unfold SF64add.
    destruct (nonneg_zero_val _ Nd1 Z1) as [s1 E1]. rewrite E1.
    destruct (nonneg_zero_val _ Ng Zg) as [s2 E2]. rewrite E2.
    destruct s1, s2; reflexivity. }
  apply (eqb_zero_val _ Fd). exact Z2.
Qed.

(** [_analyze_output] on the three scores of a validated output. *)
Lemma analyze_output_valid_cases statement (scores : list (SentimentScore float)) p n g :
  Permutation scores [mkSentimentScore "positive" p; mkSentimentScore "neutral" n;
                      mkSentimentScore "negative" g] ->
  between 0%float p 1%float = true ->
  between 0%float n 1%float = true ->
  between 0%float g 1%float = true ->
  ((p =? 0) && (n =? 0) && (g =? 0))%float = true /\
  _analyze_output statement scores = Err ZeroDivisionError \/
  ((p =? 0) && (n =? 0) && (g =? 0))%float = false /\
  _compute_polarity p n g = Ok ((p - g) / (p + n + g))%float /\
  between (-1)%float ((p - g) / (p + n + g))%float 1%float = true /\
  _analyze_output statement scores
  = Ok (mkSentimentAnalysis statement ((p - g) / (p + n + g))%float
          (if (0 <=? (p - g) / (p + n + g))%float then POSITIVE else NEGATIVE)).
Proof.
  intros Hperm Hp Hn Hg.
  destruct (scores_dict_three Hperm) as (Dp & Dn & Dg).
  unfold _analyze_output. rewrite Dp, Dn, Dg. cbn [rbind].
  unfold _compute_polarity, py_truediv. cbn [feqb fzero fsub fadd fdiv Scalar_float].
  destruct ((p =? 0) && (n =? 0) && (g =? 0))%float eqn:Hz.
  - left. split; [reflexivity|].
    rewrite (zero_scores_sum_is_zero p n g Hp Hn Hg Hz). reflexivity.
  - right. split; [reflexivity|].
    destruct (binary64_polarity_bounds p n g Hp Hn Hg Hz) as (_ & Hd & Hr & _ & _).
    rewrite Hd. cbn [rbind]. split; [reflexivity|]. split; [exact Hr|].
    unfold from_polarity, new_SentimentAnalysis, _polarity_must_be_between_minus_1_and_1.
    change (between (fopp fone) ((p - g) / (p + n + g))%float fone)
      with ((-1 <=? (p - g) / (p + n + g)) && ((p - g) / (p + n + g) <=? 1))%float.
    rewrite Hr. cbn [negb rbind]. reflexivity.
Qed.

(** X8.  [_analyze_output] on an output that holds the three labels
    once, in any order, with scores [p], [n], [g] between 0 and 1.  It
    raises [ZeroDivisionError] when the three scores are zero.
    Otherwise it returns the analysis of the statement with the
    polarity [(p - g) / (p + n + g)] as binary64 computes it, and that
    polarity passes the validator (it lies between -1 and 1), is not
    negative when [g <= p] and not positive when [p <= g]; the
    sentiment is [POSITIVE] exactly when the polarity is at least 0. *)
Theorem analyze_output_of_valid_scores statement (scores : list (SentimentScore float))
    p n g :
  Permutation scores [mkSentimentScore "positive" p; mkSentimentScore "neutral" n;
                      mkSentimentScore "negative" g] ->
  between 0%float p 1%float = true ->
  between 0%float n 1%float = true ->
  between 0%float g 1%float = true ->
  let v := ((p - g) / (p + n + g))%float in
  if ((p =? 0) && (n =? 0) && (g =? 0))%float then
    _analyze_output statement scores = Err ZeroDivisionError
  else
    _analyze_output statement scores
    = Ok (mkSentimentAnalysis statement v (if (0 <=? v)%float then POSITIVE else NEGATIVE)) /\
    between (-1)%float v 1%float = true /\
    ((g <=? p)%float = true -> (0 <=? v)%float = true) /\
    ((p <=? g)%float = true -> (v <=? 0)%float = true).
Proof.
  intros Hperm Hp Hn Hg v.
  destruct (analyze_output_valid_cases statement scores p n g Hperm Hp Hn Hg)
    as [[Hz Hr]|(Hz & _ & Hb & Hr)]; rewrite Hz; [exact Hr|].
  split; [exact Hr|]. split; [exact Hb|].
  exact (binary64_polarity_sign p n g Hp Hn Hg Hz).
Qed.

Set Implicit Arguments.

Section Validated.

Context {F : Type} {SF : Scalar F}.

Lemma rmap_Forall2 {A B} (f : A -> result F B) l : forall l',
  rmap f l = Ok l' -> Forall2 (fun a b => f a = Ok b) l l'.
Proof.
  induction l as [|a l IH]; intros l' H; cbn [rmap] in H.
  - injection H as <-. constructor.
  - destruct (f a) as [b|] eqn:Hb; [|discriminate]. cbn [rbind] in H.
    destruct (rmap f l) as [bs|]; [|discriminate]. cbn [rbind] in H.
    injection H as <-. constructor; [exact Hb|]. apply IH. reflexivity.
Qed.

Lemma validate_required_labels_inv (value out : list (list (SentimentScore F))) :
  _validate_required_labels value = Ok out ->
  out = value /\
  Forall (fun scores => Permutation (map (@label F) scores) three_labels) value.
Proof.
  revert out. induction value as [|scores rest IH]; intros out H; cbn [_validate_required_labels] in H.
  - injection H as <-. split; constructor.
  - destruct (negb (Z.of_nat (List.length scores) =? _NLABELS) || label_set_differs scores)
      eqn:Htest; [discriminate|].
    destruct (_validate_required_labels rest) as [rest'|]; [|discriminate].
    cbn [rbind] in H. injection H as <-.
    destruct (IH rest' eq_refl) as [-> Hall]. split; [reflexivity|].
    constructor; [|exact Hall]. apply labels_accepted. exact Htest.
Qed.

Lemma scores_in_range (outputs : list (list (SentimentScore F))) checked :
  rmap (rmap (fun s => _score_must_be_between_0_and_1 (score s))) outputs = Ok checked ->
  Forall (Forall (fun s => between fzero (score s) fone = true)) outputs.
Proof.
  intros H. apply rmap_Forall2 in H.
  induction H as [|scores c outputs cs Hs _ IH]; constructor; [|exact IH].
  apply rmap_Forall2 in Hs. clear -Hs.
  induction Hs as [|s v scores vs Hv _ IH]; constructor; [|exact IH].
  unfold _score_must_be_between_0_and_1 in Hv.
  destruct (between fzero (score s) fone); [reflexivity|discriminate].
Qed.

(** [model_validate] returns the outputs it was given, checked. *)
Lemma model_validate_inv (content : json_body F) outputs :
  model_validate content = Ok outputs ->
  content = Outputs outputs /\
  Forall (fun scores => Permutation (map (@label F) scores) three_labels) outputs /\
  Forall (Forall (fun s => between fzero (score s) fone = true)) outputs.
Proof.
  unfold model_validate. destruct content as [given| |]; try discriminate.
  destruct (rmap _ given) as [checked|] eqn:Hr; [|discriminate].
  intros H. apply validate_required_labels_inv in H. destruct H as [-> Hl].
  split; [reflexivity|]. split; [exact Hl|]. eapply scores_in_range. exact Hr.
Qed.

Lemma handle_response_inv (response : Response F) outputs :
  _handle_response response = Ok outputs ->
  status_code response = 200 /\ model_validate (json response) = Ok outputs.
Proof.
  unfold _handle_response, response_json.
  destruct (status_code response =? 200) eqn:E200.
  - intros H. split; [lia|].
    destruct (json response) as [given| |]; cbn [rbind] in H; try discriminate;
      destruct (model_validate _) as [o|[]]; congruence.
  - destruct (status_code response =? 400); [discriminate|].
    destruct (status_code response =? 404); [discriminate|].
    destruct (status_code response =? 500); discriminate.
Qed.

(** A row of scores that fails the validator of scores holds a score
    out of range. *)
Lemma scores_rejected (outputs : list (list (SentimentScore F))) e :
  rmap (rmap (fun s => _score_must_be_between_0_and_1 (score s))) outputs = Err e ->
  Exists (Exists (fun s => between fzero (score s) fone = false)) outputs.
Proof.
  induction outputs as [|scores rest IH]; cbn [rmap]; [discriminate|].
  destruct (rmap _ scores) as [row|e'] eqn:Hrow; cbn [rbind].
  - destruct (rmap _ rest) as [checked|e'] eqn:Hrest; cbn [rbind]; [discriminate|].
    intros [= <-]. right. apply IH. reflexivity.
  - intros _. left. clear -Hrow. induction scores as [|s scores IH]; [discriminate|].
    cbn [rmap] in Hrow. unfold _score_must_be_between_0_and_1 at 1 in Hrow.
    destruct (between fzero (score s) fone) eqn:Hb; cbn [negb rbind] in Hrow.
    + right. apply IH.
      destruct (rmap _ scores) as [row|e0]; cbn [rbind] in Hrow; [discriminate|].
      exact Hrow.
    + left. exact Hb.
Qed.

(** The validator of labels raises nothing but its [TypeError], and
    only for a wrong list of labels. *)
Lemma validate_required_labels_raises (value : list (list (SentimentScore F))) e :
  _validate_required_labels value = Err e ->
  e = TypeError /\
  Exists (fun scores => ~ Permutation (map (@label F) scores) three_labels) value.
Proof.
  induction value as [|scores rest IH]; cbn [_validate_required_labels]; [discriminate|].
  destruct (negb (Z.of_nat (List.length scores) =? _NLABELS) || label_set_differs scores)
    eqn:Htest.
  - intros [= <-]. split; [reflexivity|]. left. intros Hp.
    apply labels_accepted in Hp. congruence.
  - destruct (_validate_required_labels rest) as [rest'|e'] eqn:Hrest; cbn [rbind];
      [discriminate|].
    intros [= <-]. destruct (IH eq_refl) as [-> Hex]. split; [reflexivity|]. now right.
Qed.

(** Every error of [_handle_response], with its cause. *)
Lemma handle_response_err (response : Response F) e :
  _handle_response response = Err e ->
  (exists kind,
     e = ModelAPIError kind /\
     (kind = ResponseValidationError <-> status_code response = 200) /\
     (kind = BadRequestError <-> status_code response = 400) /\
     (kind = NotFoundError <-> status_code response = 404) /\
     (kind = InternalServerError <-> status_code response = 500) /\
     (kind = ResponseValidationError ->
      json response = OtherJSON \/
      exists outputs,
        json response = Outputs outputs /\
        Exists (Exists (fun s => between fzero (score s) fone = false)) outputs)) \/
  (e = JSONDecodeError /\ status_code response = 200 /\ json response = NotJSON) \/
  (e = TypeError /\ status_code response = 200 /\
   exists outputs,
     json response = Outputs outputs /\
     Forall (Forall (fun s => between fzero (score s) fone = true)) outputs /\
     Exists (fun scores => ~ Permutation (map (@label F) scores) three_labels) outputs).
Proof.
  unfold _handle_response, response_json.
  destruct (status_code response =? 200) eqn:E200;
    [|destruct (status_code response =? 400) eqn:E400;
      [|destruct (status_code response =? 404) eqn:E404;
        [|destruct (status_code response =? 500) eqn:E500]]].
  - destruct (json response) as [given| |] eqn:Hjson; cbn [rbind].
    + unfold model_validate.
      destruct (rmap _ given) as [checked|e'] eqn:Hr.
      * destruct (_validate_required_labels given) as [o|e'] eqn:Hv; [discriminate|].
        destruct (validate_required_labels_raises _ Hv) as [-> Hex].
        intros [= <-]. right. right. split; [reflexivity|]. split; [lia|].
        exists given. split; [reflexivity|]. split; [|exact Hex].
        eapply scores_in_range. exact Hr.
      * intros [= <-]. left. eexists. split; [reflexivity|].
        repeat split; intros; try discriminate; try lia; try reflexivity.
        right. exists given. split; [reflexivity|]. eapply scores_rejected. exact Hr.
    + cbn [model_validate]. intros [= <-]. left. eexists. split; [reflexivity|].
      repeat split; intros; try discriminate; try lia; try reflexivity. now left.
    + intros [= <-]. right. left. split; [reflexivity|]. split; [lia|reflexivity].
  - intros [= <-]. left. eexists. split; [reflexivity|].
    repeat split; intros; try discriminate; try lia; reflexivity.
  - intros [= <-]. left. eexists. split; [reflexivity|].
    repeat split; intros; try discriminate; try lia; reflexivity.
  - intros [= <-]. left. eexists. split; [reflexivity|].
    repeat split; intros; try discriminate; try lia; reflexivity.
  - intros [= <-]. left. eexists. split; [reflexivity|].
    repeat split; intros; try discriminate; try lia; reflexivity.
Qed.

(** X9.  What [_handle_response] returns came with status 200 and is
    the body of the response, and it has been validated: every output
    holds the labels positive, neutral and negative, each once, and
    every score lies between 0 and 1. *)
Theorem handle_response_returns_validated (response : Response F) outputs :
  _handle_response response = Ok outputs ->
  status_code response = 200 /\
  json response = Outputs outputs /\
  Forall (fun scores =>
            Permutation (map (@label F) scores) three_labels /\
            Forall (fun s => between fzero (score s) fone = true) scores) outputs.
Proof.
  intros H. apply handle_response_inv in H. destruct H as [Hs Hv].
  apply model_validate_inv in Hv. destruct Hv as (Hj & Hl & Hr).
  split; [exact Hs|]. split; [exact Hj|].
  rewrite Forall_forall in *. intros scores Hin. split; [apply Hl|apply Hr]; exact Hin.
Qed.

End Validated.

Lemma rmap_err {F A B} (f : A -> result F B) l e :
  rmap f l = Err e -> exists a, In a l /\ f a = Err e.
Proof.
  induction l as [|a l IH]; cbn [rmap]; [discriminate|].
  destruct (f a) as [b|e'] eqn:Hb; cbn [rbind].
  - destruct (rmap f l) as [bs|e'] eqn:Hl; cbn [rbind]; [discriminate|].
    intros [= <-]. destruct (IH eq_refl) as (a' & Hin & Ha'). exists a'. split; [now right|exact Ha'].
  - intros [= <-]. exists a. split; [now left|exact Hb].
Qed.

(** A validated output, analysed. *)
Lemma analyze_valid_output text (scores : list (SentimentScore float)) :
  Permutation (map (@label float) scores) three_labels ->
  Forall (fun s => between 0%float (score s) 1%float = true) scores ->
  _analyze_output text scores = Err ZeroDivisionError /\
  Forall (fun s => (score s =? 0)%float = true) scores \/
  exists a,
    _analyze_output text scores = Ok a /\
    statement a = text /\
    between (-1)%float (polarity a) 1%float = true /\
    sentiment a = if (0 <=? polarity a)%float then POSITIVE else NEGATIVE.
Proof.
  intros Hl Hr. destruct (three_labels_scores scores Hl) as (p & n & g & Hperm).
  assert (Hin : forall s, In s [mkSentimentScore "positive" p; mkSentimentScore "neutral" n;
                                mkSentimentScore "negative" g] ->
                          between 0%float (score s) 1%float = true).
  { intros s Hs. rewrite Forall_forall in Hr. apply Hr.
    apply (Permutation_in _ (Permutation_sym Hperm)). exact Hs. }
  assert (Hp := Hin _ (or_introl eq_refl)).
  assert (Hn := Hin _ (or_intror (or_introl eq_refl))).
  assert (Hg := Hin _ (or_intror (or_intror (or_introl eq_refl)))).
  cbn [score] in Hp, Hn, Hg.
  destruct (analyze_output_valid_cases text scores p n g Hperm Hp Hn Hg)
    as [[Hz H]|(_ & _ & Hb & H)]; [left|right].
  - split; [exact H|]. apply andb_true_iff in Hz. destruct Hz as [Hz Hzg].
    apply andb_true_iff in Hz. destruct Hz as [Hzp Hzn].
    rewrite Forall_forall. intros s Hs.
    apply (Permutation_in _ Hperm) in Hs.
    destruct Hs as [<-|[<-|[<-|[]]]]; assumption.
  - eexists. split; [exact H|]. cbn [statement polarity sentiment]. auto.
Qed.

(** What the scorer behind its HTTP endpoint returns. *)
Lemma http_analyzer_ok
    (post : list string -> Reply float (Response float)) statements timeout analyses :
  outcome (analyze_sentiment (http_sentiment_analyzer post) statements timeout) = Ok analyses ->
  exists outputs,
    outcome (post statements) = Ok (mkResponse 200 (Outputs outputs)) /\
    Forall2 (fun so a =>
               _analyze_output (fst so) (snd so) = Ok a /\
               statement a = fst so /\
               between (-1)%float (polarity a) 1%float = true /\
               sentiment a = if (0 <=? polarity a)%float then POSITIVE else NEGATIVE)
            (combine statements outputs) analyses.
Proof.
  cbn [http_sentiment_analyzer analyze_sentiment outcome].
  destruct (outcome (post statements)) as [response|e0]; cbn [rbind]; [|discriminate].
  destruct (_handle_response response) as [outputs|e0] eqn:Hh; cbn [rbind]; [|discriminate].
  apply handle_response_inv in Hh. destruct Hh as (Hstatus & Hv).
  apply model_validate_inv in Hv. destruct Hv as (Hjson & Hlabels & Hrange).
  assert (Hvalid : forall so, In so (combine statements outputs) ->
            Permutation (map (@label float) (snd so)) three_labels /\
            Forall (fun s => between 0%float (score s) 1%float = true) (snd so)).
  { intros [st out] Hin. apply in_combine_r in Hin. cbn [snd].
    rewrite Forall_forall in Hlabels, Hrange. split; [apply Hlabels|apply Hrange]; exact Hin. }
  unfold _process_outputs. intros Hr. exists outputs. split.
  - destruct response as [sc js]. cbn [status_code json] in *. subst. reflexivity.
  - apply rmap_Forall2 in Hr. revert Hvalid.
    induction Hr as [|so a l l' Ha _ IH]; intros Hvalid; constructor.
    + destruct (Hvalid so (or_introl eq_refl)) as (Hl & Hg).
      destruct (analyze_valid_output (fst so) Hl Hg) as [[Hz _]|(a' & Ha' & Hst & Hb & Hs)];
        [congruence|].
      rewrite Ha in Ha'. injection Ha' as <-. auto.
    + apply IH. intros so' Hin. apply Hvalid. now right.
Qed.

(** X10.  [SentimentAnalyzer.analyze_sentiment] with the model behind
    its HTTP endpoint.  When it returns, the endpoint answered with
    status 200, there is one analysis for each pair of a statement and
    an output, up to the shorter of the two lists and in their order,
    and each analysis carries its statement, a polarity between -1 and
    1 and the sentiment of the polarity's sign.  When it raises, the
    error is what the request raised, or the endpoint answered and the
    error is one of four: a [ModelAPIError] for the response (by its
    status; for status 200 the body is JSON of another shape or holds
    a score out of range), the [JSONDecodeError] of a body with status
    200 that is not JSON, the [TypeError] of a wrong list of labels
    among scores in range, or the [ZeroDivisionError] of an output of
    three zero scores. *)
Theorem analyze_sentiment_over_http
    (post : list string -> Reply float (Response float)) statements timeout :
  let r := outcome (analyze_sentiment (http_sentiment_analyzer post) statements timeout) in
  (forall analyses,
     r = Ok analyses ->
     exists outputs,
       outcome (post statements) = Ok (mkResponse 200 (Outputs outputs)) /\
       len analyses = Z.min (len statements) (len outputs) /\
       Forall2 (fun so a =>
                  _analyze_output (fst so) (snd so) = Ok a /\
                  statement a = fst so /\
                  between (-1)%float (polarity a) 1%float = true /\
                  sentiment a = if (0 <=? polarity a)%float then POSITIVE else NEGATIVE)
               (combine statements outputs) analyses) /\
  (forall e,
     r = Err e ->
     outcome (post statements) = Err e \/
     exists response,
       outcome (post statements) = Ok response /\
       ((exists kind,
           e = ModelAPIError kind /\
           (kind = ResponseValidationError <-> status_code response = 200) /\
           (kind = BadRequestError <-> status_code response = 400) /\
           (kind = NotFoundError <-> status_code response = 404) /\
           (kind = InternalServerError <-> status_code response = 500) /\
           (kind = ResponseValidationError ->
            json response = OtherJSON \/
            exists outputs,
              json response = Outputs outputs /\
              Exists (Exists (fun s => between 0%float (score s) 1%float = false)) outputs)) \/
        (e = JSONDecodeError /\ status_code response = 200 /\ json response = NotJSON) \/
        (e = TypeError /\ status_code response = 200 /\
         exists outputs,
           json response = Outputs outputs /\
           Forall (Forall (fun s => between 0%float (score s) 1%float = true)) outputs /\
           Exists (fun scores => ~ Permutation (map (@label float) scores) three_labels)
                  outputs) \/
        (e = ZeroDivisionError /\ status_code response = 200 /\
         exists outputs,
           json response = Outputs outputs /\
           Exists (fun so => Forall (fun s => (score s =? 0)%float = true) (snd so))
                  (combine statements outputs)))).
Proof.
  cbv zeta. split.
  - intros analyses Hr. destruct (http_analyzer_ok _ _ _ Hr) as (outputs & Hpost & Hall).
    exists outputs. split; [exact Hpost|]. split; [|exact Hall].
    apply Forall2_length in Hall. unfold len. rewrite <- Hall, length_combine. lia.
  - cbn [http_sentiment_analyzer analyze_sentiment outcome].
    destruct (outcome (post statements)) as [response|e0]; cbn [rbind].
    2:{ intros e [= <-]. left. reflexivity. }
    intros e Hr. right. exists response. split; [reflexivity|].
    destruct (_handle_response response) as [outputs|e0] eqn:Hh; cbn [rbind] in Hr.
    2:{ injection Hr as <-. apply handle_response_err in Hh.
        destruct Hh as [Hk|[Hj|Ht]]; [left; exact Hk|right; left; exact Hj|].
        right. right. left. exact Ht. }
    apply handle_response_inv in Hh. destruct Hh as (Hstatus & Hv).
    apply model_validate_inv in Hv. destruct Hv as (Hjson & Hlabels & Hrange).
    right. right. right. unfold _process_outputs in Hr.
    apply rmap_err in Hr. destruct Hr as ([st out] & Hin & Hso).
    pose proof (in_combine_r _ _ _ _ Hin) as Hout.
    rewrite Forall_forall in Hlabels, Hrange.
    destruct (analyze_valid_output st (Hlabels _ Hout) (Hrange _ Hout))
      as [[Hz Hzero]|(a' & Ha' & _)]; cbn [fst snd] in Hso; [|congruence].
    split; [congruence|]. split; [exact Hstatus|].
    exists outputs. split; [exact Hjson|].
    apply Exists_exists. exists (st, out). split; [exact Hin|exact Hzero].
Qed.

(** *** Concrete outputs *)

(** X8, witness: the scores 0.5, 0.25 and 0.25. *)
Lemma analyze_output_of_valid_scores_witness :
  _analyze_output "a" mild_scores = Ok (mkSentimentAnalysis "a" 0.25%float POSITIVE) /\
  between (-1)%float 0.25%float 1%float = true.
Proof.
  assert (Hp : Permutation mild_scores
                 [mkSentimentScore "positive" 0.5%float; mkSentimentScore "neutral" 0.25%float;
                  mkSentimentScore "negative" 0.25%float]) by apply Permutation_refl.
  pose proof (analyze_output_of_valid_scores "a" mild_scores 0.5 0.25 0.25 Hp
                eq_refl eq_refl eq_refl) as H.
  cbv zeta in H.
  change ((0.5 =? 0) && (0.25 =? 0) && (0.25 =? 0))%float with false in H.
  destruct H as (H1 & H2 & _).
  split; [exact H1|exact H2].
Defined.

(** X9, witness: a response with one valid output. *)
Lemma handle_response_returns_validated_witness :
  _handle_response (mkResponse 200 (Outputs [mild_scores])) = Ok [mild_scores] /\
  Forall (fun scores =>
            Permutation (map (@label float) scores) three_labels /\
            Forall (fun s => between 0%float (score s) 1%float = true) scores)
         [mild_scores].
Proof.
  assert (H : _handle_response (mkResponse 200 (Outputs [mild_scores])) = Ok [mild_scores])
    by reflexivity.
  split; [exact H|].
  exact (proj2 (proj2 (handle_response_returns_validated _ H))).
Defined.

(** ** The title lookup *)

Module CacheReads.
Import TTLCache.

Lemma find_key k ls l : find k ls = Some l -> key l = k /\ In l ls.
Proof.
  unfold find. intros H. apply find_some in H. destruct H as [Hin Hk].
  apply String.eqb_eq in Hk. auto.
Qed.

Lemma find_remove_same k ls : find k (remove k ls) = None.
Proof.
  apply CacheFacts.find_none. apply Forall_forall. intros l Hl.
  apply filter_In in Hl. destruct Hl as [_ Hne].
  apply negb_true_iff, String.eqb_neq in Hne. exact Hne.
Qed.

Lemma find_remove_other k k' ls : k <> k' -> find k' (remove k ls) = find k' ls.
Proof.
  intros Hne. unfold find, remove. induction ls as [|l ls IH]; [reflexivity|].
  cbn [filter List.find]. destruct (String.eqb (key l) k) eqn:E; cbn [negb List.find].
  - apply String.eqb_eq in E.
    assert (E' : String.eqb (key l) k' = false) by (apply String.eqb_neq; congruence).
    rewrite E'. exact IH.
  - destruct (String.eqb (key l) k'); [reflexivity|exact IH].
Qed.

(** A lookup moves the item it finds to the most recently used end and
    changes nothing a reader sees. *)
Lemma getitem_lookup time k c t k' :
  lookup t k' (snd (getitem time k c)) = lookup t k' c.
Proof.
  unfold getitem, lookup. destruct (find k (links c)) as [l|] eqn:Hf; [|reflexivity].
  cbn [snd with_links links]. rewrite CacheFacts.find_app.
  destruct (find_key _ _ Hf) as [Hk _].
  destruct (String.eqb_spec k k') as [<-|Hne].
  - rewrite find_remove_same, Hf. unfold find. cbn [List.find].
    rewrite Hk, String.eqb_refl. reflexivity.
  - rewrite (find_remove_other _ Hne). destruct (find k' (links c)); [reflexivity|].
    unfold find. cbn [List.find].
    assert (E : String.eqb (key l) k' = false) by (apply String.eqb_neq; congruence).
    now rewrite E.
Qed.

Lemma getitem_value time k c :
  fst (getitem time k c) = lookup time k c.
Proof. unfold getitem, lookup. destruct (find k (links c)); reflexivity. Qed.

Lemma contains_lookup time k c :
  contains time k c = true <-> exists v, lookup time k c = Some v.
Proof.
  unfold contains, lookup. destruct (find k (links c)) as [l|].
  - destruct (alive time l); split; intros H; try reflexivity; try discriminate.
    + eauto.
    + destruct H as [v H]. discriminate.
  - split; intros H; [discriminate|]. destruct H as [v H]. discriminate.
Qed.

(** Deleting a key drops every item under it and no other. *)
Lemma delitem_lookup time k c t k' :
  lookup t k' (snd (delitem time k c))
  = if String.eqb k k' then
      match find k (links c) with Some _ => None | None => lookup t k' c end
    else lookup t k' c.
Proof.
  unfold delitem, lookup. destruct (find k (links c)) as [l|] eqn:Hf;
    cbn [snd with_links links].
  - destruct (String.eqb_spec k k') as [<-|Hne].
    + now rewrite find_remove_same.
    + now rewrite (find_remove_other _ Hne).
  - destruct (String.eqb k k'); reflexivity.
Qed.

Lemma delitem_ok time k c : fst (delitem time k c) = contains time k c.
Proof. unfold delitem, contains. destruct (find k (links c)); reflexivity. Qed.

Lemma dead_lookup time k c : dead time k c -> lookup time k c = None.
Proof.
  unfold dead, lookup. intros H. destruct (find k (links c)) as [l|] eqn:Hf; [|reflexivity].
  destruct (find_key _ _ Hf) as [Hk Hin]. rewrite Forall_forall in H.
  now rewrite (H l Hin Hk).
Qed.

Lemma dead_later time time' k c : (time <= time')%Q -> dead time k c -> dead time' k c.
Proof.
  unfold dead. intros Hle H. eapply Forall_impl; [|exact H].
  intros l Hl Hk. specialize (Hl Hk). unfold alive in *.
  apply negb_false_iff in Hl. apply negb_false_iff.
  apply Qle_bool_iff in Hl. apply Qle_bool_iff. lra.
Qed.

Lemma dead_of_lookup time k c :
  NoDup (map key (links c)) -> lookup time k c = None -> dead time k c.
Proof.
  unfold dead, lookup. intros Hnd Hl. apply Forall_forall. intros l Hin Hk.
  destruct (find k (links c)) as [l0|] eqn:Hf.
  - destruct (find_key _ _ Hf) as [Hk0 Hin0].
    assert (l0 = l).
    { rewrite <- Hk in Hk0. clear -Hnd Hin Hin0 Hk0.
      induction (links c) as [|a ls IH]; [contradiction|].
      inversion Hnd as [|? ? Ha Hnd']; subst.
      destruct Hin0 as [->|Hin0], Hin as [->|Hin]; auto.
      - exfalso. apply Ha. rewrite Hk0. now apply in_map.
      - exfalso. apply Ha. rewrite <- Hk0. now apply in_map. }
    subst l0. destruct (alive time l); [discriminate|reflexivity].
  - exfalso. unfold find in Hf. apply (find_none _ _ Hf) in Hin.
    apply String.eqb_neq in Hin. contradiction.
Qed.

Lemma evict_incl maxsize ls : incl (evict maxsize ls) ls.
Proof.
  induction ls as [|l ls IH]; [apply incl_refl|].
  cbn [evict]. destruct (_ >? _); [|apply incl_refl].
  intros x Hx. right. apply IH. exact Hx.
Qed.

(** Storing under another key revives nothing. *)
Lemma setitem_dead time k v c c' k0 :
  setitem time k v c = Some c' -> k <> k0 -> dead time k0 c -> dead time k0 c'.
Proof.
  unfold setitem, dead. destruct (1 >? maxsize c); [discriminate|].
  intros [= <-] Hne H. cbn [with_links links]. rewrite Forall_forall in *.
  intros l Hin Hk. apply in_app_or in Hin. destruct Hin as [Hin|[<-|[]]].
  - apply H; [|exact Hk]. apply filter_In in Hin. destruct Hin as [Hin _].
    assert (Hin' : In l (expire time (links c))).
    { destruct (find k (expire time (links c))); [exact Hin|].
      eapply evict_incl. exact Hin. }
    apply filter_In in Hin'. tauto.
  - cbn [key] in Hk. contradiction.
Qed.

(** What was just stored is there, while the time to live is positive. *)
Lemma setitem_lookup time k v c c' :
  setitem time k v c = Some c' -> (0 < ttl c)%Q -> lookup time k c' = Some v.
Proof.
  unfold setitem. destruct (1 >? maxsize c); [discriminate|].
  intros [= <-] Httl. unfold lookup. cbn [with_links links].
  rewrite CacheFacts.find_app, find_remove_same. unfold find. cbn [List.find key].
  rewrite String.eqb_refl. cbn [value].
  assert (A : alive time (mkLink k v (time + ttl c)) = true)
    by (apply CacheFacts.alive_iff; cbn [expires]; lra).
  now rewrite A.
Qed.

End CacheReads.

Section SubfedditId.

Context {F : Type} {SF : Scalar F}.
Variable subfeddit_title : string.
Variable feddit_client : FedditAPIClient F.

Local Abbreviation other_title :=
  (fun s : SubfedditInfo.t => SubfedditInfo.title s <> subfeddit_title).

(** The [for] loop returns at the first subfeddit with the title, which
    it has just stored. *)
Lemma scan_batch_found batch : forall (w : World F) id w',
  scan_batch subfeddit_title batch w = Some (Ok (Some id), w') ->
  exists pre s post,
    batch = pre ++ s :: post /\ Forall other_title pre /\
    SubfedditInfo.title s = subfeddit_title /\ SubfedditInfo.id s = id /\
    ((0 < TTLCache.ttl (subfeddit_cache w))%Q ->
     TTLCache.lookup (clock w') subfeddit_title (subfeddit_cache w') = Some id).
Proof.
  induction batch as [|s rest IH]; intros w id w' Hrun; [discriminate|].
  cbn [scan_batch] in Hrun. unfold bind at 1, cache_setitem in Hrun.
  destruct (TTLCache.setitem _ _ _ _) as [c|] eqn:Hset; [|discriminate].
  destruct (String.eqb_spec (SubfedditInfo.title s) subfeddit_title) as [E|E].
  - inversion Hrun; subst id w'. exists [], s, rest.
    repeat split; try constructor; try assumption.
    intros Httl. cbn [clock subfeddit_cache]. rewrite <- E.
    eapply CacheReads.setitem_lookup; eassumption.
  - apply IH in Hrun. destruct Hrun as (pre & s' & post & -> & Hpre & Ht & Hi & Hl).
    exists (s :: pre), s', post. repeat split; try assumption.
    + constructor; assumption.
    + intros Httl. apply Hl. cbn [subfeddit_cache].
      apply CacheFacts.setitem_params in Hset. destruct Hset as [_ ->]. exact Httl.
Qed.

(** When it ends without a match, no subfeddit of the batch has the
    title, and no item under the title has come to life. *)
Lemma scan_batch_not_found batch : forall (w : World F) w',
  scan_batch subfeddit_title batch w = Some (Ok None, w') ->
  Forall other_title batch /\
  (dead (clock w) subfeddit_title (subfeddit_cache w) ->
   dead (clock w') subfeddit_title (subfeddit_cache w')).
Proof.
  induction batch as [|s rest IH]; intros w w' Hrun.
  - inversion Hrun; subst. split; [constructor|auto].
  - cbn [scan_batch] in Hrun. unfold bind at 1, cache_setitem in Hrun.
    destruct (TTLCache.setitem _ _ _ _) as [c|] eqn:Hset; [|discriminate].
    destruct (String.eqb_spec (SubfedditInfo.title s) subfeddit_title) as [E|E];
      [discriminate|].
    apply IH in Hrun. cbn [clock subfeddit_cache] in Hrun. destruct Hrun as [Hall Hdead].
    split; [constructor; assumption|]. intros Hd. apply Hdead.
    eapply CacheReads.setitem_dead; eassumption.
Qed.

Hypothesis elapsed_nonneg :
  forall skip limit, (0 <= elapsed (get_subfeddits feddit_client skip limit))%Q.

Hypothesis info_elapsed_nonneg :
  forall id, (0 <= elapsed (get_subfeddit_info feddit_client id))%Q.

Local Abbreviation full_batch := (fun b : list SubfedditInfo.t => _QUERY_BATCH_SIZE <= len b).

Local Abbreviation not_found_detail :=
  ("Subfeddit with title '" ++ subfeddit_title ++ "' not found")%string.

(** Every run of the full search that ends. *)
Lemma search_subfeddits_cases fuel : forall skip (w : World F) r w',
  search_subfeddits fuel subfeddit_title feddit_client skip w = Some (r, w') ->
  exists events,
    trace w' = trace w ++ events /\
    (clock w <= clock w')%Q /\
    subfeddit_requests events
    = map (fun s => (skip + s, _QUERY_BATCH_SIZE)) (page_skips (List.length events)) /\
    match r with
    | Ok id =>
        exists full pre s post,
          subfeddit_batches events = full ++ [pre ++ s :: post] /\
          Forall full_batch full /\
          List.length events = S (List.length full) /\
          Forall other_title (List.concat full ++ pre) /\
          SubfedditInfo.title s = subfeddit_title /\ SubfedditInfo.id s = id /\
          ((0 < TTLCache.ttl (subfeddit_cache w))%Q ->
           TTLCache.lookup (clock w') subfeddit_title (subfeddit_cache w') = Some id)
    | Err e =>
        (exists before skip',
           events = before ++ [GetSubfeddits skip' _QUERY_BATCH_SIZE (Err e)] /\
           outcome (get_subfeddits feddit_client skip' _QUERY_BATCH_SIZE) = Err e) \/
        e = ValueError "value too large" \/
        (e = HTTPException 404 not_found_detail /\
         Forall other_title (fetched_subfeddits events) /\
         (exists full last,
            subfeddit_batches events = full ++ [last] /\
            Forall full_batch full /\ len last < _QUERY_BATCH_SIZE /\
            List.length events = S (List.length full)) /\
         (dead (clock w) subfeddit_title (subfeddit_cache w) ->
          dead (clock w') subfeddit_title (subfeddit_cache w')))
    end.
Proof.
  induction fuel as [|fuel IH]; intros skip w r w' Hrun; [discriminate|].
  cbn [search_subfeddits] in Hrun. rewrite bind_await in Hrun.
  set (reply := get_subfeddits feddit_client skip _QUERY_BATCH_SIZE) in *.
  assert (Hel := elapsed_nonneg skip _QUERY_BATCH_SIZE). fold reply in Hel.
  set (w1 := after_await (GetSubfeddits skip _QUERY_BATCH_SIZE) reply w) in *.
  assert (Hw1c : clock w1 = (clock w + elapsed reply)%Q) by reflexivity.
  assert (Hw1s : subfeddit_cache w1 = subfeddit_cache w) by reflexivity.
  assert (Hw1t : trace w1 = trace w ++ [GetSubfeddits skip _QUERY_BATCH_SIZE (outcome reply)])
    by reflexivity.
  assert (Hone : forall o, subfeddit_requests [@GetSubfeddits F skip _QUERY_BATCH_SIZE o]
                 = map (fun s => (skip + s, _QUERY_BATCH_SIZE)) (page_skips 1)).
  { intros o. unfold page_skips. cbn [subfeddit_requests flat_map app seq map].
    replace (skip + _QUERY_BATCH_SIZE * Z.of_nat 0) with skip by lia. reflexivity. }
  destruct (outcome reply) as [batch|e] eqn:Hreply.
  - apply bind_inv in Hrun.
    destruct Hrun as [(found & w2 & Hscan & Hk)|(e & Hscan & ->)].
    + destruct (scan_batch_frame _ _ _ Hscan) as (Hc2 & Ht2 & _ & _).
      destruct found as [id|].
      * inversion Hk; subst r w'.
        exists [GetSubfeddits skip _QUERY_BATCH_SIZE (Ok batch)].
        split; [congruence|]. split; [rewrite Hc2, Hw1c; lra|]. split; [apply Hone|].
        destruct (scan_batch_found _ _ Hscan) as (pre & s & post & -> & Hpre & Ht & Hi & Hl).
        exists [], pre, s, post. cbn [subfeddit_batches flat_map app List.concat].
        repeat split; try constructor; try assumption.
      * destruct (scan_batch_not_found _ _ Hscan) as (Hother & Hdead).
        destruct (len batch <? _QUERY_BATCH_SIZE) eqn:Hshort.
        -- inversion Hk; subst r w'.
           exists [GetSubfeddits skip _QUERY_BATCH_SIZE (Ok batch)].
           split; [congruence|]. split; [rewrite Hc2, Hw1c; lra|]. split; [apply Hone|].
           right. right. split; [reflexivity|]. split; [|split].
           ++ unfold fetched_subfeddits. cbn. rewrite app_nil_r. exact Hother.
           ++ exists [], batch. cbn. repeat split; try constructor. lia.
           ++ intros Hd. apply Hdead. rewrite Hw1s, Hw1c.
              eapply CacheReads.dead_later; [|exact Hd]. lra.
        -- apply IH in Hk. destruct Hk as (events & Ht & Hc & Hreq & Hr).
           exists (GetSubfeddits skip _QUERY_BATCH_SIZE (Ok batch) :: events).
           split; [rewrite Ht, Ht2, Hw1t, <- app_assoc; reflexivity|].
           split; [rewrite Hc2, Hw1c in Hc; lra|]. split.
           { cbn [subfeddit_requests flat_map app List.length].
             fold (subfeddit_requests events).
             rewrite Hreq. unfold page_skips. cbn [seq map].
             replace (skip + _QUERY_BATCH_SIZE * Z.of_nat 0) with skip by lia. f_equal.
             rewrite <- seq_shift, !map_map. apply map_ext. intros i.
             f_equal. lia. }
           destruct r as [id|e].
           ++ destruct Hr as (full & pre & s & post & Hb & Hfull & Hlen & Ho & Hts & His & Hl).
              exists (batch :: full), pre, s, post.
              cbn [subfeddit_batches flat_map app]. fold (subfeddit_batches events).
              rewrite Hb. repeat split; try assumption.
              ** constructor; [lia|exact Hfull].
              ** cbn [List.length]. now rewrite Hlen.
              ** cbn [List.concat]. rewrite <- app_assoc. apply Forall_app. auto.
              ** intros Httl. apply Hl.
                 destruct (scan_batch_frame _ _ _ Hscan) as (_ & _ & _ & ->).
                 rewrite Hw1s. exact Httl.
           ++ destruct Hr as [(before & skip' & Hev & Hout)|[Hv|(He & Ho & (full & last & Hb & Hfull & Hlast & Hlen) & Hd)]].
              ** left. exists (GetSubfeddits skip _QUERY_BATCH_SIZE (Ok batch) :: before), skip'.
                 rewrite Hev. split; [reflexivity|exact Hout].
              ** right. left. exact Hv.
              ** right. right. split; [exact He|]. split; [|split].
                 --- unfold fetched_subfeddits in *.
                     cbn [subfeddit_batches flat_map app List.concat].
                     fold (subfeddit_batches events). apply Forall_app. auto.
                 --- exists (batch :: full), last.
                     cbn [subfeddit_batches flat_map app]. fold (subfeddit_batches events).
                     rewrite Hb. repeat split; try assumption;
                       [constructor; [lia|exact Hfull]|cbn [List.length]; now rewrite Hlen].
                 --- intros Hd0. apply Hd, Hdead. rewrite Hw1s, Hw1c.
                     eapply CacheReads.dead_later; [|exact Hd0]. lra.
    + destruct (scan_batch_frame _ _ _ Hscan) as (Hc2 & Ht2 & _ & _).
      exists [GetSubfeddits skip _QUERY_BATCH_SIZE (Ok batch)].
      split; [congruence|]. split; [rewrite Hc2, Hw1c; lra|]. split; [apply Hone|].
      right. left. eapply scan_batch_err. exact Hscan.
  - inversion Hrun; subst r w'.
    exists [GetSubfeddits skip _QUERY_BATCH_SIZE (Err e)].
    split; [exact Hw1t|]. split; [rewrite Hw1c; lra|]. split; [apply Hone|].
    left. exists [], skip. split; [reflexivity|exact Hreply].
Qed.


(** The run of [get_subfeddit_id] when the title is not in the cache:
    the full search. *)
Lemma get_subfeddit_id_miss fuel (w : World F) :
  TTLCache.contains (clock w) subfeddit_title (subfeddit_cache w) = false ->
  get_subfeddit_id fuel subfeddit_title feddit_client w
  = search_subfeddits fuel subfeddit_title feddit_client 0 w.
Proof.
  intros Hc. unfold get_subfeddit_id. unfold bind at 1, cache_contains. rewrite Hc.
  reflexivity.
Qed.

(** The check of a cached id. *)
Lemma revalidate_cached_hit (w : World F) id :
  TTLCache.lookup (clock w) subfeddit_title (subfeddit_cache w) = Some id ->
  let w1 := after_info_check subfeddit_title feddit_client id w in
  revalidate_cached subfeddit_title feddit_client w
  = match outcome (get_subfeddit_info feddit_client id) with
    | Ok _ => Some (Ok (Some id), w1)
    | Err (APIClientError NotFoundError) =>
        Some (if TTLCache.contains (clock w1) subfeddit_title (subfeddit_cache w1)
              then Ok None else Err (KeyError subfeddit_title),
              after_delete subfeddit_title w1)
    | Err e => Some (Err e, w1)
    end.
Proof.
  intros Hl w1.
  unfold revalidate_cached. unfold bind at 1, cache_getitem.
  pose proof (CacheReads.getitem_value (clock w) subfeddit_title (subfeddit_cache w)) as Hv.
  rewrite Hl in Hv.
  assert (Ew1 : w1 = after_await (GetSubfedditInfo id) (get_subfeddit_info feddit_client id)
                       (mkWorld (clock w)
                          (snd (TTLCache.getitem (clock w) subfeddit_title (subfeddit_cache w)))
                          (trace w))) by reflexivity.
  destruct (TTLCache.getitem (clock w) subfeddit_title (subfeddit_cache w)) as [v c].
  cbn [fst snd] in *. subst v.
  unfold except_NotFoundError. rewrite bind_await. rewrite <- Ew1.
  destruct (outcome (get_subfeddit_info feddit_client id)) as [[]|e]; [reflexivity|].
  destruct e as [| | | | |kind|kind| | |]; try reflexivity.
  destruct kind; try reflexivity.
  unfold bind, cache_delitem, after_delete.
  rewrite <- CacheReads.delitem_ok.
  destruct (TTLCache.delitem (clock w1) subfeddit_title (subfeddit_cache w1)) as [ok c2].
  cbn [fst snd]. destruct ok; reflexivity.
Qed.

(** The run of [get_subfeddit_id] when the title is in the cache. *)
Lemma get_subfeddit_id_hit fuel (w : World F) id :
  TTLCache.lookup (clock w) subfeddit_title (subfeddit_cache w) = Some id ->
  let w1 := after_info_check subfeddit_title feddit_client id w in
  get_subfeddit_id fuel subfeddit_title feddit_client w
  = match outcome (get_subfeddit_info feddit_client id) with
    | Ok _ => Some (Ok id, w1)
    | Err (APIClientError NotFoundError) =>
        if TTLCache.contains (clock w1) subfeddit_title (subfeddit_cache w1) then
          search_subfeddits fuel subfeddit_title feddit_client 0 (after_delete subfeddit_title w1)
        else Some (Err (KeyError subfeddit_title), after_delete subfeddit_title w1)
    | Err e => Some (Err e, w1)
    end.
Proof.
  intros Hl w1.
  assert (Hc : TTLCache.contains (clock w) subfeddit_title (subfeddit_cache w) = true)
    by (apply CacheReads.contains_lookup; eauto).
  unfold get_subfeddit_id. unfold bind at 1, cache_contains. rewrite Hc.
  unfold bind. rewrite (revalidate_cached_hit w Hl). fold w1.
  destruct (outcome (get_subfeddit_info feddit_client id)) as [[]|e]; [reflexivity|].
  destruct e as [| | | | |kind|kind| | |]; try reflexivity.
  destruct kind; try reflexivity.
  destruct (TTLCache.contains (clock w1) subfeddit_title (subfeddit_cache w1)); reflexivity.
Qed.

Lemma after_info_check_facts id (w : World F) :
  clock (after_info_check subfeddit_title feddit_client id w)
  = (clock w + elapsed (get_subfeddit_info feddit_client id))%Q /\
  trace (after_info_check subfeddit_title feddit_client id w)
  = trace w ++ [GetSubfedditInfo id (outcome (get_subfeddit_info feddit_client id))] /\
  forall t k, TTLCache.lookup t k (subfeddit_cache (after_info_check subfeddit_title feddit_client id w))
              = TTLCache.lookup t k (subfeddit_cache w).
Proof.
  unfold after_info_check, after_await. cbn [clock trace subfeddit_cache].
  repeat split. intros t k. apply CacheReads.getitem_lookup.
Qed.

(** X11.  A title that is in the cache costs one request.  When the
    source answers [get_subfeddit_info] for the cached id with anything
    but [NotFoundError], [get_subfeddit_id] has awaited that one call
    and no other, returns the cached id when the call returned and
    raises what the call raised otherwise, and no reader of the cache
    sees a change. *)
Theorem cached_title_costs_one_request fuel (w : World F) id :
  TTLCache.lookup (clock w) subfeddit_title (subfeddit_cache w) = Some id ->
  outcome (get_subfeddit_info feddit_client id) <> Err (APIClientError NotFoundError) ->
  exists w',
    get_subfeddit_id fuel subfeddit_title feddit_client w
    = Some (match outcome (get_subfeddit_info feddit_client id) with
            | Ok _ => Ok id
            | Err e => Err e
            end, w') /\
    trace w' = trace w ++ [GetSubfedditInfo id (outcome (get_subfeddit_info feddit_client id))] /\
    forall t k, TTLCache.lookup t k (subfeddit_cache w') = TTLCache.lookup t k (subfeddit_cache w).
Proof.
  intros Hl Hne. exists (after_info_check subfeddit_title feddit_client id w).
  destruct (after_info_check_facts id w) as (_ & Ht & Hk).
  split; [|split; assumption].
  rewrite (get_subfeddit_id_hit fuel w Hl).
  destruct (outcome (get_subfeddit_info feddit_client id)) as [[]|e]; [reflexivity|].
  destruct e as [| | | | |kind|kind| | |]; try reflexivity.
  destruct kind; try reflexivity. contradiction.
Qed.

(** X12.  A cached title that the source no longer knows.  When
    [get_subfeddit_info] raises [NotFoundError] for the cached id (and
    the entry has not expired meanwhile), [get_subfeddit_id] deletes
    the entry, and that entry only, and goes on as the full search
    does from there. *)
Theorem stale_title_is_dropped_and_searched fuel (w : World F) id :
  TTLCache.lookup (clock w) subfeddit_title (subfeddit_cache w) = Some id ->
  outcome (get_subfeddit_info feddit_client id) = Err (APIClientError NotFoundError) ->
  TTLCache.contains (clock w + elapsed (get_subfeddit_info feddit_client id))
                    subfeddit_title (subfeddit_cache w) = true ->
  exists w1,
    get_subfeddit_id fuel subfeddit_title feddit_client w
    = search_subfeddits fuel subfeddit_title feddit_client 0 w1 /\
    clock w1 = (clock w + elapsed (get_subfeddit_info feddit_client id))%Q /\
    trace w1 = trace w ++ [GetSubfedditInfo id (Err (APIClientError NotFoundError))] /\
    (forall t, TTLCache.lookup t subfeddit_title (subfeddit_cache w1) = None) /\
    (forall t k, k <> subfeddit_title ->
       TTLCache.lookup t k (subfeddit_cache w1) = TTLCache.lookup t k (subfeddit_cache w)).
Proof.
  intros Hl Hnf Halive. exists (after_delete subfeddit_title (after_info_check subfeddit_title feddit_client id w)).
  destruct (after_info_check_facts id w) as (Hc & Ht & Hk).
  rewrite Hnf in Ht.
  assert (Hcont : TTLCache.contains (clock (after_info_check subfeddit_title feddit_client id w)) subfeddit_title
                    (subfeddit_cache (after_info_check subfeddit_title feddit_client id w)) = true).
  { apply CacheReads.contains_lookup. rewrite Hk, Hc.
    apply CacheReads.contains_lookup. exact Halive. }
  split; [|split; [exact Hc|split; [exact Ht|split]]].
  - rewrite (get_subfeddit_id_hit fuel w Hl), Hnf, Hcont. reflexivity.
  - intros t. unfold after_delete. cbn [subfeddit_cache].
    rewrite CacheReads.delitem_lookup, String.eqb_refl.
    apply CacheReads.contains_lookup in Hcont. destruct Hcont as [v Hv].
    unfold TTLCache.lookup in Hv.
    destruct (TTLCache.find subfeddit_title (TTLCache.links (subfeddit_cache (after_info_check subfeddit_title feddit_client id w))));
      [reflexivity|discriminate].
  - intros t k Hne. unfold after_delete. cbn [subfeddit_cache].
    rewrite CacheReads.delitem_lookup.
    assert (E : String.eqb subfeddit_title k = false) by (apply String.eqb_neq; congruence).
    rewrite E. apply Hk.
Qed.

Lemma fetched_subfeddits_app (e1 e2 : list (Event F)) :
  fetched_subfeddits (e1 ++ e2) = fetched_subfeddits e1 ++ fetched_subfeddits e2.
Proof. unfold fetched_subfeddits, subfeddit_batches. now rewrite flat_map_app, concat_app. Qed.

(** X13.  When [get_subfeddit_id] raises an [HTTPException] (and the
    source raises none itself), the status code is 404, the detail
    names the title, none of the subfeddits the source returned has the
    title, and from then on no reader of the cache finds the title in
    it. *)
Theorem not_found_title_is_not_cached fuel (w : World F) code detail w' :
  get_subfeddit_id fuel subfeddit_title feddit_client w
    = Some (Err (HTTPException code detail), w') ->
  raises_no_HTTPException feddit_client ->
  NoDup (map TTLCache.key (TTLCache.links (subfeddit_cache w))) ->
  code = 404 /\ detail = not_found_detail /\
  exists events,
    trace w' = trace w ++ events /\
    Forall other_title (fetched_subfeddits events) /\
    forall t, (clock w' <= t)%Q ->
      TTLCache.lookup t subfeddit_title (subfeddit_cache w') = None.
Proof.
  intros Hrun [Hlist Hinfo] Hnd.
  assert (Hsearch : forall w0 events0,
            search_subfeddits fuel subfeddit_title feddit_client 0 w0
              = Some (Err (HTTPException code detail), w') ->
            trace w0 = trace w ++ events0 -> fetched_subfeddits events0 = [] ->
            dead (clock w0) subfeddit_title (subfeddit_cache w0) ->
            code = 404 /\ detail = not_found_detail /\
            exists events,
              trace w' = trace w ++ events /\
              Forall other_title (fetched_subfeddits events) /\
              forall t, (clock w' <= t)%Q ->
                TTLCache.lookup t subfeddit_title (subfeddit_cache w') = None).
  { intros w0 events0 Hs Ht0 Hf0 Hd0. apply search_subfeddits_cases in Hs.
    destruct Hs as (events & Ht & _ & _ & [(before & skip' & _ & Hout)|[[=]|(He & Ho & _ & Hd)]]).
    - exfalso. eapply Hlist. exact Hout.
    - injection He as -> ->. split; [reflexivity|]. split; [reflexivity|].
      exists (events0 ++ events). rewrite Ht, Ht0, <- app_assoc. split; [reflexivity|].
      rewrite fetched_subfeddits_app, Hf0. split; [exact Ho|].
      intros t Hle. apply CacheReads.dead_lookup.
      eapply CacheReads.dead_later; [exact Hle|]. apply Hd, Hd0. }
  destruct (TTLCache.lookup (clock w) subfeddit_title (subfeddit_cache w)) as [id|] eqn:Hl.
  - rewrite (get_subfeddit_id_hit fuel w Hl) in Hrun.
    destruct (after_info_check_facts id w) as (Hc & Ht & Hk).
    destruct (outcome (get_subfeddit_info feddit_client id)) as [[]|e] eqn:Hout;
      [discriminate|].
    assert (Hne : forall c0 d0, e <> HTTPException c0 d0)
      by (intros c0 d0 ->; eapply Hinfo; exact Hout).
    destruct e as [| | | | |kind|kind|c0 d0| |]; try discriminate;
      [|exfalso; eapply Hne; reflexivity].
    destruct kind; try discriminate.
    destruct (TTLCache.contains _ _ _) eqn:Hcont; [|discriminate].
    eapply (Hsearch _ [GetSubfedditInfo id (Err (APIClientError NotFoundError))]);
      [exact Hrun| | |].
    + unfold after_delete. cbn [trace]. exact Ht.
    + reflexivity.
    + unfold dead, after_delete. cbn [subfeddit_cache].
      unfold TTLCache.delitem.
      destruct (TTLCache.find _ _) as [l|] eqn:Hf.
      * cbn [snd TTLCache.with_links TTLCache.links]. apply Forall_forall.
        intros l0 Hin Hk0. apply filter_In in Hin. destruct Hin as [_ Hneq].
        apply negb_true_iff, String.eqb_neq in Hneq. contradiction.
      * exfalso. unfold TTLCache.contains in Hcont. rewrite Hf in Hcont. discriminate.
  - assert (Hc : TTLCache.contains (clock w) subfeddit_title (subfeddit_cache w) = false).
    { destruct (TTLCache.contains _ _ _) eqn:E; [|reflexivity].
      apply CacheReads.contains_lookup in E. destruct E as [v E]. congruence. }
    rewrite (get_subfeddit_id_miss fuel w Hc) in Hrun.
    eapply (Hsearch w []); [exact Hrun| | |].
    + now rewrite app_nil_r.
    + reflexivity.
    + apply CacheReads.dead_of_lookup; assumption.
Qed.

(** X14.  The id [get_subfeddit_id] returns is the cached one, which
    the source has just confirmed by the only call made, or it is the
    id of the first subfeddit with the title among those the source
    returned, every page before that one being full; in that case the
    cache holds the title with this id when [get_subfeddit_id]
    returns. *)
Theorem returned_id_is_cached_or_first_found fuel (w : World F) id w' :
  get_subfeddit_id fuel subfeddit_title feddit_client w = Some (Ok id, w') ->
  (0 < TTLCache.ttl (subfeddit_cache w))%Q ->
  exists events,
    trace w' = trace w ++ events /\
    ((TTLCache.lookup (clock w) subfeddit_title (subfeddit_cache w) = Some id /\
      events = [GetSubfedditInfo id (Ok tt)]) \/
     (exists full pre s post,
        subfeddit_batches events = full ++ [pre ++ s :: post] /\
        Forall full_batch full /\
        Forall other_title (List.concat full ++ pre) /\
        SubfedditInfo.title s = subfeddit_title /\ SubfedditInfo.id s = id /\
        TTLCache.lookup (clock w') subfeddit_title (subfeddit_cache w') = Some id)).
Proof.
  intros Hrun Httl.
  assert (Hsearch : forall w0 events0,
            search_subfeddits fuel subfeddit_title feddit_client 0 w0 = Some (Ok id, w') ->
            trace w0 = trace w ++ events0 -> subfeddit_batches events0 = [] ->
            TTLCache.ttl (subfeddit_cache w0) = TTLCache.ttl (subfeddit_cache w) ->
            exists events,
              trace w' = trace w ++ events /\
              exists full pre s post,
                subfeddit_batches events = full ++ [pre ++ s :: post] /\
                Forall full_batch full /\
                Forall other_title (List.concat full ++ pre) /\
                SubfedditInfo.title s = subfeddit_title /\ SubfedditInfo.id s = id /\
                TTLCache.lookup (clock w') subfeddit_title (subfeddit_cache w') = Some id).
  { intros w0 events0 Hs Ht0 Hb0 Httl0. apply search_subfeddits_cases in Hs.
    destruct Hs as (events & Ht & _ & _ & full & pre & s & post & Hb & Hfull & _ & Ho & Hts & His & Hlk).
    exists (events0 ++ events). rewrite Ht, Ht0, <- app_assoc. split; [reflexivity|].
    exists full, pre, s, post. rewrite subfeddit_batches_app, Hb0.
    repeat split; try assumption. apply Hlk. rewrite Httl0. exact Httl. }
  destruct (TTLCache.lookup (clock w) subfeddit_title (subfeddit_cache w)) as [id0|] eqn:Hl.
  - rewrite (get_subfeddit_id_hit fuel w Hl) in Hrun.
    destruct (after_info_check_facts id0 w) as (Hc & Ht & Hk).
    destruct (outcome (get_subfeddit_info feddit_client id0)) as [[]|e] eqn:Hout.
    + injection Hrun as <- <-. eexists. split; [exact Ht|]. left. auto.
    + destruct e as [| | | | |kind|kind| | |]; try discriminate.
      destruct kind; try discriminate.
      destruct (TTLCache.contains _ _ _) eqn:Hcont; [|discriminate].
      destruct (Hsearch _ [GetSubfedditInfo id0 (Err (APIClientError NotFoundError))] Hrun)
        as (events & Hte & Hr).
      * unfold after_delete. cbn [trace]. exact Ht.
      * reflexivity.
      * unfold after_delete, after_info_check, after_await. cbn [subfeddit_cache].
        rewrite (proj2 (CacheFacts.delitem_params _ _ _)).
        apply (proj2 (CacheFacts.getitem_params _ _ _)).
      * exists events. split; [exact Hte|]. right. exact Hr.
  - assert (Hc : TTLCache.contains (clock w) subfeddit_title (subfeddit_cache w) = false).
    { destruct (TTLCache.contains _ _ _) eqn:E; [|reflexivity].
      apply CacheReads.contains_lookup in E. destruct E as [v E]. congruence. }
    rewrite (get_subfeddit_id_miss fuel w Hc) in Hrun.
    destruct (Hsearch w [] Hrun) as (events & Hte & Hr); try reflexivity.
    + now rewrite app_nil_r.
    + exists events. split; [exact Hte|]. right. exact Hr.
Qed.

(** X15.  Looking a title up twice.  After [get_subfeddit_id] has
    found the id of a title by the full search, a second call for the
    same title in the world the first one left returns the same id
    with one call of [get_subfeddit_info] and no search (no fuel is
    needed), when the source knows the id. *)
Theorem second_lookup_is_answered_from_cache fuel fuel' (w : World F) id w1 :
  TTLCache.contains (clock w) subfeddit_title (subfeddit_cache w) = false ->
  get_subfeddit_id fuel subfeddit_title feddit_client w = Some (Ok id, w1) ->
  (0 < TTLCache.ttl (subfeddit_cache w))%Q ->
  outcome (get_subfeddit_info feddit_client id) = Ok tt ->
  exists w2,
    get_subfeddit_id fuel' subfeddit_title feddit_client w1 = Some (Ok id, w2) /\
    trace w2 = trace w1 ++ [GetSubfedditInfo id (Ok tt)].
Proof.
  intros Hc Hrun Httl Hinfo.
  rewrite (get_subfeddit_id_miss fuel w Hc) in Hrun.
  apply search_subfeddits_cases in Hrun.
  destruct Hrun as (events & _ & _ & _ & full & pre & s & post & _ & _ & _ & _ & _ & _ & Hlk).
  specialize (Hlk Httl).
  exists (after_info_check subfeddit_title feddit_client id w1).
  destruct (after_info_check_facts id w1) as (_ & Ht & _). rewrite Hinfo in Ht.
  split; [|exact Ht].
  rewrite (get_subfeddit_id_hit fuel' w1 Hlk), Hinfo. reflexivity.
Qed.

(** The search asks the source for subfeddits only. *)
Lemma search_subfeddits_lookups fuel : forall skip (w : World F) r w',
  search_subfeddits fuel subfeddit_title feddit_client skip w = Some (r, w') ->
  exists events,
    trace w' = trace w ++ events /\
    comment_requests events = [] /\ scorer_calls events = [].
Proof.
  induction fuel as [|fuel IH]; intros skip w r w' Hrun; [discriminate|].
  cbn [search_subfeddits] in Hrun. rewrite bind_await in Hrun.
  set (reply := get_subfeddits feddit_client skip _QUERY_BATCH_SIZE) in *.
  set (w1 := after_await (GetSubfeddits skip _QUERY_BATCH_SIZE) reply w) in *.
  assert (Hw1t : trace w1 = trace w ++ [GetSubfeddits skip _QUERY_BATCH_SIZE (outcome reply)])
    by reflexivity.
  assert (Hone : exists events,
             trace w1 = trace w ++ events /\
             comment_requests events = [] /\ scorer_calls events = [])
    by (eexists; split; [exact Hw1t|split; reflexivity]).
  destruct (outcome reply) as [batch|e] eqn:Hreply.
  - apply bind_inv in Hrun.
    destruct Hrun as [(found & w2 & Hscan & Hk)|(e & Hscan & ->)].
    + destruct (scan_batch_frame _ _ _ Hscan) as (_ & Ht2 & _ & _).
      destruct found as [id|].
      * inversion Hk; subst r w'. rewrite Ht2. exact Hone.
      * destruct (len batch <? _QUERY_BATCH_SIZE).
        -- inversion Hk; subst r w'. rewrite Ht2. exact Hone.
        -- apply IH in Hk. destruct Hk as (events & Ht & Hc & Hs).
           exists (GetSubfeddits skip _QUERY_BATCH_SIZE (Ok batch) :: events).
           rewrite Ht, Ht2, Hw1t, <- app_assoc. split; [reflexivity|].
           split; [exact Hc|exact Hs].
    + destruct (scan_batch_frame _ _ _ Hscan) as (_ & Ht2 & _ & _).
      rewrite Ht2. exact Hone.
  - inversion Hrun; subst r w'. exact Hone.
Qed.

(** So does [get_subfeddit_id]. *)
Lemma get_subfeddit_id_lookups fuel (w : World F) r w' :
  get_subfeddit_id fuel subfeddit_title feddit_client w = Some (r, w') ->
  exists events,
    trace w' = trace w ++ events /\
    comment_requests events = [] /\ scorer_calls events = [].
Proof.
  intros Hrun.
  destruct (TTLCache.lookup (clock w) subfeddit_title (subfeddit_cache w)) as [id|] eqn:Hl.
  - rewrite (get_subfeddit_id_hit fuel w Hl) in Hrun.
    destruct (after_info_check_facts id w) as (_ & Ht & _).
    assert (Hone : exists events,
               trace (after_info_check subfeddit_title feddit_client id w) = trace w ++ events /\
               comment_requests events = [] /\ scorer_calls events = [])
      by (eexists; split; [exact Ht|split; reflexivity]).
    assert (Hsearch : forall r0, search_subfeddits fuel subfeddit_title feddit_client 0
                           (after_delete subfeddit_title (after_info_check subfeddit_title feddit_client id w)) = Some (r0, w') ->
                      exists events,
                        trace w' = trace w ++ events /\
                        comment_requests events = [] /\ scorer_calls events = []).
    { intros r0 Hs. apply search_subfeddits_lookups in Hs.
      destruct Hs as (events & Hte & Hc & Hs).
      exists (GetSubfedditInfo id (outcome (get_subfeddit_info feddit_client id)) :: events).
      unfold after_delete in Hte. cbn [trace] in Hte. rewrite Hte, Ht, <- app_assoc.
      split; [reflexivity|]. split; [exact Hc|exact Hs]. }
    destruct (outcome (get_subfeddit_info feddit_client id)) as [[]|e].
    + inversion Hrun; subst. exact Hone.
    + destruct e as [| | | | |kind|kind| | |]; try (inversion Hrun; subst; exact Hone).
      destruct kind; try (inversion Hrun; subst; exact Hone).
      destruct (TTLCache.contains _ _ _); [eapply Hsearch; exact Hrun|].
      inversion Hrun; subst. unfold after_delete. cbn [trace]. exact Hone.
  - assert (Hc : TTLCache.contains (clock w) subfeddit_title (subfeddit_cache w) = false).
    { destruct (TTLCache.contains _ _ _) eqn:E; [|reflexivity].
      apply CacheReads.contains_lookup in E. destruct E as [v E]. congruence. }
    rewrite (get_subfeddit_id_miss fuel w Hc) in Hrun.
    eapply search_subfeddits_lookups. exact Hrun.
Qed.

(** X16.  The requests of the full search.  For a title that is not
    in the cache, [get_subfeddit_id] asks the source for subfeddits
    only, page after page: [skip] is 0, 5000, 10000, ... and [limit]
    is 5000.  When it returns, the title is on the last page and every
    page before it was full and without the title; when it raises the
    404, every page but the last was full and the last one short;
    every other error is what the last request raised or the
    [ValueError] of the cache. *)
Theorem subfeddit_pages_requested fuel (w : World F) r w' :
  TTLCache.contains (clock w) subfeddit_title (subfeddit_cache w) = false ->
  get_subfeddit_id fuel subfeddit_title feddit_client w = Some (r, w') ->
  exists events,
    trace w' = trace w ++ events /\
    subfeddit_requests events
    = map (fun skip => (skip, _QUERY_BATCH_SIZE)) (page_skips (List.length events)) /\
    match r with
    | Ok id =>
        exists full last,
          subfeddit_batches events = full ++ [last] /\
          List.length events = S (List.length full) /\
          Forall full_batch full /\
          Forall other_title (List.concat full) /\
          exists s, In s last /\ SubfedditInfo.title s = subfeddit_title
    | Err e =>
        (exists before skip,
           events = before ++ [GetSubfeddits skip _QUERY_BATCH_SIZE (Err e)]) \/
        e = ValueError "value too large" \/
        (e = HTTPException 404 not_found_detail /\
         exists full last,
           subfeddit_batches events = full ++ [last] /\
           List.length events = S (List.length full) /\
           Forall full_batch full /\
           len last < _QUERY_BATCH_SIZE)
    end.
Proof.
  intros Hc Hrun. rewrite (get_subfeddit_id_miss fuel w Hc) in Hrun.
  apply search_subfeddits_cases in Hrun.
  destruct Hrun as (events & Ht & _ & Hreq & Hr).
  exists events. split; [exact Ht|]. split.
  { rewrite Hreq. apply map_ext. intros s. reflexivity. }
  destruct r as [id|e].
  - destruct Hr as (full & pre & s & post & Hb & Hfull & Hlen & Ho & Hts & _).
    exists full, (pre ++ s :: post). repeat split; try assumption.
    + apply Forall_app in Ho. apply Ho.
    + exists s. split; [apply in_or_app; right; now left|exact Hts].
  - destruct Hr as [(before & skip' & Hev & _)|[Hv|(He & _ & (full & last & Hb & Hfull & Hlast & Hlen) & _)]].
    + left. eauto.
    + right. left. exact Hv.
    + right. right. split; [exact He|]. exists full, last. auto.
Qed.

End SubfedditId.

(** ** The title search on a paging source *)

Section PagingSearch.

Context {F : Type} {SF : Scalar F}.
Variable subfeddit_title : string.
Variables (all : list CommentInfo.t) (subfeddits : list SubfedditInfo.t).

Local Abbreviation has_title :=
  (fun s : SubfedditInfo.t => String.eqb (SubfedditInfo.title s) subfeddit_title).
Local Abbreviation not_found_detail :=
  ("Subfeddit with title '" ++ subfeddit_title ++ "' not found")%string.

(** In a cache with room for an item, the loop over a batch stores
    without error and stops at the first subfeddit with the title. *)
Lemma scan_batch_finds batch : forall (w : World F),
  1 <= TTLCache.maxsize (subfeddit_cache w) ->
  exists w',
    scan_batch subfeddit_title batch w
    = Some (Ok (option_map SubfedditInfo.id (List.find has_title batch)), w') /\
    clock w' = clock w /\
    trace w' = trace w /\
    TTLCache.maxsize (subfeddit_cache w') = TTLCache.maxsize (subfeddit_cache w).
Proof.
  induction batch as [|s rest IH]; intros w Hmax.
  - exists w. repeat split.
  - cbn [scan_batch List.find]. unfold bind at 1, cache_setitem.
    unfold TTLCache.setitem.
    destruct (1 >? TTLCache.maxsize (subfeddit_cache w)) eqn:E; [lia|].
    destruct (String.eqb (SubfedditInfo.title s) subfeddit_title).
    + eexists. split; [reflexivity|]. repeat split.
    + match goal with |- context [scan_batch _ _ ?w0] => destruct (IH w0) as (w' & Hrun & Hc & Ht & Hm) end.
      { exact Hmax. }
      exists w'. split; [exact Hrun|]. repeat split; assumption.
Qed.

Lemma find_app_first {A} (f : A -> bool) l1 l2 :
  List.find f (l1 ++ l2)
  = match List.find f l1 with Some x => Some x | None => List.find f l2 end.
Proof.
  induction l1 as [|a l1 IH]; [reflexivity|]. cbn. destruct (f a); [reflexivity|exact IH].
Qed.

(** With [seen] subfeddits behind it, none of them with the title, the
    search ends within the rounds the rest needs. *)
Lemma search_subfeddits_paging fuel : forall seen (w : World F),
  (seen <= List.length subfeddits < seen + fuel * Z.to_nat _QUERY_BATCH_SIZE)%nat ->
  1 <= TTLCache.maxsize (subfeddit_cache w) ->
  exists w',
    search_subfeddits fuel subfeddit_title (paging_client all subfeddits) (Z.of_nat seen) w
    = Some (match List.find has_title (skipn seen subfeddits) with
            | Some s => Ok (SubfedditInfo.id s)
            | None => Err (HTTPException 404 not_found_detail)
            end, w').
Proof.
  induction fuel as [|fuel IH]; intros seen w Hlen Hmax; [lia|].
  cbn [search_subfeddits]. rewrite bind_await.
  cbn [paging_client get_subfeddits outcome]. rewrite Nat2Z.id.
  set (B := Z.to_nat _QUERY_BATCH_SIZE) in *.
  assert (HB : Z.of_nat B = _QUERY_BATCH_SIZE) by (subst B; unfold _QUERY_BATCH_SIZE; lia).
  change (slice_to _QUERY_BATCH_SIZE (skipn seen subfeddits))
    with (firstn B (skipn seen subfeddits)).
  set (batch := firstn B (skipn seen subfeddits)).
  assert (Hbatch : List.length batch = Nat.min B (List.length subfeddits - seen))
    by (subst batch; now rewrite length_firstn, length_skipn).
  assert (Hsplit : skipn seen subfeddits = batch ++ skipn (seen + B) subfeddits).
  { subst batch. rewrite Nat.add_comm, <- skipn_skipn. symmetry. apply firstn_skipn. }
  match goal with |- context [bind (scan_batch _ _) _ ?w0] =>
    destruct (@scan_batch_finds batch w0) as (w1 & Hscan & _ & _ & Hm1); [exact Hmax|] end.
  erewrite bind_run by exact Hscan.
  rewrite Hsplit, find_app_first.
  destruct (List.find has_title batch) as [s|]; cbn [option_map].
  - eexists. reflexivity.
  - unfold len. destruct (Z.of_nat (List.length batch) <? _QUERY_BATCH_SIZE) eqn:Hstop.
    + rewrite skipn_all2 by lia. eexists. reflexivity.
    + replace (Z.of_nat seen + _QUERY_BATCH_SIZE) with (Z.of_nat (seen + B)) by lia.
      apply IH; [lia|]. rewrite Hm1. exact Hmax.
Qed.

(** X17.  On a source that pages through its subfeddits and knows
    every id, and with a cache that has room for an entry,
    [get_subfeddit_id] ends within one round more than there are full
    pages: it returns the cached id when the title is in the cache,
    else the id of the first subfeddit with the title, and it raises
    the 404 when no subfeddit has the title. *)
Theorem title_lookup_on_paging_source (w : World F) :
  1 <= TTLCache.maxsize (subfeddit_cache w) ->
  exists w',
    get_subfeddit_id (S (Z.to_nat (len subfeddits / _QUERY_BATCH_SIZE))) subfeddit_title
                     (paging_client all subfeddits) w
    = Some (match TTLCache.lookup (clock w) subfeddit_title (subfeddit_cache w) with
            | Some cached_id => Ok cached_id
            | None =>
                match List.find has_title subfeddits with
                | Some s => Ok (SubfedditInfo.id s)
                | None => Err (HTTPException 404 not_found_detail)
                end
            end, w').
Proof.
  intros Hmax.
  destruct (TTLCache.lookup (clock w) subfeddit_title (subfeddit_cache w)) as [id|] eqn:Hl.
  - rewrite (get_subfeddit_id_hit _ _ _ w Hl). cbn. eexists. reflexivity.
  - assert (Hc : TTLCache.contains (clock w) subfeddit_title (subfeddit_cache w) = false).
    { destruct (TTLCache.contains _ _ _) eqn:E; [|reflexivity].
      apply CacheReads.contains_lookup in E. destruct E as [v E]. congruence. }
    rewrite (get_subfeddit_id_miss _ _ _ w Hc).
    apply (search_subfeddits_paging _ (seen := 0)); [|exact Hmax].
    unfold len, _QUERY_BATCH_SIZE. split; [lia|].
    assert (H := Z.div_mod (Z.of_nat (List.length subfeddits)) 5000 ltac:(lia)).
    assert (H' := Z.mod_pos_bound (Z.of_nat (List.length subfeddits)) 5000 ltac:(lia)).
    assert (0 <= Z.of_nat (List.length subfeddits) / 5000) by (apply Z.div_pos; lia).
    nia.
Qed.

End PagingSearch.

(** *** Concrete lookups *)

(** X11, witness: the title of subfeddit 1, cached by an earlier search. *)
Lemma cached_title_costs_one_request_witness :
  TTLCache.lookup 0 (subfeddit_title_of 1)
    (subfeddit_cache (world_after_search 1 2 [sample_subfeddit 1; sample_subfeddit 2]))
  = Some 1 /\
  exists w',
    get_subfeddit_id 1 (subfeddit_title_of 1) two_subfeddits
      (world_after_search 1 2 [sample_subfeddit 1; sample_subfeddit 2])
    = Some (Ok 1, w') /\
    trace w' = [GetSubfeddits 0 _QUERY_BATCH_SIZE (Ok [sample_subfeddit 1; sample_subfeddit 2]);
                GetSubfedditInfo 1 (Ok tt)].
Proof.
  assert (Hl : TTLCache.lookup
                 (clock (world_after_search 1 2 [sample_subfeddit 1; sample_subfeddit 2]))
                 (subfeddit_title_of 1)
                 (subfeddit_cache (world_after_search 1 2 [sample_subfeddit 1; sample_subfeddit 2]))
               = Some 1) by reflexivity.
  split; [exact Hl|].
  assert (Hne : outcome (get_subfeddit_info two_subfeddits 1)
                <> Err (APIClientError NotFoundError)) by discriminate.
  destruct (cached_title_costs_one_request (subfeddit_title_of 1) two_subfeddits 1 _ Hl Hne) as (w' & Hrun & Ht & _).
  exists w'. split; [exact Hrun|exact Ht].
Defined.

(** X12, witness: a source that knows no id any more. *)
Lemma stale_title_is_dropped_and_searched_witness :
  exists w1,
    get_subfeddit_id 1 (subfeddit_title_of 1) forgetful_source
      (world_after_search 1 2 [sample_subfeddit 1; sample_subfeddit 2])
    = search_subfeddits 1 (subfeddit_title_of 1) forgetful_source 0 w1 /\
    TTLCache.lookup 0 (subfeddit_title_of 1) (subfeddit_cache w1) = None /\
    TTLCache.lookup 0 (subfeddit_title_of 2) (subfeddit_cache w1) = Some 2.
Proof.
  assert (Hl : TTLCache.lookup
                 (clock (world_after_search 1 2 [sample_subfeddit 1; sample_subfeddit 2]))
                 (subfeddit_title_of 1)
                 (subfeddit_cache (world_after_search 1 2 [sample_subfeddit 1; sample_subfeddit 2]))
               = Some 1) by reflexivity.
  destruct (stale_title_is_dropped_and_searched (subfeddit_title_of 1) forgetful_source 1 _ Hl eq_refl eq_refl)
    as (w1 & Hrun & _ & _ & Hgone & Hkept).
  exists w1. split; [exact Hrun|]. split; [apply Hgone|].
  rewrite Hkept by discriminate. reflexivity.
Defined.

(** X13, witness: two subfeddits, neither with the title asked for. *)
Lemma not_found_title_is_not_cached_witness :
  get_subfeddit_id 1 "nowhere" two_subfeddits initial_world
  = Some (Err (HTTPException 404 "Subfeddit with title 'nowhere' not found"),
          world_after_search 1 2 [sample_subfeddit 1; sample_subfeddit 2]) /\
  TTLCache.lookup 0 "nowhere"
    (subfeddit_cache (world_after_search 1 2 [sample_subfeddit 1; sample_subfeddit 2]))
  = None.
Proof.
  match goal with |- ?run /\ _ => assert (Hrun : run) by reflexivity end.
  split; [exact Hrun|].
  assert (Hel : forall skip limit : Z,
            (0 <= elapsed (get_subfeddits two_subfeddits skip limit))%Q)
    by (intros; cbn; lra).
  assert (Hraises : raises_no_HTTPException two_subfeddits)
    by (split; intros; discriminate).
  assert (Hnd : NoDup (map TTLCache.key
                         (TTLCache.links (subfeddit_cache (initial_world (F:=float))))))
    by constructor.
  destruct (not_found_title_is_not_cached "nowhere" Hel 1 _ Hrun Hraises Hnd) as (_ & _ & events & _ & _ & H).
  apply H. cbn. lra.
Defined.

(** X14, witness: the title of the second of two subfeddits. *)
Lemma returned_id_is_cached_or_first_found_witness :
  get_subfeddit_id 1 (subfeddit_title_of 2) two_subfeddits initial_world
  = Some (Ok 2, world_after_search 1 2 [sample_subfeddit 1; sample_subfeddit 2]) /\
  TTLCache.lookup 0 (subfeddit_title_of 2)
    (subfeddit_cache (world_after_search 1 2 [sample_subfeddit 1; sample_subfeddit 2]))
  = Some 2.
Proof.
  match goal with |- ?run /\ _ => assert (Hrun : run) by reflexivity end.
  split; [exact Hrun|].
  assert (Hel : forall skip limit : Z,
            (0 <= elapsed (get_subfeddits two_subfeddits skip limit))%Q)
    by (intros; cbn; lra).
  assert (Httl : (0 < TTLCache.ttl (subfeddit_cache (initial_world (F:=float))))%Q)
    by reflexivity.
  destruct (returned_id_is_cached_or_first_found (subfeddit_title_of 2) two_subfeddits Hel 1 _ Hrun Httl)
    as (events & _ & [[Hcached _]|(full & pre & s & post & _ & _ & _ & _ & _ & Hl)]).
  - discriminate Hcached.
  - exact Hl.
Defined.

(** X15, witness: the same title asked for again, with no fuel. *)
Lemma second_lookup_is_answered_from_cache_witness :
  get_subfeddit_id 1 (subfeddit_title_of 2) two_subfeddits initial_world
  = Some (Ok 2, world_after_search 1 2 [sample_subfeddit 1; sample_subfeddit 2]) /\
  exists w2,
    get_subfeddit_id 0 (subfeddit_title_of 2) two_subfeddits
      (world_after_search 1 2 [sample_subfeddit 1; sample_subfeddit 2])
    = Some (Ok 2, w2).
Proof.
  match goal with |- ?run /\ _ => assert (Hrun : run) by reflexivity end.
  split; [exact Hrun|].
  assert (Hel : forall skip limit : Z,
            (0 <= elapsed (get_subfeddits two_subfeddits skip limit))%Q)
    by (intros; cbn; lra).
  assert (Httl : (0 < TTLCache.ttl (subfeddit_cache (initial_world (F:=float))))%Q)
    by reflexivity.
  destruct (second_lookup_is_answered_from_cache (subfeddit_title_of 2) two_subfeddits Hel 1 0
              (initial_world (F:=float)) eq_refl Hrun Httl eq_refl)
    as (w2 & Hsecond & _).
  exists w2. exact Hsecond.
Defined.

(** X16, witness: a failed search of one short page. *)
Lemma subfeddit_pages_requested_witness :
  get_subfeddit_id 1 "nowhere" two_subfeddits initial_world
  = Some (Err (HTTPException 404 "Subfeddit with title 'nowhere' not found"),
          world_after_search 1 2 [sample_subfeddit 1; sample_subfeddit 2]) /\
  subfeddit_requests
    (trace (world_after_search 1 2 [sample_subfeddit 1; sample_subfeddit 2]))
  = [(0, 5000)].
Proof.
  match goal with |- ?run /\ _ => assert (Hrun : run) by reflexivity end.
  split; [exact Hrun|].
  assert (Hel : forall skip limit : Z,
            (0 <= elapsed (get_subfeddits two_subfeddits skip limit))%Q)
    by (intros; cbn; lra).
  destruct (subfeddit_pages_requested "nowhere" two_subfeddits Hel 1
              (initial_world (F:=float)) eq_refl Hrun) as (events & Ht & Hreq & _).
  apply (app_inv_head (trace (initial_world (F:=float)))) in Ht. subst events.
  exact Hreq.
Defined.

(** X17, witness: a paging source with two subfeddits. *)
Lemma title_lookup_on_paging_source_witness :
  exists w',
    get_subfeddit_id 1 (subfeddit_title_of 2)
      (paging_client [] [sample_subfeddit 1; sample_subfeddit 2]) (initial_world (F:=float))
    = Some (Ok 2, w').
Proof.
  assert (Hmax : 1 <= TTLCache.maxsize (subfeddit_cache (initial_world (F:=float))))
    by (cbn; unfold _CACHE_MAX_SIZE; lia).
  destruct (title_lookup_on_paging_source (subfeddit_title_of 2) []
              [sample_subfeddit 1; sample_subfeddit 2] _ Hmax) as (w' & Hrun).
  exists w'. exact Hrun.
Defined.

(** ** The sort by polarity *)

Section SortByValue.

Variables (A K : Type) (key : A -> K) (lt : K -> K -> bool).
Variables (value : K -> Q) (P : A -> Prop).

Hypothesis lt_value :
  forall x y, P x -> P y -> (lt (key x) (key y) = true <-> (value (key x) < value (key y))%Q).

Local Abbreviation ins := (insert_reverse key lt).
Local Abbreviation srt := (sort_reverse key lt).
Local Abbreviation ge := (fun a b => (value (key b) <= value (key a))%Q).

Lemma insert_reverse_In x y l : In y (ins x l) <-> y = x \/ In y l.
Proof.
  induction l as [|z l IH]; cbn [insert_reverse In]; [intuition auto|].
  destruct (lt (key x) (key z)); cbn [In]; [rewrite IH|]; intuition auto.
Qed.

Lemma insert_reverse_sorted x l :
  P x -> Forall P l -> StronglySorted ge l -> StronglySorted ge (ins x l).
Proof.
  intros Px Pl Hs. induction Hs as [|z l Hs IH Hz]; cbn [insert_reverse].
  - constructor; constructor.
  - inversion Pl as [|? ? Pz Pl']; subst.
    destruct (lt (key x) (key z)) eqn:E.
    + apply lt_value in E; try assumption.
      constructor; [apply IH; assumption|].
      apply Forall_forall. intros y Hy. apply insert_reverse_In in Hy.
      destruct Hy as [->|Hy]; [apply Qlt_le_weak; exact E|].
      rewrite Forall_forall in Hz. apply Hz. exact Hy.
    + assert (Hle : (value (key z) <= value (key x))%Q).
      { apply Qnot_lt_le. intros Hlt. apply lt_value in Hlt; try assumption. congruence. }
      constructor; [constructor; assumption|].
      constructor; [exact Hle|].
      rewrite Forall_forall in *. intros y Hy. specialize (Hz y Hy). cbv beta in *.
      eapply Qle_trans; eassumption.
Qed.

Lemma sort_reverse_P l : Forall P l -> Forall P (srt l).
Proof.
  intros H. rewrite Forall_forall in *. intros x Hx. apply H.
  apply (Permutation_in _ (sort_reverse_perm key lt l)). exact Hx.
Qed.

Lemma sort_reverse_sorted l : Forall P l -> StronglySorted ge (srt l).
Proof.
  induction 1 as [|x l Px Pl IH]; cbn [sort_reverse fold_right]; [constructor|].
  apply insert_reverse_sorted; [exact Px|apply sort_reverse_P; exact Pl|exact IH].
Qed.

(** Elements that are never strictly below one another keep their order. *)
Variable f : A -> bool.

Hypothesis f_level :
  forall x y, P x -> P y -> f x = true -> f y = true -> lt (key x) (key y) = false.

Lemma insert_reverse_filter x l :
  P x -> Forall P l -> filter f (ins x l) = filter f (x :: l).
Proof.
  intros Px Pl. induction Pl as [|y l Py Pl IH]; [reflexivity|].
  cbn [insert_reverse]. destruct (lt (key x) (key y)) eqn:E; [|reflexivity].
  cbn [filter] in *. rewrite IH.
  destruct (f x) eqn:Ex, (f y) eqn:Ey; try reflexivity.
  rewrite (f_level Px Py Ex Ey) in E. discriminate.
Qed.

Lemma sort_reverse_filter l : Forall P l -> filter f (srt l) = filter f l.
Proof.
  induction 1 as [|x l Px Pl IH]; [reflexivity|].
  cbn [sort_reverse fold_right].
  rewrite insert_reverse_filter; [|exact Px|apply sort_reverse_P; exact Pl].
  cbn [filter]. fold (srt l). rewrite IH. reflexivity.
Qed.

End SortByValue.

Unset Implicit Arguments.

(** A float between -1 and 1 is a finite value. *)
Lemma polarity_finite (x : float) :
  between (-1)%float x 1%float = true -> is_finite (Prim2SF x) = true.
Proof.
  unfold between. cbn [fleb Scalar_float].
  rewrite andb_true_iff, !leb_spec, Prim2SF_minus_one, Prim2SF_one. intros [H H'].
  destruct (Prim2SF x) as [s|[]| |s m e]; try reflexivity; discriminate.
Qed.

Lemma ltb_value (x y : float) :
  is_finite (Prim2SF x) = true -> is_finite (Prim2SF y) = true ->
  (x <? y)%float = true <-> (SFval (Prim2SF x) < SFval (Prim2SF y))%Q.
Proof.
  intros Fx Fy. rewrite ltb_spec.
  apply SFltb_val; try assumption; apply Prim2SF_valid.
Qed.

Lemma leb_value (x y : float) :
  is_finite (Prim2SF x) = true -> is_finite (Prim2SF y) = true ->
  (x <=? y)%float = true <-> (SFval (Prim2SF x) <= SFval (Prim2SF y))%Q.
Proof.
  intros Fx Fy. rewrite leb_spec.
  apply SFleb_val; try assumption; apply Prim2SF_valid.
Qed.

(** Two finite floats equal to a third one are not strictly ordered. *)
Lemma eqb_level (v x y : float) :
  is_finite (Prim2SF x) = true -> is_finite (Prim2SF y) = true ->
  (x =? v)%float = true -> (y =? v)%float = true -> (x <? y)%float = false.
Proof.
  intros Fx Fy Ex Ey.
  assert (Fv : is_finite (Prim2SF v) = true).
  { rewrite eqb_spec in Ex. unfold SFeqb, SFcompare in Ex.
    destruct (Prim2SF x) as [s|[]| |s m e]; try discriminate;
      destruct (Prim2SF v) as [s'|[]| |s' m' e']; try reflexivity; try discriminate;
      destruct s; discriminate. }
  rewrite eqb_spec in Ex, Ey.
  apply SFeqb_val in Ex; try assumption; try apply Prim2SF_valid.
  apply SFeqb_val in Ey; try assumption; try apply Prim2SF_valid.
  destruct (x <? y)%float eqn:E; [|reflexivity].
  apply ltb_value in E; try assumption. exfalso. lra.
Qed.

Set Implicit Arguments.

(** ** The orchestrator with the scorer behind its HTTP endpoint *)

Section HttpPipeline.

Variables (subfeddit_id : Z) (min_datetime max_datetime : option Z).
Variables (sort_by_polarity : bool) (feddit_client : FedditAPIClient float).
Variable post : list string -> Reply float (Response float).

Local Abbreviation scored :=
  (fun r : CommentSentiment float =>
     between (-1)%float (cs_polarity r) 1%float = true /\
     classification r = if (0 <=? cs_polarity r)%float then "positive"%string
                        else "negative"%string).

Lemma http_responses_scored cs analyses :
  outcome (analyze_sentiment (http_sentiment_analyzer post) (map CommentInfo.text cs) 60)
    = Ok analyses ->
  Forall scored (map (@make_response float) (combine cs analyses)) /\
  Forall (fun ca => statement (snd ca) = CommentInfo.text (fst ca)) (combine cs analyses).
Proof.
  intros Hr. apply http_analyzer_ok in Hr. destruct Hr as (outputs & _ & Hall).
  revert Hall. generalize outputs. clear outputs.
  revert analyses. induction cs as [|c cs' IH]; intros analyses outputs Hall.
  - cbn. split; constructor.
  - destruct outputs as [|o outputs]; cbn [map combine] in Hall.
    + inversion Hall; subst. cbn. split; constructor.
    + inversion Hall as [|so a l l' (Ha & Hst & Hb & Hs) Hrest]; subst.
      cbn [combine map]. destruct (IH _ _ Hrest) as [IH1 IH2].
      split; constructor; try assumption.
      cbn [make_response cs_polarity classification fst snd]. split; [exact Hb|].
      rewrite Hs. destruct (0 <=? polarity a)%float; reflexivity.
Qed.

Lemma Forall_scored_perm (l l' : list (CommentSentiment float)) :
  Permutation l l' -> Forall scored l' -> Forall scored l.
Proof.
  intros Hp H. rewrite Forall_forall in *. intros x Hx. apply H.
  apply (Permutation_in _ Hp). exact Hx.
Qed.

(** X18.  With the scorer behind its HTTP endpoint, every response
    of [analyze_comments_sentiment] carries a polarity between -1 and 1
    and the classification of its sign: positive when the polarity is
    at least 0, negative otherwise. *)
Theorem http_pipeline_classifies_by_sign fuel w rs w' :
  analyze_comments_sentiment fuel subfeddit_id min_datetime max_datetime sort_by_polarity
    feddit_client (http_sentiment_analyzer post) w = Some (Ok rs, w') ->
  Forall (fun r =>
            between (-1)%float (cs_polarity r) 1%float = true /\
            classification r = (if (0 <=? cs_polarity r)%float then "positive"
                                else "negative")%string) rs.
Proof.
  intros Hrun. apply analyze_run_inv in Hrun.
  destruct Hrun as (cs & w1 & _ & [[_ ->]|(analyses & Hr & ->)]); [constructor|].
  destruct (http_responses_scored _ Hr) as [Hall _].
  unfold responses_of. destruct sort_by_polarity; [|exact Hall].
  eapply Forall_scored_perm; [apply sort_reverse_perm|exact Hall].
Qed.

End HttpPipeline.

(** X19.  With [sort_by_polarity], and the scorer behind its HTTP
    endpoint, the responses of [analyze_comments_sentiment] come with
    the highest polarity first, and they are the responses of the same
    call without [sort_by_polarity], rearranged: responses of equal
    polarity keep their order. *)
Theorem http_pipeline_sorted_by_polarity
    subfeddit_id min_datetime max_datetime (feddit_client : FedditAPIClient float)
    (post : list string -> Reply float (Response float)) fuel w rs w' :
  analyze_comments_sentiment fuel subfeddit_id min_datetime max_datetime true
    feddit_client (http_sentiment_analyzer post) w = Some (Ok rs, w') ->
  StronglySorted (fun a b => (cs_polarity b <=? cs_polarity a)%float = true) rs /\
  exists unsorted w0,
    analyze_comments_sentiment fuel subfeddit_id min_datetime max_datetime false
      feddit_client (http_sentiment_analyzer post) w = Some (Ok unsorted, w0) /\
    Permutation rs unsorted /\
    forall v, filter (fun r => (cs_polarity r =? v)%float) rs
              = filter (fun r => (cs_polarity r =? v)%float) unsorted.
Proof.
  intros Hrun. pose proof Hrun as Hinv. apply analyze_run_inv in Hinv.
  destruct Hinv as (cs & w1 & Hget & [[Hcs ->]|(analyses & Hr & ->)]).
  - split; [constructor|]. exists [], w'. split; [|split; [reflexivity|reflexivity]].
    subst cs. unfold analyze_comments_sentiment in *.
    erewrite bind_run in Hrun by exact Hget. erewrite bind_run by exact Hget.
    exact Hrun.
  - destruct (http_responses_scored post _ Hr) as [Hall _].
    set (l := map (@make_response float) (combine cs analyses)) in *.
    assert (Hfin : Forall (fun r => is_finite (Prim2SF (cs_polarity r)) = true) l).
    { rewrite Forall_forall in *. intros r Hin. apply polarity_finite, (Hall r Hin). }
    unfold responses_of. fold l.
    split; [|exists l].
    + assert (Hs := @sort_reverse_sorted _ _ (@cs_polarity float) fltb
                      (fun x => SFval (Prim2SF x))
                      (fun r => is_finite (Prim2SF (cs_polarity r)) = true)
                      (fun x y Fx Fy => ltb_value _ _ Fx Fy) l Hfin).
      assert (Hp := @sort_reverse_P _ _ (@cs_polarity float) fltb
                      (fun r => is_finite (Prim2SF (cs_polarity r)) = true) l Hfin).
      revert Hs Hp. generalize (sort_reverse (@cs_polarity float) fltb l). intros s Hs Hp.
      induction Hs as [|a s Hs IH Ha]; constructor.
      * apply IH. inversion Hp; assumption.
      * inversion Hp as [|? ? Fa Fs]; subst. rewrite Forall_forall in *.
        intros b Hb. apply leb_value; [apply Fs, Hb|exact Fa|apply Ha, Hb].
    + destruct cs as [|c cs'].
      { exists w1. cbn in l. subst l. cbn. split; [|split; [reflexivity|reflexivity]].
        unfold analyze_comments_sentiment. erewrite bind_run by exact Hget. reflexivity. }
      eexists. split; [|split].
      * change l with (responses_of false (c :: cs') analyses).
        eapply analyze_run_scored; [exact Hget|discriminate|exact Hr].
      * apply sort_reverse_perm.
      * intros v.
        apply (@sort_reverse_filter _ _ (@cs_polarity float) fltb
                 (fun r => is_finite (Prim2SF (cs_polarity r)) = true)
                 (fun r => (cs_polarity r =? v)%float)); [|exact Hfin].
        intros x y Fx Fy Ex Ey. apply (eqb_level v); assumption.
Qed.

(** ** The validators of scores and polarities on binary64 *)

Unset Implicit Arguments.

Lemma between_value (lo hi x : float) :
  is_finite (Prim2SF lo) = true -> is_finite (Prim2SF hi) = true ->
  between lo x hi = true <->
  is_finite (Prim2SF x) = true /\
  (SFval (Prim2SF lo) <= SFval (Prim2SF x) <= SFval (Prim2SF hi))%Q.
Proof.
  intros Flo Fhi. unfold between. cbn [fleb Scalar_float]. rewrite andb_true_iff.
  split.
  - intros [H1 H2].
    assert (Fx : is_finite (Prim2SF x) = true).
    { rewrite leb_spec in H1, H2.
      destruct (Prim2SF x) as [s|[]| |s m e]; try reflexivity;
        destruct (Prim2SF lo) as [?|?| |[] ? ?]; try discriminate;
        destruct (Prim2SF hi) as [?|?| |[] ? ?]; discriminate. }
    split; [exact Fx|].
    apply leb_value in H1; try assumption. apply leb_value in H2; try assumption. auto.
  - intros (Fx & H1 & H2). split; apply leb_value; assumption.
Qed.

(** X20.  The two range validators on binary64.  The validator of
    scores accepts a float exactly when it is finite (not NaN, not an
    infinity) and its value lies between 0 and 1, and the validator of
    polarities exactly when it is finite and its value lies between -1
    and 1; what they accept they return unchanged, and everything else
    raises the [ValueError] of the validator. *)
Theorem validators_accept_finite_values_in_range (x : float) :
  (_score_must_be_between_0_and_1 x
   = if is_finite (Prim2SF x) && Qle_bool 0 (SFval (Prim2SF x))
        && Qle_bool (SFval (Prim2SF x)) 1
     then Ok x else Err (ValueError "Score must be between 0 and 1")) /\
  (_polarity_must_be_between_minus_1_and_1 x
   = if is_finite (Prim2SF x) && Qle_bool (-1) (SFval (Prim2SF x))
        && Qle_bool (SFval (Prim2SF x)) 1
     then Ok x else Err (ValueError "Polarity must be between -1 and 1")).
Proof.
  assert (Hgen : forall lo hi qlo qhi,
            is_finite (Prim2SF lo) = true -> is_finite (Prim2SF hi) = true ->
            (SFval (Prim2SF lo) == qlo)%Q -> (SFval (Prim2SF hi) == qhi)%Q ->
            between lo x hi
            = is_finite (Prim2SF x) && Qle_bool qlo (SFval (Prim2SF x))
              && Qle_bool (SFval (Prim2SF x)) qhi).
  { intros lo hi qlo qhi Flo Fhi Hlo Hhi.
    apply eq_true_iff_eq. rewrite (between_value lo hi x Flo Fhi).
    rewrite !andb_true_iff, !Qle_bool_iff, Hlo, Hhi. tauto. }
  split.
  - unfold _score_must_be_between_0_and_1.
    change (between fzero x fone) with (between 0%float x 1%float).
    rewrite (Hgen 0%float 1%float 0%Q 1%Q); try reflexivity.
    destruct (_ && _ && _); reflexivity.
  - unfold _polarity_must_be_between_minus_1_and_1.
    change (between (fopp fone) x fone) with (between (-1)%float x 1%float).
    rewrite (Hgen (-1)%float 1%float (-1)%Q 1%Q); try reflexivity.
    destruct (_ && _ && _); reflexivity.
Qed.

Set Implicit Arguments.

(** *** Concrete runs with the scorer behind its endpoint *)

(** X18, witness: three comments with the polarities -0.5, 0.25 and 1. *)
Lemma http_pipeline_classifies_by_sign_witness :
  analyze_comments_sentiment 1 7 None None false three_comments
    (http_sentiment_analyzer three_outputs) initial_world
  = Some (Ok three_responses,
          world_after_scoring (world_after_fetching 7 [three_page])
            ["text"; "text"; "text"]%string
            [mkSentimentAnalysis "text" (-0.5)%float NEGATIVE;
             mkSentimentAnalysis "text" 0.25%float POSITIVE;
             mkSentimentAnalysis "text" 1%float POSITIVE]) /\
  Forall (fun r =>
            between (-1)%float (cs_polarity r) 1%float = true /\
            classification r = (if (0 <=? cs_polarity r)%float then "positive"
                                else "negative")%string) three_responses.
Proof.
  match goal with |- ?run /\ _ => assert (Hrun : run) by reflexivity end.
  split; [exact Hrun|].
  exact (http_pipeline_classifies_by_sign _ _ _ _ _ _ _ _ Hrun).
Defined.

(** X19, witness: the same three comments, sorted. *)
Lemma http_pipeline_sorted_by_polarity_witness :
  analyze_comments_sentiment 1 7 None None true three_comments
    (http_sentiment_analyzer three_outputs) initial_world
  = Some (Ok three_responses_sorted,
          world_after_scoring (world_after_fetching 7 [three_page])
            ["text"; "text"; "text"]%string
            [mkSentimentAnalysis "text" (-0.5)%float NEGATIVE;
             mkSentimentAnalysis "text" 0.25%float POSITIVE;
             mkSentimentAnalysis "text" 1%float POSITIVE]) /\
  StronglySorted (fun a b => (cs_polarity b <=? cs_polarity a)%float = true)
                 three_responses_sorted.
Proof.
  match goal with |- ?run /\ _ => assert (Hrun : run) by reflexivity end.
  split; [exact Hrun|].
  exact (proj1 (http_pipeline_sorted_by_polarity _ _ _ _ _ _ _ Hrun)).
Defined.

(** ** Requests, responses and endpoints *)

(** X21.  [validate_min_max_datetime] rejects a request exactly when
    its time range is empty: when no comment at all passes the filter
    of [_get_all_comments] for the bounds of the request. *)
Theorem empty_time_range_is_rejected {F} (request : CommentSentimentIDRequest.t) :
  (exists msg,
     CommentSentimentIDRequest.validate_min_max_datetime (F:=F) request
     = Err (ValueError msg))
  <->
  (forall comment,
     in_time_range (CommentSentimentIDRequest.min_datetime request)
                   (CommentSentimentIDRequest.max_datetime request) comment = false).
Proof.
  unfold CommentSentimentIDRequest.validate_min_max_datetime, in_time_range.
  destruct (CommentSentimentIDRequest.min_datetime request) as [lo|],
           (CommentSentimentIDRequest.max_datetime request) as [hi|].
  - destruct (lo >? hi) eqn:E.
    + split; [|eauto]. intros _ c. apply andb_false_iff.
      destruct (lo <=? CommentInfo.created_at c) eqn:E1; [right; lia|left; reflexivity].
    + split; [intros [msg [=]]|]. intros H. specialize (H (CommentInfo.mk 0 "" "" lo)).
      cbn [CommentInfo.created_at] in H. apply andb_false_iff in H. lia.
  - split; [intros [msg [=]]|]. intros H. specialize (H (CommentInfo.mk 0 "" "" lo)).
    cbn [CommentInfo.created_at] in H. apply andb_false_iff in H.
    destruct H as [H|H]; [lia|discriminate].
  - split; [intros [msg [=]]|]. intros H. specialize (H (CommentInfo.mk 0 "" "" hi)).
    cbn [CommentInfo.created_at] in H. apply andb_false_iff in H.
    destruct H as [H|H]; [discriminate|lia].
  - split; [intros [msg [=]]|]. intros H. specialize (H (CommentInfo.mk 0 "" "" 0)).
    discriminate.
Qed.

Section Endpoints.

Context {F : Type} {SF : Scalar F}.
Variable feddit_client : FedditAPIClient F.
Variable sentiment_analyzer : SentimentAnalyzer F.

Lemma comment_requests_app (e1 e2 : list (Event F)) :
  comment_requests (e1 ++ e2) = comment_requests e1 ++ comment_requests e2.
Proof. apply flat_map_app. Qed.

Lemma scorer_calls_app (e1 e2 : list (Event F)) :
  scorer_calls (e1 ++ e2) = scorer_calls e1 ++ scorer_calls e2.
Proof. apply flat_map_app. Qed.

(** The orchestrator asks for the comments of its subfeddit only, and
    what it returns passes the validator of the responses. *)
Lemma analyze_run_requests fuel subfeddit_id min_datetime max_datetime sort_by_polarity
    (w : World F) r w' :
  analyze_comments_sentiment fuel subfeddit_id min_datetime max_datetime sort_by_polarity
                             feddit_client sentiment_analyzer w = Some (r, w') ->
  (exists events,
     trace w' = trace w ++ events /\
     forall request, In request (comment_requests events) -> fst (fst request) = subfeddit_id) /\
  forall rs, r = Ok rs -> no_more_than_25_comments rs = Ok rs.
Proof.
  intros Hrun. split.
  - assert (Hfetch : forall r0 w0,
              _get_all_comments fuel subfeddit_id min_datetime max_datetime feddit_client w
              = Some (r0, w0) ->
              exists events,
                trace w0 = trace w ++ events /\
                forall request, In request (comment_requests events) ->
                                fst (fst request) = subfeddit_id).
    { intros r0 w0 Hget. unfold _get_all_comments in Hget.
      apply get_all_comments_from_pages in Hget.
      destruct Hget as (events & Ht & Hreq & _). exists events. split; [exact Ht|].
      intros request Hin. rewrite Hreq in Hin. apply in_map_iff in Hin.
      destruct Hin as (s & <- & _). reflexivity. }
    apply analyze_run_cases in Hrun.
    destruct Hrun as [(e & _ & Hget)|[[_ Hget]|(cs & w1 & Hget & _ & Hw & _)]];
      try (eapply Hfetch; exact Hget).
    destruct (Hfetch _ _ Hget) as (events & Ht & Hall). cbv zeta in Hw.
    eexists (events ++ [_]). subst w'. unfold after_await. cbn [trace].
    rewrite Ht, <- app_assoc. split; [reflexivity|].
    intros request Hin. rewrite comment_requests_app in Hin. cbn in Hin.
    rewrite app_nil_r in Hin. apply Hall. exact Hin.
  - intros rs ->.
    assert (Hle : len rs <= 25).
    { destruct (analyze_run_inv _ _ _ _ _ _ _ _ Hrun) as (cs & w1 & Hget & Hrs).
      destruct (get_all_comments_run _ _ _ _ _ _ Hget) as (events & _ & _ & _ & Hcs).
      assert (Hlen : len cs <= 25).
      { rewrite (Hcs cs eq_refl), window_len. unfold _QUERY_LIMIT. lia. }
      destruct Hrs as [[_ ->]|(sentiments & _ & ->)]; [cbn; lia|].
      rewrite responses_of_len. lia. }
    unfold no_more_than_25_comments, _MAX_COMMENTS.
    destruct (len rs >? 25) eqn:E; [lia|reflexivity].
Qed.

(** X22.  The endpoint for titles.  When the lookup of the title
    raises, the endpoint raises the same error and has neither asked
    for comments nor called the scorer.  When the lookup returns an
    id, comments are asked for that id only, and the endpoint ends as
    [analyze_comments_sentiment] does: with its error, or with the
    response that carries the title of the request and its list (the
    validator of the response never rejects it). *)
Theorem title_endpoint_fetches_for_found_id fuel (request : CommentSentimentRequest.t)
    (w : World F) r w' :
  get_classified_comment_from_title fuel request feddit_client sentiment_analyzer w
    = Some (r, w') ->
  exists events,
    trace w' = trace w ++ events /\
    match get_subfeddit_id fuel (CommentSentimentRequest.subfeddit_title request)
                           feddit_client w with
    | Some (Ok subfeddit_id, w1) =>
        (forall request, In request (comment_requests events) ->
                         fst (fst request) = subfeddit_id) /\
        exists r1,
          analyze_comments_sentiment fuel subfeddit_id
            (CommentSentimentRequest.min_datetime request)
            (CommentSentimentRequest.max_datetime request)
            (CommentSentimentRequest.sort_by_polarity request)
            feddit_client sentiment_analyzer w1 = Some (r1, w') /\
          r = match r1 with
              | Ok sentiments =>
                  Ok (CommentSentimentResponse.mk
                        (CommentSentimentRequest.subfeddit_title request) sentiments)
              | Err e => Err e
              end
    | Some (Err e, w1) =>
        r = Err e /\ w' = w1 /\ comment_requests events = [] /\ scorer_calls events = []
    | None => False
    end.
Proof.
  intros Hrun. unfold get_classified_comment_from_title in Hrun.
  apply bind_inv in Hrun.
  destruct Hrun as [(subfeddit_id & w1 & Hid & Hk)|(e & Hid & ->)].
  - rewrite Hid. pose proof (get_subfeddit_id_lookups _ _ _ _ Hid) as (ev1 & Ht1 & Hc1 & _).
    apply bind_inv in Hk.
    destruct Hk as [(sentiments & w2 & Hrun & Hk)|(e & Hrun & ->)].
    + destruct (analyze_run_requests _ _ _ _ _ _ Hrun) as ((ev2 & Ht2 & Hall) & Hv).
      unfold lift, CommentSentimentResponse.new in Hk.
      rewrite (Hv sentiments eq_refl) in Hk. inversion Hk; subst r w'.
      exists (ev1 ++ ev2). rewrite Ht2, Ht1, <- app_assoc. split; [reflexivity|]. split.
      * intros rq Hin. rewrite comment_requests_app, Hc1 in Hin. apply Hall. exact Hin.
      * eexists. split; [exact Hrun|reflexivity].
    + destruct (analyze_run_requests _ _ _ _ _ _ Hrun) as ((ev2 & Ht2 & Hall) & _).
      exists (ev1 ++ ev2). rewrite Ht2, Ht1, <- app_assoc. split; [reflexivity|]. split.
      * intros rq Hin. rewrite comment_requests_app, Hc1 in Hin. apply Hall. exact Hin.
      * eexists. split; [exact Hrun|reflexivity].
  - rewrite Hid. pose proof (get_subfeddit_id_lookups _ _ _ _ Hid) as (ev1 & Ht1 & Hc1 & Hs1).
    exists ev1. auto.
Qed.

(** X23.  The endpoint for ids ends as [analyze_comments_sentiment]
    does for the fields of the request: with its error, or with the
    response that carries the id of the request and the list it
    returned.  The validator [no_more_than_25_comments] of the
    response never rejects that list. *)
Theorem id_endpoint_returns_orchestrator_result fuel (request : CommentSentimentIDRequest.t)
    (w : World F) :
  get_classified_comments_from_id fuel request feddit_client sentiment_analyzer w
  = match analyze_comments_sentiment fuel
            (CommentSentimentIDRequest.subfeddit_id request)
            (CommentSentimentIDRequest.min_datetime request)
            (CommentSentimentIDRequest.max_datetime request)
            (CommentSentimentIDRequest.sort_by_polarity request)
            feddit_client sentiment_analyzer w with
    | Some (Ok sentiments, w') =>
        Some (Ok (CommentSentimentIDResponse.mk
                    (CommentSentimentIDRequest.subfeddit_id request) sentiments), w')
    | Some (Err e, w') => Some (Err e, w')
    | None => None
    end.
Proof.
  unfold get_classified_comments_from_id, bind.
  destruct (analyze_comments_sentiment _ _ _ _ _ _ _ w) as [[[sentiments|e] w']|] eqn:Hrun;
    try reflexivity.
  destruct (analyze_run_requests _ _ _ _ _ _ Hrun) as (_ & Hv).
  unfold lift, CommentSentimentIDResponse.new. rewrite (Hv sentiments eq_refl). reflexivity.
Qed.

End Endpoints.

(** *** A concrete request *)

(** X22, witness: the title of subfeddit 2 on a source with three comments. *)
Lemma title_endpoint_fetches_for_found_id_witness :
  exists w',
    get_classified_comment_from_title 1
      (CommentSentimentRequest.mk (subfeddit_title_of 2) None None false)
      small_source one_analysis initial_world
    = Some (Ok (CommentSentimentResponse.mk (subfeddit_title_of 2) one_response), w') /\
    forall request, In request (comment_requests (trace w')) -> fst (fst request) = 2.
Proof.
  eexists.
  match goal with |- ?run /\ _ => assert (Hrun : run) by reflexivity end.
  split; [exact Hrun|].
  destruct (title_endpoint_fetches_for_found_id _ _ _ _ _ Hrun) as (events & Ht & H).
  apply (app_inv_head (trace (initial_world (F:=float)))) in Ht. subst events.
  assert (Hid : get_subfeddit_id 1 (subfeddit_title_of 2) small_source initial_world
                = Some (Ok 2, world_after_search 1 2 [sample_subfeddit 1; sample_subfeddit 2]))
    by reflexivity.
  cbn [CommentSentimentRequest.subfeddit_title] in H. rewrite Hid in H.
  exact (proj1 H).
Defined.
